(** * bikeWishList/main.py: the wishlist command line over its relational store

    A shallow embedding of [main.py].  The program is a hierarchy of menu
    loops; every handler reads lines from the console, issues parameterised
    SQL statements over one connection and prints messages.  The embedding
    threads an explicit [world] (the tables, the pending console input, the
    console output and the statements issued on the connection) through a
    small state-and-exception monad.

    Text is ASCII text without the NUL character.  The store is the four
    tables of the schema the program is written for: a statement has the
    effect its text says, and the server turns down, with an error the
    program does not catch, the write that would break the primary key of
    ["List_Tracker"] or one of the two references of ["Wish_List"].  Every
    write is followed at once by [conn.commit()], so the tables of a world
    are the committed ones. *)

From Stdlib Require Import ZArith List String Ascii Bool Lia.
From Stdlib Require Import Decimal DecimalString DecimalPos DecimalN DecimalZ.
Import ListNotations.

Local Open Scope string_scope.
Local Open Scope list_scope.

(** ** Python [str] operations (ASCII text) *)

Module PyStr.

Definition code (c : ascii) : nat := nat_of_ascii c.

(** [str.isspace] on the ASCII range: TAB..CR, FS..US and the blank. *)
Definition isspace (c : ascii) : bool :=
  let n := code c in
  (((9 <=? n) && (n <=? 13)) || ((28 <=? n) && (n <=? 32)))%nat.

Definition isupper (c : ascii) : bool :=
  let n := code c in ((65 <=? n) && (n <=? 90))%nat.

Definition isdigit (c : ascii) : bool :=
  let n := code c in ((48 <=? n) && (n <=? 57))%nat.

Definition lower_char (c : ascii) : ascii :=
  if isupper c then ascii_of_nat (code c + 32) else c.

(** [s.lower()] *)
Fixpoint lower (s : string) : string :=
  match s with
  | EmptyString => EmptyString
  | String c r => String (lower_char c) (lower r)
  end.

Fixpoint lstrip_by (sp : ascii -> bool) (s : string) : string :=
  match s with
  | EmptyString => EmptyString
  | String c r => if sp c then lstrip_by sp r else s
  end.

Fixpoint rstrip_by (sp : ascii -> bool) (s : string) : string :=
  match s with
  | EmptyString => EmptyString
  | String c r =>
      match rstrip_by sp r with
      | EmptyString => if sp c then EmptyString else String c EmptyString
      | r' => String c r'
      end
  end.

Definition strip_by (sp : ascii -> bool) (s : string) : string :=
  rstrip_by sp (lstrip_by sp s).

(** [s.strip()] *)
Definition strip (s : string) : string := strip_by isspace s.

(** [s.startswith(sub)] *)
Fixpoint startswith (s sub : string) {struct sub} : bool :=
  match sub with
  | EmptyString => true
  | String a sub' =>
      match s with
      | EmptyString => false
      | String b s' => Ascii.eqb a b && startswith s' sub'
      end
  end.

(** [sub in s] *)
Fixpoint str_in (sub s : string) : bool :=
  match s with
  | EmptyString => startswith s sub
  | String _ r => startswith s sub || str_in sub r
  end.

(** [sep.join(l)] *)
Fixpoint join (sep : string) (l : list string) : string :=
  match l with
  | [] => EmptyString
  | [x] => x
  | x :: r => x ++ sep ++ join sep r
  end.

(** [str(z)] for an [int] *)
Definition str_of_int (z : Z) : string := NilZero.string_of_int (Z.to_int z).

Definition digit_val (c : ascii) : Z := Z.of_nat (code c - 48).

(** Decimal digits, with single underscores between digits when [us] is
    set (the grammar of Python's integer literals). [seen] tells that the
    previous character was a digit. *)
Fixpoint parse_digits (us : bool) (s : string) (acc : Z) (seen : bool) : option Z :=
  match s with
  | EmptyString => if seen then Some acc else None
  | String c r =>
      if isdigit c then parse_digits us r (10 * acc + digit_val c) true
      else if (us && seen && Ascii.eqb c "_")%bool then parse_digits us r acc false
      else None
  end.

Definition parse_signed (us : bool) (s : string) : option Z :=
  match s with
  | EmptyString => None
  | String c r =>
      if Ascii.eqb c "-" then option_map Z.opp (parse_digits us r 0 false)
      else if Ascii.eqb c "+" then parse_digits us r 0 false
      else parse_digits us s 0 false
  end.

Fixpoint count_digits (s : string) : nat :=
  match s with
  | EmptyString => O
  | String c r => if isdigit c then S (count_digits r) else count_digits r
  end.

(** [int(s)]: [None] stands for [ValueError], which is also raised for
    more than 4300 digits ([sys.int_max_str_digits], CPython 3.11). *)
Definition int (s : string) : option Z :=
  if (4300 <? count_digits s)%nat then None else parse_signed true (strip s).

Definition nl : string := String (ascii_of_nat 10) EmptyString.

End PyStr.

(** ** The store: four tables and the statements the program issues *)

Module Pg.

Import PyStr.

Definition int4 (z : Z) : bool := ((-2147483648 <=? z) && (z <=? 2147483647))%Z.

(** The blanks skipped around an integer literal by the server. *)
Definition pg_isspace (c : ascii) : bool :=
  let n := code c in (((9 <=? n) && (n <=? 13)) || (n =? 32))%nat.

(** Text to [integer], in the decimal syntax every version of the server
    reads: [None] is the server's data error (invalid syntax or value out
    of range). *)
Definition int4in (s : string) : option Z :=
  match parse_signed false (strip_by pg_isspace s) with
  | Some z => if int4 z then Some z else None
  | None => None
  end.

(** [LIKE]: [%] matches any run of characters, [_] any one character,
    a backslash takes the next pattern character literally.  (A pattern
    that ends in a lone backslash is rejected by the server; the patterns
    of the program end in [%].) *)
Fixpoint like (p : string) : string -> bool :=
  match p with
  | EmptyString => fun t => match t with EmptyString => true | _ => false end
  | String c p' =>
      if Ascii.eqb c "%" then
        fix star (t : string) : bool :=
          like p' t || match t with EmptyString => false | String _ t' => star t' end
      else if Ascii.eqb c "_" then
        fun t => match t with EmptyString => false | String _ t' => like p' t' end
      else if Ascii.eqb c "\" then
        match p' with
        | EmptyString => fun _ => false
        | String e p'' =>
            fun t => match t with
                     | EmptyString => false
                     | String d t' => Ascii.eqb e d && like p'' t'
                     end
        end
      else
        fun t => match t with
                 | EmptyString => false
                 | String d t' => Ascii.eqb c d && like p' t'
                 end
  end.

(** [text ILIKE pattern] *)
Definition ilike (text pattern : string) : bool := like (lower pattern) (lower text).

(** Modelled from the spec: the columns of ["Categories"] and their types
    (the schema is created outside [main.py]): [category_id] integer,
    [category_name] text. *)
Record Category := { category_id : Z; category_name : string }.

(** Modelled from the spec: the columns of ["Products"] and their types:
    [product_id] integer, [product_name] text, [category_id] integer. *)
Record Product := { product_id : Z; product_name : string; p_category_id : Z }.

(** Modelled from the spec: the columns of ["Wish_List"] and their types:
    [wishlist_name] text, a reference to ["List_Tracker"]; [product_id]
    integer, a reference to ["Products"]; [number] integer; [owned]
    boolean.  The table has no key of its own.  The two references are
    what [insert_wish_item] and [delete_wishlist] below are held to. *)
Record WishRow := { wl_name : string; wl_product_id : Z; number : Z; owned : bool }.

(** The four tables, each the list of its rows in the order the store
    returns them; ["List_Tracker"] has the one column [wishlist_name]. *)
Record Store := {
  List_Tracker : list string;
  Categories : list Category;
  Products : list Product;
  Wish_List : list WishRow
}.

(** A query parameter as the program passes it: a Python [str] (sent
    untyped, so the server reads it in the type of the column it is
    compared with or assigned to) or a Python [int]. *)
Inductive param := PStr (s : string) | PInt (z : Z).

(** The parameter compared with an [integer] column. *)
Definition as_int (p : param) : option Z :=
  match p with
  | PStr s => int4in s
  | PInt z => Some z
  end.

(** The parameter assigned to an [integer] column. *)
Definition to_int4 (p : param) : option Z :=
  match p with
  | PStr s => int4in s
  | PInt z => if int4 z then Some z else None
  end.

Definition set_wish_list (st : Store) (l : list WishRow) : Store :=
  {| List_Tracker := List_Tracker st; Categories := Categories st;
     Products := Products st; Wish_List := l |}.

Definition set_list_tracker (st : Store) (l : list string) : Store :=
  {| List_Tracker := l; Categories := Categories st;
     Products := Products st; Wish_List := Wish_List st |}.

(** [SET number = %s] and [SET owned = %s] on one row *)
Definition with_number (qty : Z) (r : WishRow) : WishRow :=
  {| wl_name := wl_name r; wl_product_id := wl_product_id r;
     number := qty; owned := owned r |}.

Definition with_owned (b : bool) (r : WishRow) : WishRow :=
  {| wl_name := wl_name r; wl_product_id := wl_product_id r;
     number := number r; owned := b |}.

(** [WHERE wishlist_name = %s AND product_id = %s] *)
Definition item_at (wl : string) (pid : Z) (r : WishRow) : bool :=
  String.eqb (wl_name r) wl && Z.eqb (wl_product_id r) pid.

(** [SELECT "wishlist_name" FROM "List_Tracker"] *)
Definition select_wishlist_names (st : Store) : option (list string) :=
  Some (List_Tracker st).

(** [SELECT "wishlist_name" FROM "List_Tracker" WHERE "wishlist_name" = %s] *)
Definition select_wishlist (name : string) (st : Store) : option (list string) :=
  Some (filter (fun n => String.eqb n name) (List_Tracker st)).

(** The answer of the server to an [INSERT], [UPDATE] or [DELETE]: the
    tables after it, or the class of the error it raises, which leaves the
    tables as they were: [psycopg.errors.DataError] for a value that is not
    of the column's type, [psycopg.errors.IntegrityError] for a key or a
    reference that the write would break. *)
Inductive write :=
| Written (st : Store)
| Invalid
| Violation.

(** Modelled from the spec: [wishlist_name TEXT PRIMARY KEY] of
    ["List_Tracker"]. *)
Definition has_wishlist (name : string) (st : Store) : bool :=
  existsb (String.eqb name) (List_Tracker st).

(** Modelled from the spec: [product_id INT PRIMARY KEY] of ["Products"],
    which [product_id INT REFERENCES Products] of ["Wish_List"] points to. *)
Definition has_product (k : Z) (st : Store) : bool :=
  existsb (fun p => Z.eqb (product_id p) k) (Products st).

(** Modelled from the spec: [wishlist_name TEXT REFERENCES List_Tracker]
    of ["Wish_List"]: the rows that point to the wishlist [name]. *)
Definition has_items (name : string) (st : Store) : bool :=
  existsb (fun r => String.eqb (wl_name r) name) (Wish_List st).

(** [INSERT INTO "List_Tracker" ("wishlist_name") VALUES (%s)]; a second
    row of the same name would break the primary key. *)
Definition insert_wishlist (name : string) (st : Store) : write :=
  if has_wishlist name st then Violation
  else Written (set_list_tracker st (List_Tracker st ++ [name])).

(** [DELETE FROM "List_Tracker" WHERE "wishlist_name" = %s]; the reference
    from ["Wish_List"] names no action on deletion, so the row of a
    wishlist that still has items cannot be deleted. *)
Definition delete_wishlist (name : string) (st : Store) : write :=
  if has_wishlist name st && has_items name st then Violation
  else Written (set_list_tracker st
                  (filter (fun n => negb (String.eqb n name)) (List_Tracker st))).

(** [SELECT category_id, category_name FROM "Categories"] *)
Definition select_categories (st : Store) : option (list (Z * string)) :=
  Some (map (fun c => (category_id c, category_name c)) (Categories st)).

(** [SELECT p.product_id, p.product_name, c.category_name FROM "Products" p
    JOIN "Categories" c ON p.category_id = c.category_id], with
    [WHERE p.category_id = %s] when a category is given. *)
Definition select_products (cat : option Z) (st : Store)
  : option (list (Z * string * string)) :=
  Some (flat_map
          (fun p =>
             map (fun c => (product_id p, product_name p, category_name c))
                 (filter (fun c => Z.eqb (p_category_id p) (category_id c))
                         (Categories st)))
          (filter (fun p => match cat with
                            | Some k => Z.eqb (p_category_id p) k
                            | None => true
                            end)
                  (Products st))).

(** [SELECT p.product_id, p.product_name, wl.number, wl.owned FROM
    "Wish_List" wl JOIN "Products" p ON wl.product_id = p.product_id
    WHERE wl.wishlist_name = %s] *)
Definition select_items (wl : string) (st : Store)
  : option (list (Z * string * Z * bool)) :=
  Some (flat_map
          (fun r =>
             map (fun p => (product_id p, product_name p, number r, owned r))
                 (filter (fun p => Z.eqb (wl_product_id r) (product_id p))
                         (Products st)))
          (filter (fun r => String.eqb (wl_name r) wl) (Wish_List st))).

(** [SELECT product_id FROM "Wish_List" WHERE wishlist_name = %s AND
    product_id = %s] *)
Definition select_wish_item (wl : string) (pid : param) (st : Store)
  : option (list Z) :=
  match as_int pid with
  | Some k => Some (map wl_product_id (filter (item_at wl k) (Wish_List st)))
  | None => None
  end.

(** [INSERT INTO "Wish_List" (wishlist_name, product_id, number, owned)
    VALUES (%s, %s, %s, FALSE)]; the values are read in the types of their
    columns first, then the new row must point to a wishlist of
    ["List_Tracker"] and to a product of ["Products"]. *)
Definition insert_wish_item (wl : string) (pid : param) (qty : Z) (st : Store)
  : write :=
  match to_int4 pid with
  | Some k =>
      if int4 qty then
        if has_wishlist wl st && has_product k st then
          Written (set_wish_list st
                     (Wish_List st ++
                      [{| wl_name := wl; wl_product_id := k;
                          number := qty; owned := false |}]))
        else Violation
      else Invalid
  | None => Invalid
  end.

(** [SELECT product_id, product_name FROM "Products" WHERE product_name
    ILIKE %s] *)
Definition select_products_ilike (pattern : string) (st : Store)
  : option (list (Z * string)) :=
  Some (map (fun p => (product_id p, product_name p))
            (filter (fun p => ilike (product_name p) pattern) (Products st))).

(** [DELETE FROM "Wish_List" WHERE wishlist_name = %s AND product_id = %s] *)
Definition delete_wish_item (wl : string) (pid : param) (st : Store)
  : write :=
  match as_int pid with
  | Some k =>
      Written (set_wish_list st
                 (filter (fun r => negb (item_at wl k r)) (Wish_List st)))
  | None => Invalid
  end.

(** [UPDATE "Wish_List" SET number = %s WHERE wishlist_name = %s AND
    product_id = %s] *)
Definition update_number (qty : Z) (wl : string) (pid : param) (st : Store)
  : write :=
  match as_int pid with
  | Some k =>
      if int4 qty then
        Written (set_wish_list st
                   (map (fun r => if item_at wl k r then with_number qty r else r)
                        (Wish_List st)))
      else Invalid
  | None => Invalid
  end.

(** [UPDATE "Wish_List" SET owned = %s WHERE wishlist_name = %s AND
    product_id = %s] *)
Definition update_owned (b : bool) (wl : string) (pid : param) (st : Store)
  : write :=
  match as_int pid with
  | Some k =>
      Written (set_wish_list st
                 (map (fun r => if item_at wl k r then with_owned b r else r)
                      (Wish_List st)))
  | None => Invalid
  end.

(** The statements as they appear on the connection. *)
Inductive sql :=
| SELECT_wishlist_names
| SELECT_wishlist (name : string)
| INSERT_wishlist (name : string)
| DELETE_wishlist (name : string)
| SELECT_categories
| SELECT_products (cat : option Z)
| SELECT_items (wl : string)
| SELECT_wish_item (wl : string) (pid : param)
| INSERT_wish_item (wl : string) (pid : param) (qty : Z)
| SELECT_products_ilike (pattern : string)
| DELETE_wish_item (wl : string) (pid : param)
| UPDATE_number (qty : Z) (wl : string) (pid : param)
| UPDATE_owned (b : bool) (wl : string) (pid : param)
| COMMIT.

End Pg.

(** ** The program *)

Module App.

Import PyStr Pg.

(** What reaches the console: a printed line, or the prompt of [input]. *)
Inductive event := Out (s : string) | Prompt (s : string).

Record world := {
  db : Store;
  stdin : list string;
  stdout : list event;
  issued : list sql
}.

(** [EOFError] is raised by [input] at the end of the input; [DataError]
    and [IntegrityError] by a statement the server turns down.  None is
    caught by the menus. *)
Inductive exn := EOFError | DataError | IntegrityError.

Inductive result (A : Type) :=
| Ok (a : A) (w : world)
| Raise (e : exn) (w : world)
| Fuel.
Arguments Ok {A} a w.
Arguments Raise {A} e w.
Arguments Fuel {A}.

Definition M (A : Type) : Type := world -> result A.

Definition ret {A} (a : A) : M A := fun w => Ok a w.

Definition bind {A B} (m : M A) (k : A -> M B) : M B :=
  fun w => match m w with
           | Ok a w' => k a w'
           | Raise e w' => Raise e w'
           | Fuel => Fuel
           end.

Declare Scope prog_scope.
Delimit Scope prog_scope with prog.
Notation "x <- m ;; k" := (bind m (fun x => k))
  (at level 100, m at next level, right associativity) : prog_scope.
Notation "m ;; k" := (bind m (fun _ => k))
  (at level 100, right associativity) : prog_scope.
Local Open Scope prog_scope.

Definition emit (e : event) (w : world) : world :=
  {| db := db w; stdin := stdin w; stdout := stdout w ++ [e]; issued := issued w |}.

Definition sent (q : sql) (w : world) : world :=
  {| db := db w; stdin := stdin w; stdout := stdout w; issued := issued w ++ [q] |}.

(** [print(s)] *)
Definition print (s : string) : M unit := fun w => Ok tt (emit (Out s) w).

(** [input(prompt)] *)
Definition input (prompt : string) : M string :=
  fun w =>
    let w' := emit (Prompt prompt) w in
    match stdin w with
    | [] => Raise EOFError w'
    | l :: rest =>
        Ok l {| db := db w'; stdin := rest; stdout := stdout w'; issued := issued w' |}
    end.

(** [cur.execute(...)] followed by [cur.fetchall()] for a [SELECT] *)
Definition query {A} (q : sql) (f : Store -> option A) : M A :=
  fun w =>
    let w' := sent q w in
    match f (db w) with
    | Some a => Ok a w'
    | None => Raise DataError w'
    end.

(** [cur.execute(...)] for an [INSERT], [UPDATE] or [DELETE] *)
Definition execute (q : sql) (f : Store -> write) : M unit :=
  fun w =>
    let w' := sent q w in
    match f (db w) with
    | Written st => Ok tt {| db := st; stdin := stdin w';
                             stdout := stdout w'; issued := issued w' |}
    | Invalid => Raise DataError w'
    | Violation => Raise IntegrityError w'
    end.

(** [conn.commit()] *)
Definition commit : M unit := fun w => Ok tt (sent COMMIT w).

Fixpoint print_each (l : list string) : M unit :=
  match l with
  | [] => ret tt
  | s :: r => print s ;; print_each r
  end.

Definition mem (s : string) (l : list string) : bool := existsb (String.eqb s) l.

(** [ListTracker.get_all_wishlists] *)
Definition get_all_wishlists : M (list string) :=
  query SELECT_wishlist_names select_wishlist_names.

(** [ListTracker.createList] *)
Definition createList (wishlist_name : string) : M unit :=
  if lower (strip wishlist_name) =? "exit" then print "Operation canceled."
  else
    rows <- query (SELECT_wishlist wishlist_name) (select_wishlist wishlist_name) ;;
    match rows with
    | _ :: _ => print ("Wishlist '" ++ wishlist_name ++ "' already exists.")
    | [] =>
        execute (INSERT_wishlist wishlist_name) (insert_wishlist wishlist_name) ;;
        commit ;;
        print ("Wishlist '" ++ wishlist_name ++ "' added successfully.")
    end.

(** [similar] of [deleteList] *)
Definition similar (wishlist_name : string) (wishlists : list string) : list string :=
  filter (fun wl => str_in (lower wishlist_name) (lower wl)) wishlists.

(** [ListTracker.deleteList] *)
Definition deleteList (wishlist_name : string) : M unit :=
  if lower (strip wishlist_name) =? "exit" then print "Operation canceled."
  else
    wishlists <- query SELECT_wishlist_names select_wishlist_names ;;
    if negb (mem wishlist_name wishlists) then
      match similar wishlist_name wishlists with
      | (_ :: _) as sim =>
          print ("Wishlist '" ++ wishlist_name ++ "' does not exist. Did you mean: "
                 ++ join ", " sim ++ "?")
      | [] => print ("Wishlist '" ++ wishlist_name ++ "' does not exist.")
      end
    else
      execute (DELETE_wishlist wishlist_name) (delete_wishlist wishlist_name) ;;
      commit ;;
      print ("Wishlist '" ++ wishlist_name ++ "' removed successfully.").

(** [fetch_products_by_category]: [if category_id:] is false for [None]
    and for [0]. *)
Definition fetch_products_by_category (category_id : option Z)
  : M (list (Z * string * string)) :=
  match category_id with
  | Some k =>
      if Z.eqb k 0 then query (SELECT_products None) (select_products None)
      else query (SELECT_products (Some k)) (select_products (Some k))
  | None => query (SELECT_products None) (select_products None)
  end.

Definition list_categories : M (list (Z * string)) :=
  query SELECT_categories select_categories.

(** [next((cat[1] for cat in categories if cat[0] == current_category), "Unknown")] *)
Definition category_label (categories : list (Z * string)) (current : option Z) : string :=
  match current with
  | None => "All"
  | Some k =>
      match find (fun cat => Z.eqb (fst cat) k) categories with
      | Some cat => snd cat
      | None => "Unknown"
      end
  end.

(** The menu loop of [get_product_details]. *)
Fixpoint get_product_details_loop (fuel : nat) (categories : list (Z * string))
         (current_category : option Z) : M unit :=
  match fuel with
  | O => fun _ => Fuel
  | S fuel' =>
      products <- fetch_products_by_category current_category ;;
      print (nl ++ "Available Products (Category: "
                ++ category_label categories current_category ++ "):") ;;
      match products with
      | [] => print "No products found."
      | _ =>
          print_each
            (map (fun p => ("ID: " ++ str_of_int (fst (fst p)) ++ ", Name: "
                                 ++ snd (fst p) ++ ", Type: " ++ snd p)%string)
                 products)
      end ;;
      print (nl ++ "Options:") ;;
      print "1. Change Category" ;;
      print "2. Return to Wishlist Menu" ;;
      line <- input "Enter your choice: " ;;
      let choice := strip line in
      if choice =? "1" then
        print (nl ++ "Available Categories:") ;;
        print_each
          (map (fun c => ("ID: " ++ str_of_int (fst c) ++ ", Name: " ++ snd c)%string)
               categories) ;;
        print "Enter 'all' to view all products." ;;
        line <- input "Enter category ID: " ;;
        let category_input := lower (strip line) in
        if category_input =? "all" then
          get_product_details_loop fuel' categories None
        else
          match int category_input with
          | Some k =>
              if negb (existsb (fun cat => Z.eqb (fst cat) k) categories) then
                print "Invalid category. Showing all products." ;;
                get_product_details_loop fuel' categories None
              else get_product_details_loop fuel' categories (Some k)
          | None =>
              print "Invalid input. Showing all products." ;;
              get_product_details_loop fuel' categories None
          end
      else if choice =? "2" then ret tt
      else
        print "Invalid choice. Please try again." ;;
        get_product_details_loop fuel' categories current_category
  end.

(** [ListTracker.get_product_details]: every turn of its loop reads a
    line, so the lines left on the input bound the number of turns. *)
Definition get_product_details : M unit :=
  categories <- list_categories ;;
  fun w => get_product_details_loop (S (List.length (stdin w))) categories None w.

(** [fetch_items] of [viewList] *)
Definition fetch_items (wishlist_name : string) : M (list (Z * string * Z * bool)) :=
  query (SELECT_items wishlist_name) (select_items wishlist_name).

Definition show_item (item : Z * string * Z * bool) : string :=
  let '(id, name, qty, own) := item in
  "ID: " ++ str_of_int id ++ ", Name: " ++ name ++ ", Quantity: " ++ str_of_int qty
  ++ ", Status: " ++ (if own then "Owned" else "Not Owned").

(** The text of a product ID inside a message. *)
Definition show_param (p : param) : string :=
  match p with
  | PStr s => s
  | PInt z => str_of_int z
  end.

(** Lines 291-318 and, word for word, 352-379: the duplicate check, the
    quantity prompt and the insert, for the product ID chosen above. *)
Definition add_checked (wishlist_name : string) (product_id : param) : M unit :=
  rows <- query (SELECT_wish_item wishlist_name product_id)
                (select_wish_item wishlist_name product_id) ;;
  match rows with
  | _ :: _ => print "You already have this product in your wishlist."
  | [] =>
      line <- input "Enter the quantity (or type 'exit' to cancel): " ;;
      let quantity := strip line in
      if lower quantity =? "exit" then print "Operation canceled."
      else
        match int quantity with
        | None => print "Invalid quantity. Please enter a number."
        | Some q =>
            execute (INSERT_wish_item wishlist_name product_id q)
                    (insert_wish_item wishlist_name product_id q) ;;
            commit ;;
            print "Item added successfully."
        end
  end.

(** Choice 2, Add Item by ID. *)
Definition add_item_by_id (wishlist_name : string) : M unit :=
  line <- input "Enter the product ID to add (or type 'exit' to cancel): " ;;
  let product_id := strip line in
  if lower product_id =? "exit" then print "Operation canceled."
  else add_checked wishlist_name (PStr product_id).

(** Choice 3, Add Item by Name. *)
Definition add_item_by_name (wishlist_name : string) : M unit :=
  line <- input "Enter the product name to add (or type 'exit' to cancel): " ;;
  let product_name := strip line in
  if lower product_name =? "exit" then print "Operation canceled."
  else
    matches <- query (SELECT_products_ilike ("%" ++ product_name ++ "%"))
                     (select_products_ilike ("%" ++ product_name ++ "%")) ;;
    match matches with
    | [] => print "No matching products found."
    | [m] =>
        print ("Matched Product: " ++ snd m ++ " (ID: " ++ str_of_int (fst m) ++ ")") ;;
        add_checked wishlist_name (PInt (fst m))
    | _ =>
        print "Multiple matches found:" ;;
        print_each
          (map (fun m => ("- ID: " ++ str_of_int (fst m) ++ ", Name: " ++ snd m)%string)
               matches) ;;
        line <- input "Enter the product ID of the desired match: " ;;
        add_checked wishlist_name (PStr (strip line))
    end.

(** Choice 4, Remove Item. *)
Definition remove_item (wishlist_name : string) : M unit :=
  line <- input "Enter the product ID to remove (or type 'exit' to cancel): " ;;
  let product_id := strip line in
  if lower product_id =? "exit" then print "Operation canceled."
  else
    rows <- query (SELECT_wish_item wishlist_name (PStr product_id))
                  (select_wish_item wishlist_name (PStr product_id)) ;;
    match rows with
    | [] =>
        print ("Product ID " ++ product_id ++ " does not exist in the wishlist '"
               ++ wishlist_name ++ "'.")
    | _ :: _ =>
        execute (DELETE_wish_item wishlist_name (PStr product_id))
                (delete_wish_item wishlist_name (PStr product_id)) ;;
        commit ;;
        print "Item removed successfully."
    end.

(** Choice 5, Modify Quantity. *)
Definition modify_quantity (wishlist_name : string) : M unit :=
  line <- input "Enter the product ID to modify (or type 'exit' to cancel): " ;;
  let product_id := strip line in
  if lower product_id =? "exit" then print "Operation canceled."
  else
    rows <- query (SELECT_wish_item wishlist_name (PStr product_id))
                  (select_wish_item wishlist_name (PStr product_id)) ;;
    match rows with
    | [] =>
        print ("Product ID " ++ product_id ++ " does not exist in the wishlist '"
               ++ wishlist_name ++ "'.")
    | _ :: _ =>
        line <- input "Enter the new quantity (or type 'exit' to cancel): " ;;
        let quantity := strip line in
        if lower quantity =? "exit" then print "Operation canceled."
        else
          match int quantity with
          | None => print "Invalid quantity. Please enter a number."
          | Some q =>
              execute (UPDATE_number q wishlist_name (PStr product_id))
                      (update_number q wishlist_name (PStr product_id)) ;;
              commit ;;
              print "Quantity updated successfully."
          end
    end.

(** Choice 6, Modify Ownership Status. *)
Definition modify_ownership (wishlist_name : string) : M unit :=
  line <- input
    "Enter the product ID to modify ownership status (or type 'exit' to cancel): " ;;
  let product_id := strip line in
  if lower product_id =? "exit" then print "Operation canceled."
  else
    line <- input "Do you own this item? (yes/no or type 'exit' to cancel): " ;;
    let owned := lower (strip line) in
    if owned =? "exit" then print "Operation canceled."
    else
      let owned := owned =? "yes" in
      execute (UPDATE_owned owned wishlist_name (PStr product_id))
              (update_owned owned wishlist_name (PStr product_id)) ;;
      commit ;;
      print "Ownership status updated successfully.".

Definition viewList_options : list string :=
  [ nl ++ "Options:"; "1. View Products"; "2. Add Item by ID"; "3. Add Item by Name";
    "4. Remove Item"; "5. Modify Quantity"; "6. Modify Ownership Status";
    "7. Back to Main Menu" ]%string.

(** The [while True] of [viewList]. *)
Fixpoint viewList_loop (fuel : nat) (wishlist_name : string) : M unit :=
  match fuel with
  | O => fun _ => Fuel
  | S fuel' =>
      items <- fetch_items wishlist_name ;;
      match items with
      | [] => print ("The wishlist '" ++ wishlist_name ++ "' is empty.")
      | _ =>
          print (nl ++ "Items in Wishlist '" ++ wishlist_name ++ "':") ;;
          print_each (map show_item items)
      end ;;
      print_each viewList_options ;;
      choice <- input "Enter your choice: " ;;
      if choice =? "1" then
        get_product_details ;; viewList_loop fuel' wishlist_name
      else if choice =? "2" then
        add_item_by_id wishlist_name ;; viewList_loop fuel' wishlist_name
      else if choice =? "3" then
        add_item_by_name wishlist_name ;; viewList_loop fuel' wishlist_name
      else if choice =? "4" then
        remove_item wishlist_name ;; viewList_loop fuel' wishlist_name
      else if choice =? "5" then
        modify_quantity wishlist_name ;; viewList_loop fuel' wishlist_name
      else if choice =? "6" then
        modify_ownership wishlist_name ;; viewList_loop fuel' wishlist_name
      else if choice =? "7" then ret tt
      else
        print "Invalid choice. Please try again." ;;
        viewList_loop fuel' wishlist_name
  end.

(** [ListTracker.viewList]; the lines left on the input bound the turns of
    its loop, as every turn reads one. *)
Definition viewList (wishlist_name : string) : M unit :=
  if lower (strip wishlist_name) =? "exit" then print "Operation canceled."
  else
    wishlists <- query SELECT_wishlist_names select_wishlist_names ;;
    if negb (mem wishlist_name wishlists) then
      print ("Wishlist '" ++ wishlist_name ++ "' does not exist.")
    else
      fun w => viewList_loop (S (List.length (stdin w))) wishlist_name w.

Definition main_menu_options : list string :=
  [ nl ++ "=== Bike Wishlist System ==="; "1. View All Wishlists"; "2. Add Wishlist";
    "3. Remove Wishlist"; "4. View Wishlist Items"; "5. Exit" ]%string.

Definition show_wishlists (wishlists : list string) : M unit :=
  print (nl ++ "Available Wishlists:") ;;
  print_each (map (fun wl => ("- " ++ wl)%string) wishlists).

(** The [while True] of [main_menu]. *)
Fixpoint main_menu_loop (fuel : nat) : M unit :=
  match fuel with
  | O => fun _ => Fuel
  | S fuel' =>
      print_each main_menu_options ;;
      choice <- input "Enter your choice: " ;;
      if choice =? "1" then
        wishlists <- get_all_wishlists ;;
        match wishlists with
        | _ :: _ => show_wishlists wishlists
        | [] => print (nl ++ "No wishlists found.")
        end ;;
        main_menu_loop fuel'
      else if choice =? "2" then
        line <- input "Enter a unique wishlist name (or type 'exit' to cancel): " ;;
        let wishlist_name := strip line in
        if lower wishlist_name =? "exit" then
          print "Operation canceled." ;; main_menu_loop fuel'
        else createList wishlist_name ;; main_menu_loop fuel'
      else if choice =? "3" then
        wishlists <- get_all_wishlists ;;
        match wishlists with
        | [] => print (nl ++ "No wishlists available to remove.") ;; main_menu_loop fuel'
        | _ :: _ =>
            show_wishlists wishlists ;;
            line <- input "Enter the wishlist name to remove (or type 'exit' to cancel): " ;;
            let wishlist_name := strip line in
            if lower wishlist_name =? "exit" then
              print "Operation canceled." ;; main_menu_loop fuel'
            else deleteList wishlist_name ;; main_menu_loop fuel'
        end
      else if choice =? "4" then
        line <- input "Enter the wishlist name to view (or type 'exit' to cancel): " ;;
        let wishlist_name := strip line in
        if lower wishlist_name =? "exit" then
          print "Operation canceled." ;; main_menu_loop fuel'
        else viewList wishlist_name ;; main_menu_loop fuel'
      else if (choice =? "5") || (choice =? "exit") then print "Goodbye!"
      else
        print "Invalid choice. Please try again." ;;
        main_menu_loop fuel'
  end.

(** [main_menu], its loop bounded in the same way. *)
Definition main_menu : M unit :=
  fun w => main_menu_loop (S (List.length (stdin w))) w.

End App.

(** ** The start of the program: password, connection, hand-over *)

Module Boot.

Import PyStr Pg App.

(** What happens before the menu: a printed line, the prompt of
    [getpass], the wait of [getch], a call of [psycopg.connect]. *)
Inductive step :=
| Say (s : string)
| Ask (prompt : string)
| Key
| Connect (conninfo : string).

(** The lines still to be typed and what has happened so far. *)
Record console := {
  lines : list string;
  shown : list step
}.

(** [SystemExit] is raised by [exit()], [EOFError] by [getpass] at the end
    of the input; [ConnectError] is whatever [psycopg.connect] raises that
    is not an [OperationalError], which [get_connection] does not catch. *)
Inductive halt := SystemExit | NoInput | ConnectError (details : string).

(** The three ways a call of [psycopg.connect] ends. *)
Inductive reply :=
| Connection (st : Store)
| OperationalError (details : string)
| OtherError (details : string).

(** The answer to each call, by the attempts left when it is made and the
    conninfo it is given. *)
Definition server : Type := nat -> string -> reply.

Inductive outcome (A : Type) :=
| Done (a : A) (c : console)
| Halt (e : halt) (c : console).
Arguments Done {A} a c.
Arguments Halt {A} e c.

Definition B (A : Type) : Type := console -> outcome A.

Definition unit_ {A} (a : A) : B A := fun c => Done a c.

Definition then_ {A A'} (m : B A) (k : A -> B A') : B A' :=
  fun c => match m c with
           | Done a c' => k a c'
           | Halt e c' => Halt e c'
           end.

Declare Scope boot_scope.
Delimit Scope boot_scope with boot.
Notation "x <- m ;; k" := (then_ m (fun x => k))
  (at level 100, m at next level, right associativity) : boot_scope.
Notation "m ;; k" := (then_ m (fun _ => k))
  (at level 100, right associativity) : boot_scope.
Local Open Scope boot_scope.

Definition log (e : step) (c : console) : console :=
  {| lines := lines c; shown := shown c ++ [e] |}.

(** [print(s)] *)
Definition say (s : string) : B unit := fun c => Done tt (log (Say s) c).

(** [getpass.getpass(prompt)] *)
Definition getpass (prompt : string) : B string :=
  fun c =>
    let c' := log (Ask prompt) c in
    match lines c with
    | [] => Halt NoInput c'
    | l :: rest => Done l {| lines := rest; shown := shown c' |}
    end.

(** [getch()] *)
Definition getch : B unit := fun c => Done tt (log Key c).

(** [exit()] *)
Definition exit {A} : B A := fun c => Halt SystemExit c.

(** The [while attempts > 0] of [get_password] and what follows it. *)
Fixpoint get_password_loop (attempts : nat) : B string :=
  match attempts with
  | O =>
      say "Maximum attempts exceeded. Press any key to exit program..." ;;
      getch ;;
      exit
  | S attempts' =>
      password <- getpass "Enter your database password: " ;;
      if password =? "" then
        say ("Invalid input. You have " ++ str_of_int (Z.of_nat attempts')
             ++ " attempts remaining.") ;;
        get_password_loop attempts'
      else unit_ password
  end.

(** [get_password] *)
Definition get_password : B string := get_password_loop 3.

Definition conninfo (password : string) : string :=
  "dbname=bikewish user=postgres password=" ++ password
  ++ " host=localhost port=5432".

(** [get_connection] *)
Definition get_connection (connect : string -> reply) (password : string)
  : B (option Store) :=
  fun c =>
    let c' := log (Connect (conninfo password)) c in
    match connect (conninfo password) with
    | Connection st => Done (Some st) c'
    | OperationalError e =>
        (say "Error: Unable to connect to the database." ;;
         say ("Details: " ++ e) ;;
         unit_ None) c'
    | OtherError e => Halt (ConnectError e) c'
    end.

(** The [while attempts > 0] of the main block; [conn] is what it leaves. *)
Fixpoint connect_loop (srv : server) (attempts : nat) : B (option Store) :=
  match attempts with
  | O => unit_ None
  | S attempts' =>
      password <- get_password ;;
      conn <- get_connection (srv attempts) password ;;
      match conn with
      | Some st => unit_ (Some st)
      | None =>
          say ("Connection failed. You have " ++ str_of_int (Z.of_nat attempts')
               ++ " attempts remaining.") ;;
          connect_loop srv attempts'
      end
  end.

(** The main block up to the call of [main_menu]. *)
Definition startup (srv : server) : B Store :=
  conn <- connect_loop srv 3 ;;
  match conn with
  | None =>
      say "Maximum attempts exceeded. Press any key to exit program..." ;;
      getch ;;
      exit
  | Some st => unit_ st
  end.

(** How the program ends: before the menu, or with the run of the menu on
    the connection, which reads the lines the start has left. *)
Inductive ending :=
| Stopped (e : halt) (c : console)
| Session (c : console) (st : Store) (r : result unit).

(** [if __name__ == "__main__":] *)
Definition main (srv : server) (c : console) : ending :=
  match startup srv c with
  | Halt e c' => Stopped e c'
  | Done st c' =>
      Session c' st
        (main_menu {| db := st; stdin := lines c'; stdout := []; issued := [] |})
  end.

End Boot.

(** ** Properties of stores and of runs *)

Module Spec.

Import PyStr Pg App.

(** The world a run ends in, whether it returns or raises; a run that
    is cut short by its fuel satisfies nothing. *)
Definition after {A} (r : result A) (Q : world -> Prop) : Prop :=
  match r with
  | Ok _ w' => Q w'
  | Raise _ w' => Q w'
  | Fuel => False
  end.

(** [m] started with at most [n] lines of input and a store in [P] ends,
    in a store in [Q], without having put lines back on the input. *)
Definition safe (P Q : Store -> Prop) (n : nat) {A} (m : M A) : Prop :=
  forall w, (List.length (stdin w) <= n)%nat -> P (db w) ->
            after (m w) (fun w' => Q (db w') /\
                                   (List.length (stdin w') <= List.length (stdin w))%nat).

Definition key (r : WishRow) : string * Z := (wl_name r, wl_product_id r).

(** At most one row per (wishlist, product). *)
Definition unique_items (st : Store) : Prop := NoDup (map key (Wish_List st)).



(** No wishlist is named by the cancel keyword. *)
Definition no_reserved_names (st : Store) : Prop :=
  Forall (fun n => (lower (strip n) =? "exit") = false) (List_Tracker st).

(** Every row names a wishlist of the registry. *)
Definition wishlists_exist (st : Store) : Prop :=
  Forall (fun r => In (wl_name r) (List_Tracker st)) (Wish_List st).

(** Every row names a product of the catalog. *)
Definition products_exist (st : Store) : Prop :=
  Forall (fun r => exists p, In p (Products st) /\ product_id p = wl_product_id r)
         (Wish_List st).

(** What Modify-Ownership with the flag [b] for the product [k] of [wl]
    makes of a row [r]: the same row, its flag being [b] when the row is
    of that wishlist and product. *)
Definition flag_written (wl : string) (k : Z) (b : bool) (r r' : WishRow) : Prop :=
  wl_name r' = wl_name r /\ wl_product_id r' = wl_product_id r /\
  number r' = number r /\
  owned r' = if String.eqb (wl_name r) wl && Z.eqb (wl_product_id r) k
             then b else owned r.

Definition new_row (wl : string) (k q : Z) : WishRow :=
  {| wl_name := wl; wl_product_id := k; number := q; owned := false |}.

(** [a] occurs in [b] as a run of consecutive characters. *)
Definition substring_of (a b : string) : Prop :=
  exists pre post, b = (pre ++ a ++ post)%string.

(** The same, letter case apart. *)
Definition ci_substring_of (a b : string) : Prop :=
  substring_of (lower a) (lower b).

(** The characters [LIKE] gives a meaning to. *)
Definition is_wild (c : ascii) : bool :=
  Ascii.eqb c "%" || Ascii.eqb c "_" || Ascii.eqb c "\".

Fixpoint no_wildcard (s : string) : bool :=
  match s with
  | EmptyString => true
  | String c r => negb (is_wild c) && no_wildcard r
  end.

Fixpoint all_chars (f : ascii -> bool) (s : string) : bool :=
  match s with
  | EmptyString => true
  | String c r => f c && all_chars f r
  end.

(** The characters of a decimal numeral. *)
Definition numeral_char (c : ascii) : bool := isdigit c || Ascii.eqb c "-".

(** The value of a run of digits read after [acc]. *)
Fixpoint uint_value (d : Decimal.uint) (acc : Z) : Z :=
  match d with
  | Decimal.Nil => acc
  | Decimal.D0 d => uint_value d (10 * acc + 0)
  | Decimal.D1 d => uint_value d (10 * acc + 1)
  | Decimal.D2 d => uint_value d (10 * acc + 2)
  | Decimal.D3 d => uint_value d (10 * acc + 3)
  | Decimal.D4 d => uint_value d (10 * acc + 4)
  | Decimal.D5 d => uint_value d (10 * acc + 5)
  | Decimal.D6 d => uint_value d (10 * acc + 6)
  | Decimal.D7 d => uint_value d (10 * acc + 7)
  | Decimal.D8 d => uint_value d (10 * acc + 8)
  | Decimal.D9 d => uint_value d (10 * acc + 9)
  end%Z.

(** The key a statement writes at in [Wish_List], if it writes there. *)
Definition item_write (q : sql) : option (string * param) :=
  match q with
  | INSERT_wish_item wl p _ => Some (wl, p)
  | DELETE_wish_item wl p => Some (wl, p)
  | UPDATE_number _ wl p => Some (wl, p)
  | UPDATE_owned _ wl p => Some (wl, p)
  | _ => None
  end.

(** A run of statements in which every write of [Wish_List] comes right
    after the look-up of the row it writes at. *)
Inductive checked : list sql -> Prop :=
| checked_nil : checked []
| checked_other q l : item_write q = None -> checked l -> checked (q :: l)
| checked_write wl p q l :
    item_write q = Some (wl, p) -> checked l ->
    checked (SELECT_wish_item wl p :: q :: l).

(** What a run leaves behind for the next one: how it ended, the store
    and the input not yet read. *)
Definition leaves {A} (r : result A) : option (option exn * Store * list string) :=
  match r with
  | Ok _ w => Some (None, db w, stdin w)
  | Raise e w => Some (Some e, db w, stdin w)
  | Fuel => None
  end.

(** Every product ID of the catalog is an [integer] of the store. *)
Definition catalog_ids_int (st : Store) : Prop :=
  Forall (fun p => int4 (product_id p) = true) (Products st).

(** The products [ILIKE '%name%'] selects, in the order of the catalog. *)
Definition ilike_matches (name : string) (st : Store) : list Product :=
  filter (fun p => ilike (product_name p) ("%" ++ name ++ "%")) (Products st).

(** The products whose name contains [name], letter case apart
    ([ci_substring_of], decided by [str_in]), in the order of the
    catalog. *)
Definition name_matches (name : string) (st : Store) : list Product :=
  filter (fun p => str_in (lower name) (lower (product_name p))) (Products st).

(** *** Predicates on whole runs *)

(** The statements that change a table. *)
Definition is_write (q : sql) : bool :=
  match q with
  | INSERT_wishlist _ | DELETE_wishlist _ | INSERT_wish_item _ _ _
  | DELETE_wish_item _ _ | UPDATE_number _ _ _ | UPDATE_owned _ _ _ => true
  | _ => false
  end.

(** A run of statements in which every write is committed by the very
    next call on the connection, and nothing else is. *)
Inductive tidy : list sql -> Prop :=
| tidy_nil : tidy []
| tidy_read q l : is_write q = false -> q <> COMMIT -> tidy l -> tidy (q :: l)
| tidy_write q l : is_write q = true -> tidy l -> tidy (q :: COMMIT :: l).

(** The same, up to a last write that the store has rejected. *)
Definition tidy_but_last (l : list sql) : Prop :=
  tidy l \/ exists l0 q, l = l0 ++ [q] /\ is_write q = true /\ tidy l0.

(** [m], started with at most [n] lines of input, ends: by returning, in a
    world related by [R] to the one it started in and with no more input
    than it found, or by raising, in a world related by [E]. *)
Definition runs (R E : world -> world -> Prop) (n : nat) {A} (m : M A) : Prop :=
  forall w, (List.length (stdin w) <= n)%nat ->
            match m w with
            | Ok _ w' => R w w' /\ (List.length (stdin w') <= List.length (stdin w))%nat
            | Raise _ w' => E w w'
            | Fuel => False
            end.

(** The statements issued between two worlds. *)
Definition issued_between (T : list sql -> Prop) (w w' : world) : Prop :=
  exists l, issued w' = issued w ++ l /\ T l.

(** What the browser of the catalog may ask the store, given the
    categories of the store. *)
Definition browse_query (st : Store) (q : sql) : Prop :=
  q = SELECT_categories \/ q = SELECT_products None \/
  exists k, q = SELECT_products (Some k) /\ k <> 0%Z /\
            In k (map category_id (Categories st)).

(** Between two worlds the store is the same and the statements issued
    are those of the browser of the catalog of [st0]. *)
Definition only_browses (st0 : Store) (w w' : world) : Prop :=
  db w' = db w /\ issued_between (Forall (browse_query st0)) w w'.

(** A category the browser may filter by: none, or one of [categories]. *)
Definition known_category (categories : list (Z * string)) (c : option Z) : Prop :=
  match c with
  | None => True
  | Some k => In k (map fst categories)
  end.

(** The rows of the wishlists other than [name]. *)
Definition other_rows (name : string) (st : Store) : list WishRow :=
  filter (fun r => negb (String.eqb (wl_name r) name)) (Wish_List st).


End Spec.

(** ** Properties of the start of the program *)

Module StartSpec.

Import PyStr Pg App Boot.

(** The prompts for the password among the steps of a start. *)
Definition asks (l : list step) : nat :=
  List.length (filter (fun e => match e with Ask _ => true | _ => false end) l).

(** The conninfos of the connections attempted. *)
Definition connects (l : list step) : list string :=
  flat_map (fun e => match e with Connect s => [s] | _ => [] end) l.

(** A conninfo made from a password that is not empty. *)
Definition from_password (s : string) : Prop :=
  exists p, p <> "" /\ s = conninfo p.

(** What a start adds to the console: [new] after what was shown. *)
Definition added (c c' : console) (new : list step) : Prop :=
  shown c' = shown c ++ new.

(** The console at which a program ends its start. *)
Definition console_of (e : ending) : console :=
  match e with
  | Stopped _ c => c
  | Session c _ _ => c
  end.

(** What a start with [a] connection attempts left adds to the console. *)
Definition bounded (a : nat) (c c' : console) : Prop :=
  exists new, added c c' new /\ (asks new <= 3 * a)%nat /\
              (List.length (connects new) <= a)%nat /\
              Forall from_password (connects new).

End StartSpec.

(** ** Concrete stores and sessions *)

Module Examples.

Import Pg App Boot Spec.
Local Open Scope Z_scope.

Definition frames : Category := {| category_id := 1; category_name := "Frames" |}.

Definition road_bike : Product :=
  {| product_id := 5; product_name := "Road Bike"; p_category_id := 1 |}.

Definition mountain_bike : Product :=
  {| product_id := 6; product_name := "Mountain Bike"; p_category_id := 1 |}.

(** A session at its start: nothing printed, nothing issued yet. *)
Definition session (st : Store) (lines : list string) : world :=
  {| db := st; stdin := lines; stdout := []; issued := [] |}.

(** Two wishlists, a catalog of two bikes, no items. *)
Definition shop : Store :=
  {| List_Tracker := ["Road"; "Gravel"]; Categories := [frames];
     Products := [road_bike; mountain_bike]; Wish_List := [] |}.

(** The same with two road bikes wished for in "Road". *)
Definition shop_with_item : Store :=
  set_wish_list shop [new_row "Road" 5 2].

(** A catalog with a product whose name is the cancel keyword. *)
Definition exit_sign : Product :=
  {| product_id := 7; product_name := "Exit"; p_category_id := 1 |}.

Definition sign_shop : Store :=
  {| List_Tracker := ["Road"]; Categories := [frames];
     Products := [road_bike; exit_sign]; Wish_List := [] |}.

(** A catalog whose one category has the ID 0. *)
Definition misc : Category := {| category_id := 0; category_name := "Misc" |}.

Definition shop_with_misc : Store :=
  {| List_Tracker := ["Road"]; Categories := [misc];
     Products := [{| product_id := 8; product_name := "Bell"; p_category_id := 0 |}];
     Wish_List := [] |}.

(** A console at its start. *)
Definition typed (l : list string) : console := {| lines := l; shown := [] |}.

(** A server that knows one password. *)
Definition one_password (secret : string) (st : Store) : server :=
  fun _ s => if String.eqb s (conninfo secret) then Connection st
             else OperationalError "password authentication failed".

End Examples.

(** ** Proof steps shared by the case analyses of the handlers *)

Module Tactics.

Import App Spec.

(** Splits a run on every test it makes, innermost first. *)
Ltac split_run :=
  unfold bind, input, query, execute, commit, print, ret, emit, sent;
  repeat (cbn [db stdin stdout issued];
          match goal with
          | |- context [match ?x with _ => _ end] =>
              lazymatch x with
              | context [match _ with _ => _ end] => fail
              | _ => destruct x eqn:?
              end
          end).

Ltac checked_trace :=
  repeat first [ apply checked_nil
               | eapply checked_write; [reflexivity|]
               | apply checked_other; [reflexivity|] ].

(** Closes [exists l, issued w' = issued w ++ l /\ checked l] at the end
    of one path. *)
Ltac trace_leaf :=
  simpl;
  first [ exists []; split; [symmetry; apply app_nil_r | apply checked_nil]
        | eexists; split; [rewrite <- ?app_assoc; reflexivity | simpl; checked_trace] ].

End Tactics.

(** ** Facts on strings, patterns and decimal numerals *)

Module StrFacts.

Import PyStr Pg Spec.

Lemma startswith_iff s sub :
  startswith s sub = true <-> exists post, s = (sub ++ post)%string.
Proof.
  revert s. induction sub as [|a sub IH]; intros s; simpl.
  - split; [intros _; exists s; reflexivity | reflexivity].
  - destruct s as [|b s]; simpl.
    + split; [discriminate | intros [post H]; discriminate].
    + rewrite andb_true_iff, Ascii.eqb_eq, IH. split.
      * intros [-> [post ->]]. exists post. reflexivity.
      * intros [post H]. injection H as -> ->. split; [reflexivity | eauto].
Qed.

Lemma str_in_iff sub s : str_in sub s = true <-> substring_of sub s.
Proof.
  unfold substring_of. induction s as [|c s IH]; simpl.
  - rewrite startswith_iff. split.
    + intros [post H]. exists EmptyString, post. exact H.
    + intros [pre [post H]]. destruct pre; simpl in H; [eauto | discriminate].
  - rewrite orb_true_iff, IH, (startswith_iff (String c s)). split.
    + intros [[post H]|[pre [post H]]].
      * exists EmptyString, post. exact H.
      * exists (String c pre), post. simpl. congruence.
    + intros [pre [post H]]. destruct pre as [|d pre]; simpl in H.
      * left. eauto.
      * right. injection H as _ H. eauto.
Qed.

Lemma like_percent p t :
  like (String "%" p) t =
  like p t || match t with
              | EmptyString => false
              | String _ t' => like (String "%" p) t'
              end.
Proof. destruct t; reflexivity. Qed.

Lemma like_plain c p t :
  is_wild c = false ->
  like (String c p) t =
  match t with
  | EmptyString => false
  | String d t' => Ascii.eqb c d && like p t'
  end.
Proof.
  unfold is_wild. intros H.
  apply orb_false_iff in H. destruct H as [H H3].
  apply orb_false_iff in H. destruct H as [H1 H2].
  simpl. rewrite H1, H2, H3. destruct t; reflexivity.
Qed.

Lemma like_tail_percent t : like "%" t = true.
Proof.
  induction t as [|c t IH]; [reflexivity|].
  rewrite like_percent, IH. apply orb_true_r.
Qed.

(** A pattern of plain characters followed by [%] matches the texts that
    start with these characters. *)
Lemma like_literal lit t :
  no_wildcard lit = true -> like (lit ++ "%") t = startswith t lit.
Proof.
  revert t. induction lit as [|c lit IH]; intros t H.
  - simpl append. rewrite like_tail_percent. reflexivity.
  - simpl in H. apply andb_true_iff in H. destruct H as [Hc Hl].
    apply negb_true_iff in Hc.
    change (String c lit ++ "%")%string with (String c (lit ++ "%")).
    rewrite (like_plain c _ t Hc). destruct t as [|d t]; simpl; [reflexivity|].
    rewrite IH by assumption. reflexivity.
Qed.

(** Between two [%], plain characters match the texts that contain
    them. *)
Lemma like_contains lit t :
  no_wildcard lit = true -> like ("%" ++ lit ++ "%") t = str_in lit t.
Proof.
  intros H. change ("%" ++ lit ++ "%")%string with (String "%" (lit ++ "%")).
  induction t as [|c t IH]; rewrite like_percent, like_literal by assumption.
  - simpl. rewrite orb_false_r. reflexivity.
  - rewrite IH. reflexivity.
Qed.

Lemma lower_app a b : lower (a ++ b) = (lower a ++ lower b)%string.
Proof. induction a as [|c a IH]; simpl; [reflexivity | rewrite IH; reflexivity]. Qed.

Lemma lower_char_wild c : is_wild (lower_char c) = is_wild c.
Proof.
  destruct c as [[] [] [] [] [] [] [] []]; reflexivity.
Qed.

Lemma no_wildcard_lower s : no_wildcard (lower s) = no_wildcard s.
Proof.
  induction s as [|c s IH]; simpl; [reflexivity|].
  rewrite lower_char_wild, IH. reflexivity.
Qed.

(** [ILIKE '%name%'] is the containment test, letter case apart, as long
    as [name] has none of [%], [_] and the backslash. *)
Lemma ilike_contains name text :
  no_wildcard name = true ->
  ilike text ("%" ++ name ++ "%") = str_in (lower name) (lower text).
Proof.
  intros H. unfold ilike. rewrite !lower_app. simpl (lower "%").
  apply like_contains. rewrite no_wildcard_lower. exact H.
Qed.

(** *** Decimal numerals: [str] of an [int] is read back by the server *)

Lemma strip_by_clean sp s :
  all_chars (fun c => negb (sp c)) s = true -> strip_by sp s = s.
Proof.
  intros H. unfold strip_by.
  assert (Hl : lstrip_by sp s = s).
  { destruct s as [|c r]; [reflexivity|]. simpl in *.
    apply andb_true_iff in H. destruct H as [Hc _].
    apply negb_true_iff in Hc. rewrite Hc. reflexivity. }
  rewrite Hl. clear Hl. induction s as [|c r IH]; [reflexivity|].
  simpl in *. apply andb_true_iff in H. destruct H as [Hc Hr].
  rewrite (IH Hr). apply negb_true_iff in Hc. rewrite Hc.
  destruct r; reflexivity.
Qed.

Lemma all_chars_imp (f g : ascii -> bool) s :
  (forall c, f c = true -> g c = true) -> all_chars f s = true -> all_chars g s = true.
Proof.
  intros Hfg. induction s as [|c r IH]; simpl; [auto|].
  rewrite !andb_true_iff. intros [Hc Hr]. auto.
Qed.

Lemma numeral_char_facts c :
  numeral_char c = true ->
  isspace c = false /\ pg_isspace c = false /\ lower_char c = c /\
  Ascii.eqb c "e" = false.
Proof.
  destruct c as [[] [] [] [] [] [] [] []]; intros H;
    try discriminate H; repeat split; reflexivity.
Qed.

Lemma digit_not_sign c :
  isdigit c = true -> Ascii.eqb c "-" = false /\ Ascii.eqb c "+" = false.
Proof.
  destruct c as [[] [] [] [] [] [] [] []]; intros H;
    try discriminate H; split; reflexivity.
Qed.

Lemma strip_numeral s : all_chars numeral_char s = true -> strip s = s.
Proof.
  intros H. apply strip_by_clean. revert H. apply all_chars_imp.
  intros c Hc. apply numeral_char_facts in Hc. apply negb_true_iff. tauto.
Qed.

Lemma pg_strip_numeral s :
  all_chars numeral_char s = true -> strip_by pg_isspace s = s.
Proof.
  intros H. apply strip_by_clean. revert H. apply all_chars_imp.
  intros c Hc. apply numeral_char_facts in Hc. apply negb_true_iff. tauto.
Qed.

Lemma lower_numeral s : all_chars numeral_char s = true -> lower s = s.
Proof.
  induction s as [|c r IH]; simpl; [reflexivity|].
  rewrite andb_true_iff. intros [Hc Hr].
  apply numeral_char_facts in Hc. destruct Hc as (_ & _ & -> & _).
  rewrite (IH Hr). reflexivity.
Qed.

Lemma numeral_not_exit s :
  all_chars numeral_char s = true -> (lower s =? "exit")%string = false.
Proof.
  intros H. rewrite (lower_numeral s H).
  destruct s as [|c r]; [reflexivity|]. simpl in H.
  apply andb_true_iff in H. destruct H as [Hc _].
  apply numeral_char_facts in Hc. destruct Hc as (_ & _ & _ & He).
  simpl. rewrite He. reflexivity.
Qed.

Lemma digits_chars d : all_chars isdigit (NilEmpty.string_of_uint d) = true.
Proof. induction d; simpl; auto. Qed.

Lemma parse_digits_uint us d acc seen :
  parse_digits us (NilEmpty.string_of_uint d) acc seen =
  match d with
  | Decimal.Nil => if seen then Some acc else None
  | _ => Some (uint_value d acc)
  end.
Proof.
  revert acc seen.
  induction d as [|d IH|d IH|d IH|d IH|d IH|d IH|d IH|d IH|d IH|d IH];
    intros acc seen; [reflexivity|..];
    cbn [NilEmpty.string_of_uint parse_digits uint_value];
    match goal with
    | |- context [isdigit ?c] => change (isdigit c) with true
    end; cbv iota;
    rewrite IH; destruct d; reflexivity.
Qed.

Lemma uint_value_pos d acc :
  uint_value d (Z.pos acc) = Z.pos (Pos.of_uint_acc d acc).
Proof.
  revert acc. induction d; intros acc; cbn [uint_value Pos.of_uint_acc];
    try reflexivity; rewrite <- IHd; f_equal; lia.
Qed.

Lemma uint_value_of_uint d : uint_value d 0 = Z.of_N (Pos.of_uint d).
Proof.
  induction d; cbn [uint_value Pos.of_uint]; try reflexivity; try exact IHd;
    change (10 * 0 + 1)%Z with 1%Z; change (10 * 0 + 2)%Z with 2%Z;
    change (10 * 0 + 3)%Z with 3%Z; change (10 * 0 + 4)%Z with 4%Z;
    change (10 * 0 + 5)%Z with 5%Z; change (10 * 0 + 6)%Z with 6%Z;
    change (10 * 0 + 7)%Z with 7%Z; change (10 * 0 + 8)%Z with 8%Z;
    change (10 * 0 + 9)%Z with 9%Z; apply (uint_value_pos d).
Qed.

Lemma to_uint_not_nil p : Pos.to_uint p <> Decimal.Nil.
Proof.
  intros H. pose proof (DecimalPos.Unsigned.of_to p) as E.
  rewrite H in E. discriminate E.
Qed.

Lemma uint_value_to_uint p : uint_value (Pos.to_uint p) 0 = Z.pos p.
Proof.
  rewrite uint_value_of_uint, DecimalPos.Unsigned.of_to. reflexivity.
Qed.

Lemma str_of_int_chars z : all_chars numeral_char (str_of_int z) = true.
Proof.
  assert (Hd : forall d, all_chars numeral_char (NilZero.string_of_uint d) = true).
  { intros d. unfold NilZero.string_of_uint.
    destruct d; try reflexivity;
      apply all_chars_imp with (f := isdigit);
      try (intros c Hc; unfold numeral_char; rewrite Hc; reflexivity);
      apply (digits_chars (_ d)). }
  unfold str_of_int. destruct z as [|p|p]; simpl.
  - reflexivity.
  - apply Hd.
  - apply Hd.
Qed.

Lemma nilzero_nilempty d :
  d <> Decimal.Nil -> NilZero.string_of_uint d = NilEmpty.string_of_uint d.
Proof. destruct d; [congruence | reflexivity..]. Qed.

Lemma parse_signed_digits us d :
  d <> Decimal.Nil ->
  parse_signed us (NilEmpty.string_of_uint d) = Some (uint_value d 0).
Proof.
  intros Hd.
  assert (H : parse_signed us (NilEmpty.string_of_uint d) =
              parse_digits us (NilEmpty.string_of_uint d) 0 false).
  { pose proof (digits_chars d) as Hc.
    destruct (NilEmpty.string_of_uint d) as [|c r] eqn:E.
    - destruct d; try discriminate E. congruence.
    - simpl in Hc. apply andb_true_iff in Hc. destruct Hc as [Hc _].
      apply digit_not_sign in Hc. destruct Hc as [H1 H2].
      unfold parse_signed. rewrite H1, H2. reflexivity. }
  rewrite H, parse_digits_uint. destruct d; [congruence | reflexivity..].
Qed.

Lemma parse_signed_str_of_int us z : parse_signed us (str_of_int z) = Some z.
Proof.
  unfold str_of_int. destruct z as [|p|p].
  - reflexivity.
  - cbn [Z.to_int NilZero.string_of_int].
    rewrite nilzero_nilempty by apply to_uint_not_nil.
    rewrite parse_signed_digits by apply to_uint_not_nil.
    rewrite uint_value_to_uint. reflexivity.
  - cbn [Z.to_int NilZero.string_of_int].
    rewrite nilzero_nilempty by apply to_uint_not_nil.
    unfold parse_signed. change (Ascii.eqb "-" "-") with true. cbv iota.
    rewrite parse_digits_uint.
    pose proof (to_uint_not_nil p) as Hn.
    destruct (Pos.to_uint p) eqn:E; [congruence|..];
      rewrite <- E, uint_value_to_uint; reflexivity.
Qed.

(** The server reads [str(z)] back as [z]. *)
Lemma int4in_str_of_int z : int4 z = true -> int4in (str_of_int z) = Some z.
Proof.
  intros Hz. unfold int4in.
  rewrite pg_strip_numeral by apply str_of_int_chars.
  rewrite parse_signed_str_of_int, Hz. reflexivity.
Qed.

Lemma strip_str_of_int z : strip (str_of_int z) = str_of_int z.
Proof. apply strip_numeral, str_of_int_chars. Qed.

Lemma str_of_int_not_exit z : (lower (str_of_int z) =? "exit")%string = false.
Proof. apply numeral_not_exit, str_of_int_chars. Qed.

Lemma lower_char_letter c d :
  In d ["e"; "x"; "i"; "t"]%char -> lower_char c = d ->
  isdigit c = false /\ pg_isspace c = false /\
  Ascii.eqb c "-" = false /\ Ascii.eqb c "+" = false.
Proof.
  intros Hd H. simpl in Hd.
  destruct Hd as [<-|[<-|[<-|[<-|[]]]]];
    destruct c as [[] [] [] [] [] [] [] []]; try discriminate H; repeat split.
Qed.

(** The cancel keyword, in any letter case, is no integer for the server. *)
Lemma exit_not_int s : lower s = "exit" -> int4in s = None.
Proof.
  destruct s as [|c1 [|c2 [|c3 [|c4 [|c5 s]]]]]; simpl; try discriminate.
  intros H. injection H as H1 H2 H3 H4.
  apply (lower_char_letter _ "e"%char) in H1; [|simpl; auto].
  apply (lower_char_letter _ "x"%char) in H2; [|simpl; auto].
  apply (lower_char_letter _ "i"%char) in H3; [|simpl; auto].
  apply (lower_char_letter _ "t"%char) in H4; [|simpl; auto].
  destruct H1 as (D1 & S1 & M1 & P1), H2 as (D2 & S2 & _), H3 as (D3 & S3 & _),
           H4 as (D4 & S4 & _).
  unfold int4in, strip_by. simpl. rewrite S1. simpl. rewrite S4. simpl.
  rewrite M1, P1, D1. reflexivity.
Qed.

(** So a line the server reads as an integer does not cancel. *)
Lemma int_not_exit s k : int4in s = Some k -> (lower s =? "exit")%string = false.
Proof.
  intros H. destruct (lower s =? "exit")%string eqn:E; [|reflexivity].
  apply String.eqb_eq in E. rewrite (exit_not_int s E) in H. discriminate H.
Qed.

End StrFacts.

(** ** One step of a run *)

Module Steps.

Import PyStr Pg App Spec.

Section Bind.

Context {A B : Type}.

Lemma bind_input p (k : string -> M B) w l rest :
  stdin w = l :: rest ->
  bind (input p) k w =
  k l {| db := db w; stdin := rest; stdout := stdout w ++ [Prompt p];
         issued := issued w |}.
Proof. intros H. unfold bind, input. rewrite H. reflexivity. Qed.

Lemma bind_input_eof p (k : string -> M B) w :
  stdin w = [] -> bind (input p) k w = Raise EOFError (emit (Prompt p) w).
Proof. intros H. unfold bind, input. rewrite H. reflexivity. Qed.

Lemma bind_print s (k : unit -> M B) w :
  bind (print s) k w = k tt (emit (Out s) w).
Proof. reflexivity. Qed.

Lemma bind_commit (k : unit -> M B) w : bind commit k w = k tt (sent COMMIT w).
Proof. reflexivity. Qed.

Lemma bind_query q (f : Store -> option A) (k : A -> M B) w a :
  f (db w) = Some a -> bind (query q f) k w = k a (sent q w).
Proof. intros H. unfold bind, query. rewrite H. reflexivity. Qed.

Lemma bind_query_error q (f : Store -> option A) (k : A -> M B) w :
  f (db w) = None -> bind (query q f) k w = Raise DataError (sent q w).
Proof. intros H. unfold bind, query. rewrite H. reflexivity. Qed.

Lemma bind_execute q (f : Store -> write) (k : unit -> M B) w st :
  f (db w) = Written st ->
  bind (execute q f) k w =
  k tt {| db := st; stdin := stdin w; stdout := stdout w;
          issued := issued w ++ [q] |}.
Proof. intros H. unfold bind, execute. rewrite H. reflexivity. Qed.

End Bind.

Lemma print_each_run l w :
  print_each l w =
  Ok tt {| db := db w; stdin := stdin w; stdout := stdout w ++ map Out l;
           issued := issued w |}.
Proof.
  revert w. induction l as [|s l IH]; intros w.
  - destruct w. simpl. rewrite app_nil_r. reflexivity.
  - simpl. rewrite bind_print, IH. simpl. rewrite <- app_assoc. reflexivity.
Qed.

Lemma set_wish_list_same st : set_wish_list st (Wish_List st) = st.
Proof. destruct st; reflexivity. Qed.

Lemma map_update_none {X} (c : X -> bool) (f : X -> X) l :
  filter c l = [] -> map (fun x => if c x then f x else x) l = l.
Proof.
  induction l as [|x l IH]; simpl; [reflexivity|].
  destruct (c x); [discriminate|]. intros H. rewrite IH by assumption. reflexivity.
Qed.

Lemma has_wishlist_In name st :
  has_wishlist name st = true <-> In name (List_Tracker st).
Proof.
  unfold has_wishlist. rewrite existsb_exists. split.
  - intros [x [Hin Hx]]. apply String.eqb_eq in Hx. congruence.
  - intros Hin. exists name. split; [assumption | apply String.eqb_refl].
Qed.

Lemma has_product_In k st :
  has_product k st = true <-> In k (map product_id (Products st)).
Proof.
  unfold has_product. rewrite existsb_exists, in_map_iff. split.
  - intros [p [Hin Hp]]. apply Z.eqb_eq in Hp. eauto.
  - intros [p [Hp Hin]]. exists p. split; [assumption | apply Z.eqb_eq; assumption].
Qed.

Lemma has_items_In name st :
  has_items name st = true <-> In name (map wl_name (Wish_List st)).
Proof.
  unfold has_items. rewrite existsb_exists, in_map_iff. split.
  - intros [r [Hin Hr]]. apply String.eqb_eq in Hr. eauto.
  - intros [r [Hr Hin]]. exists r. split; [assumption | apply String.eqb_eq; assumption].
Qed.

Lemma has_items_none name st :
  has_items name st = false <-> ~ In name (map wl_name (Wish_List st)).
Proof.
  rewrite <- has_items_In. destruct (has_items name st); split; intros H;
    try reflexivity; try discriminate; try (intros H'; discriminate).
  exfalso. apply H. reflexivity.
Qed.

End Steps.

(** ** Runs preserve invariants of the store *)

Module Runs.

Import PyStr Pg App Spec Steps.
Local Open Scope prog_scope.

Lemma after_imp {A} (r : result A) (Q Q' : world -> Prop) :
  after r Q -> (forall w, Q w -> Q' w) -> after r Q'.
Proof. destruct r; simpl; auto. Qed.

Section Safe.

Context {A B : Type}.
Variables P Q R : Store -> Prop.
Variable n : nat.

Lemma safe_le (m : M A) n' : (n' <= n)%nat -> safe P Q n m -> safe P Q n' m.
Proof. intros Hn Hm w Hw Hp. apply Hm; [lia | assumption]. Qed.

Lemma safe_ret (a : A) : (forall st, P st -> Q st) -> safe P Q n (ret a).
Proof. intros H w _ Hp. simpl. auto. Qed.

Lemma safe_print s : (forall st, P st -> Q st) -> safe P Q n (print s).
Proof. intros H w _ Hp. simpl. auto. Qed.

(** Sequencing: the store is in [Q] between the two parts, and [Q]
    is enough should the first part raise. *)
Lemma safe_bind (m : M A) (k : A -> M B) :
  safe P Q n m -> (forall st, Q st -> R st) -> (forall a, safe Q R n (k a)) ->
  safe P R n (bind m k).
Proof.
  intros Hm Hqr Hk w Hw Hp. unfold bind.
  specialize (Hm w Hw Hp). destruct (m w) as [a w1|e w1|]; simpl in *; auto.
  - destruct Hm as [Hq1 Hl1].
    assert (Hw1 : (List.length (stdin w1) <= n)%nat) by lia.
    specialize (Hk a w1 Hw1 Hq1).
    eapply after_imp; [exact Hk|]. simpl. intros w2 [Hr2 Hl2]. split; [assumption | lia].
  - destruct Hm as [Hq1 Hl1]. auto.
Qed.

Lemma safe_print_bind s (k : unit -> M B) :
  safe P R n (k tt) -> safe P R n (bind (print s) k).
Proof.
  intros Hk w Hw Hp. unfold bind, print.
  eapply after_imp; [apply Hk; simpl; assumption|]. simpl. auto.
Qed.

Lemma safe_commit_bind (k : unit -> M B) :
  safe P R n (k tt) -> safe P R n (bind commit k).
Proof.
  intros Hk w Hw Hp. unfold bind, commit.
  eapply after_imp; [apply Hk; simpl; assumption|]. simpl. auto.
Qed.

(** After a [SELECT] the store is the one the rows were read from. *)
Lemma safe_query_bind q (f : Store -> option A) (k : A -> M B) :
  (forall st, P st -> R st) ->
  (forall a, safe (fun st => P st /\ f st = Some a) R n (k a)) ->
  safe P R n (bind (query q f) k).
Proof.
  intros Hpr Hk w Hw Hp. unfold bind, query.
  destruct (f (db w)) as [a|] eqn:E; simpl; [|auto].
  eapply after_imp; [apply (Hk a); simpl; auto|]. simpl. auto.
Qed.

(** Reading a line leaves one line less for what follows. *)
Lemma safe_input_bind p (k : string -> M B) :
  (forall st, P st -> R st) ->
  (forall l, match n with O => True | S n' => safe P R n' (k l) end) ->
  safe P R n (bind (input p) k).
Proof.
  intros Hpr Hk w Hw Hp. unfold bind, input.
  destruct (stdin w) as [|l rest] eqn:E; simpl.
  { rewrite E. auto. }
  simpl in Hw. destruct n as [|n']; [lia|].
  specialize (Hk l). simpl in Hk.
  eapply after_imp.
  - apply Hk; simpl in *; [lia | assumption].
  - simpl. intros w2 [Hr2 Hl2]. split; [assumption | lia].
Qed.

(** A write moves the store from [P] to [Q]. *)
Lemma safe_execute_bind q (f : Store -> write) (k : unit -> M B) :
  (forall st, P st -> R st) ->
  (forall st st', P st -> f st = Written st' -> Q st') ->
  safe Q R n (k tt) ->
  safe P R n (bind (execute q f) k).
Proof.
  intros Hpr Hf Hk w Hw Hp. unfold bind, execute.
  destruct (f (db w)) as [st'| |] eqn:E; simpl; [|auto|auto].
  eapply after_imp; [apply Hk; simpl; eauto|]. simpl. auto.
Qed.

End Safe.

Section SafeSame.

Context {B : Type}.
Variables P R : Store -> Prop.
Variable n : nat.

Lemma safe_print_each l : (forall st, P st -> R st) -> safe P R n (print_each l).
Proof.
  intros H. induction l as [|s l IH]; simpl.
  - apply safe_ret. assumption.
  - apply safe_print_bind. exact IH.
Qed.

Lemma safe_print_each_bind l (k : unit -> M B) :
  safe P R n (k tt) -> safe P R n (bind (print_each l) k).
Proof.
  intros Hk w Hw Hp. revert w Hw Hp.
  induction l as [|s l IH]; intros w Hw Hp.
  - exact (Hk w Hw Hp).
  - simpl. unfold bind at 1 2. unfold print.
    eapply after_imp; [apply (IH (emit (Out s) w)); simpl; assumption|].
    simpl. auto.
Qed.

Lemma safe_input_any p (k : string -> M B) :
  (forall st, P st -> R st) ->
  (forall l, safe P R n (k l)) -> safe P R n (bind (input p) k).
Proof.
  intros Hpr Hk. apply safe_input_bind; [assumption|].
  intros l. destruct n as [|n'] eqn:E; [exact I|].
  apply safe_le with (n := S n'); [lia | apply Hk].
Qed.

End SafeSame.

Lemma safe_pre {A} (P P' Q : Store -> Prop) n (m : M A) :
  (forall st, P' st -> P st) -> safe P Q n m -> safe P' Q n m.
Proof. intros H Hm w Hw Hp. apply Hm; auto. Qed.

Lemma safe_query_any {A B} (P R : Store -> Prop) n q (f : Store -> option A)
      (k : A -> M B) :
  (forall st, P st -> R st) -> (forall a, safe P R n (k a)) ->
  safe P R n (bind (query q f) k).
Proof.
  intros Hpr Hk. apply safe_query_bind; [assumption|].
  intros a. eapply safe_pre; [|apply Hk]. simpl. tauto.
Qed.

Lemma to_int4_as_int p k : to_int4 p = Some k -> as_int p = Some k.
Proof.
  destruct p as [s|z]; simpl; [auto|].
  destruct (int4 z); congruence.
Qed.

Lemma int4in_range s k : int4in s = Some k -> int4 k = true.
Proof.
  unfold int4in. destruct (parse_signed false _) as [z|]; [|discriminate].
  destruct (int4 z) eqn:E; congruence.
Qed.

Lemma to_int4_range p k : to_int4 p = Some k -> int4 k = true.
Proof.
  destruct p as [s|z]; simpl.
  - apply int4in_range.
  - destruct (int4 z) eqn:E; congruence.
Qed.

(** The browser of the catalog only reads. *)
Section Browser.

Variable J : Store -> Prop.

Lemma fetch_products_by_category_safe {B} c n (k : _ -> M B) :
  (forall a, safe J J n (k a)) -> safe J J n (bind (fetch_products_by_category c) k).
Proof.
  intros Hk. unfold fetch_products_by_category.
  destruct c as [z|]; [destruct (Z.eqb z 0)|]; apply safe_query_any; auto.
Qed.

Lemma get_product_details_loop_safe n :
  forall categories current,
    safe J J n (get_product_details_loop (S n) categories current).
Proof.
  induction n as [|n IH]; intros categories current;
    cbn [get_product_details_loop].
  - apply fetch_products_by_category_safe. intros products.
    apply safe_print_bind.
    apply safe_bind with (Q := J); [|auto|].
    { destruct products; [apply safe_print | apply safe_print_each]; auto. }
    intros _. do 3 apply safe_print_bind.
    apply safe_input_bind; auto.
  - apply fetch_products_by_category_safe. intros products.
    apply safe_print_bind.
    apply safe_bind with (Q := J); [|auto|].
    { destruct products; [apply safe_print | apply safe_print_each]; auto. }
    intros _. do 3 apply safe_print_bind.
    apply safe_input_bind; [auto|]. intros line.
    destruct (strip line =? "1").
    + apply safe_print_bind. apply safe_print_each_bind. apply safe_print_bind.
      apply safe_input_bind; [auto|]. intros line2.
      assert (Hrec : forall c, match n with
                               | O => True
                               | S n' => safe J J n' (get_product_details_loop (S n) categories c)
                               end).
      { intros c. destruct n as [|n']; [exact I|].
        apply safe_le with (n := S n'); [lia | apply IH]. }
      destruct (lower (strip line2) =? "all"); [apply Hrec|].
      destruct (int (lower (strip line2))) as [z|].
      * destruct (negb (existsb _ categories)); [|apply Hrec].
        specialize (Hrec None). destruct n as [|n']; [exact I|].
        apply safe_print_bind. exact Hrec.
      * specialize (Hrec None). destruct n as [|n']; [exact I|].
        apply safe_print_bind. exact Hrec.
    + destruct (strip line =? "2"); [apply safe_ret; auto|].
      apply safe_print_bind. apply IH.
Qed.

Lemma get_product_details_safe n : safe J J n get_product_details.
Proof.
  unfold get_product_details, list_categories.
  apply safe_query_any; [auto|]. intros categories w Hw Hj.
  apply (get_product_details_loop_safe (List.length (stdin w))); auto.
Qed.

End Browser.

(** The item editor of one wishlist: an invariant that survives its four
    guarded writes survives every session of [viewList]. *)
Section ItemEditor.

Variable J : Store -> Prop.
Variable wl : string.

Hypothesis J_insert : forall st k q,
  J st -> filter (item_at wl k) (Wish_List st) = [] ->
  int4 k = true -> int4 q = true ->
  In wl (List_Tracker st) -> In k (map product_id (Products st)) ->
  J (set_wish_list st (Wish_List st ++ [new_row wl k q])).

Hypothesis J_delete : forall st k,
  J st ->
  J (set_wish_list st (filter (fun r => negb (item_at wl k r)) (Wish_List st))).

Hypothesis J_number : forall st k q,
  J st -> int4 q = true ->
  J (set_wish_list st
       (map (fun r => if item_at wl k r then with_number q r else r) (Wish_List st))).

Hypothesis J_owned : forall st k b,
  J st ->
  J (set_wish_list st
       (map (fun r => if item_at wl k r then with_owned b r else r) (Wish_List st))).

Lemma insert_guarded st st' p q :
  J st -> select_wish_item wl p st = Some [] ->
  insert_wish_item wl p q st = Written st' -> J st'.
Proof.
  unfold select_wish_item, insert_wish_item. intros Hj Hs Hi.
  destruct (to_int4 p) as [k|] eqn:Ek; [|discriminate].
  rewrite (to_int4_as_int _ _ Ek) in Hs.
  destruct (int4 q) eqn:Eq; [|discriminate].
  destruct (has_wishlist wl st && has_product k st) eqn:Ef; [|discriminate].
  apply andb_true_iff in Ef. destruct Ef as [Hw Hp].
  injection Hi as <-. injection Hs as Hs.
  apply J_insert; auto.
  - destruct (filter (item_at wl k) (Wish_List st)); [reflexivity | discriminate].
  - eapply to_int4_range; eassumption.
  - apply has_wishlist_In. assumption.
  - apply has_product_In. assumption.
Qed.

Lemma add_checked_safe p n : safe J J n (add_checked wl p).
Proof.
  unfold add_checked. apply safe_query_bind; [auto|]. intros rows.
  destruct rows as [|r rows]; [|apply safe_print; tauto].
  apply safe_input_any; [tauto|]. intros line.
  destruct (lower (strip line) =? "exit"); [apply safe_print; tauto|].
  destruct (int (strip line)) as [q|]; [|apply safe_print; tauto].
  apply safe_execute_bind with (Q := J); [tauto| |].
  - intros st st' [Hj Hs] Hi. eapply insert_guarded; eassumption.
  - apply safe_commit_bind. apply safe_print. auto.
Qed.

Lemma add_item_by_id_safe n : safe J J n (add_item_by_id wl).
Proof.
  unfold add_item_by_id. apply safe_input_any; [auto|]. intros line.
  destruct (lower (strip line) =? "exit"); [apply safe_print; auto|].
  apply add_checked_safe.
Qed.

Lemma add_item_by_name_safe n : safe J J n (add_item_by_name wl).
Proof.
  unfold add_item_by_name. apply safe_input_any; [auto|]. intros line.
  destruct (lower (strip line) =? "exit"); [apply safe_print; auto|].
  apply safe_query_any; [auto|]. intros matches.
  destruct matches as [|m [|m' ms]].
  - apply safe_print; auto.
  - apply safe_print_bind. apply add_checked_safe.
  - apply safe_print_bind. apply safe_print_each_bind.
    apply safe_input_any; [auto|]. intros line2. apply add_checked_safe.
Qed.

Lemma remove_item_safe n : safe J J n (remove_item wl).
Proof.
  unfold remove_item. apply safe_input_any; [auto|]. intros line.
  destruct (lower (strip line) =? "exit"); [apply safe_print; auto|].
  apply safe_query_any; [auto|]. intros rows.
  destruct rows as [|r rows]; [apply safe_print; auto|].
  apply safe_execute_bind with (Q := J); [auto| |].
  - unfold delete_wish_item. intros st st' Hj Hd.
    destruct (as_int _) as [k|]; [|discriminate]. injection Hd as <-. auto.
  - apply safe_commit_bind. apply safe_print. auto.
Qed.

Lemma modify_quantity_safe n : safe J J n (modify_quantity wl).
Proof.
  unfold modify_quantity. apply safe_input_any; [auto|]. intros line.
  destruct (lower (strip line) =? "exit"); [apply safe_print; auto|].
  apply safe_query_any; [auto|]. intros rows.
  destruct rows as [|r rows]; [apply safe_print; auto|].
  apply safe_input_any; [auto|]. intros line2.
  destruct (lower (strip line2) =? "exit"); [apply safe_print; auto|].
  destruct (int (strip line2)) as [q|]; [|apply safe_print; auto].
  apply safe_execute_bind with (Q := J); [auto| |].
  - unfold update_number. intros st st' Hj Hd.
    destruct (as_int _) as [k|]; [|discriminate].
    destruct (int4 q) eqn:Eq; [|discriminate]. injection Hd as <-. auto.
  - apply safe_commit_bind. apply safe_print. auto.
Qed.

Lemma modify_ownership_safe n : safe J J n (modify_ownership wl).
Proof.
  unfold modify_ownership. apply safe_input_any; [auto|]. intros line.
  destruct (lower (strip line) =? "exit"); [apply safe_print; auto|].
  apply safe_input_any; [auto|]. intros line2.
  destruct (lower (strip line2) =? "exit"); [apply safe_print; auto|].
  apply safe_execute_bind with (Q := J); [auto| |].
  - unfold update_owned. intros st st' Hj Hd.
    destruct (as_int _) as [k|]; [|discriminate]. injection Hd as <-. auto.
  - apply safe_commit_bind. apply safe_print. auto.
Qed.

Lemma viewList_loop_safe n : safe J J n (viewList_loop (S n) wl).
Proof.
  induction n as [|n IH]; cbn [viewList_loop]; unfold fetch_items.
  - apply safe_query_any; [auto|]. intros items.
    apply safe_bind with (Q := J); [|auto|].
    { destruct items; [apply safe_print; auto|].
      apply safe_print_bind. apply safe_print_each. auto. }
    intros _. apply safe_print_each_bind. apply safe_input_bind; auto.
  - apply safe_query_any; [auto|]. intros items.
    apply safe_bind with (Q := J); [|auto|].
    { destruct items; [apply safe_print; auto|].
      apply safe_print_bind. apply safe_print_each. auto. }
    intros _. apply safe_print_each_bind.
    apply safe_input_bind; [auto|]. intros choice.
    destruct (choice =? "1").
    { apply safe_bind with (Q := J); [apply get_product_details_safe|auto|auto]. }
    destruct (choice =? "2").
    { apply safe_bind with (Q := J); [apply add_item_by_id_safe|auto|auto]. }
    destruct (choice =? "3").
    { apply safe_bind with (Q := J); [apply add_item_by_name_safe|auto|auto]. }
    destruct (choice =? "4").
    { apply safe_bind with (Q := J); [apply remove_item_safe|auto|auto]. }
    destruct (choice =? "5").
    { apply safe_bind with (Q := J); [apply modify_quantity_safe|auto|auto]. }
    destruct (choice =? "6").
    { apply safe_bind with (Q := J); [apply modify_ownership_safe|auto|auto]. }
    destruct (choice =? "7"); [apply safe_ret; auto|].
    apply safe_print_bind. apply IH.
Qed.

End ItemEditor.

Lemma existsb_eqb_In (s : string) l : existsb (String.eqb s) l = true -> In s l.
Proof.
  intros H. apply existsb_exists in H. destruct H as [x [Hin Hx]].
  apply String.eqb_eq in Hx. congruence.
Qed.

(** [viewList] opens the editor on a wishlist of the registry only, so
    the writes of the editor may count on it. *)
Lemma viewList_keeps (J : Store -> Prop) name n :
  (forall st k q,
     J st -> In name (List_Tracker st) ->
     filter (item_at name k) (Wish_List st) = [] -> int4 k = true -> int4 q = true ->
     In k (map product_id (Products st)) ->
     J (set_wish_list st (Wish_List st ++ [new_row name k q]))) ->
  (forall st k,
     J st ->
     J (set_wish_list st (filter (fun r => negb (item_at name k r)) (Wish_List st)))) ->
  (forall st k q,
     J st -> int4 q = true ->
     J (set_wish_list st
          (map (fun r => if item_at name k r then with_number q r else r)
               (Wish_List st)))) ->
  (forall st k b,
     J st ->
     J (set_wish_list st
          (map (fun r => if item_at name k r then with_owned b r else r)
               (Wish_List st)))) ->
  safe J J n (viewList name).
Proof.
  intros Hins Hdel Hnum Hown. unfold viewList.
  destruct (lower (strip name) =? "exit"); [apply safe_print; auto|].
  apply safe_query_bind; [auto|]. intros wishlists.
  destruct (negb (mem name wishlists)) eqn:Em; [apply safe_print; tauto|].
  apply negb_false_iff in Em. apply existsb_eqb_In in Em.
  intros w Hw [Hj Hsel]. unfold select_wishlist_names in Hsel.
  injection Hsel as Hsel. subst wishlists.
  eapply after_imp.
  - apply (viewList_loop_safe (fun st => J st /\ In name (List_Tracker st)) name)
      with (n := List.length (stdin w)); simpl; auto.
    + intros st k q [H1 H2] H3 H4 H5 H6 H7. auto.
    + intros st k [H1 H2]. auto.
    + intros st k q [H1 H2] H3. auto.
    + intros st k b [H1 H2]. auto.
  - simpl. tauto.
Qed.

Lemma filter_nil_not_in (name : string) l :
  filter (fun n => String.eqb n name) l = [] -> ~ In name l.
Proof.
  induction l as [|x l IH]; simpl; [tauto|].
  destruct (String.eqb x name) eqn:E; [discriminate|].
  intros H [Heq|Hin].
  - subst x. rewrite String.eqb_refl in E. discriminate.
  - exact (IH H Hin).
Qed.

(** The whole program: an invariant that survives the two writes of the
    registry and the four guarded writes of every wishlist survives
    every run of [main_menu], and every run ends. *)
Section Program.

Variable J : Store -> Prop.

Hypothesis J_create : forall st name,
  J st -> (lower (strip name) =? "exit") = false -> ~ In name (List_Tracker st) ->
  J (set_list_tracker st (List_Tracker st ++ [name])).

Hypothesis J_remove : forall st name,
  J st -> In name (List_Tracker st) -> ~ In name (map wl_name (Wish_List st)) ->
  J (set_list_tracker st
       (filter (fun n => negb (String.eqb n name)) (List_Tracker st))).

Hypothesis J_insert : forall wl st k q,
  J st -> filter (item_at wl k) (Wish_List st) = [] ->
  int4 k = true -> int4 q = true ->
  In wl (List_Tracker st) -> In k (map product_id (Products st)) ->
  J (set_wish_list st (Wish_List st ++ [new_row wl k q])).

Hypothesis J_delete : forall wl st k,
  J st ->
  J (set_wish_list st (filter (fun r => negb (item_at wl k r)) (Wish_List st))).

Hypothesis J_number : forall wl st k q,
  J st -> int4 q = true ->
  J (set_wish_list st
       (map (fun r => if item_at wl k r then with_number q r else r) (Wish_List st))).

Hypothesis J_owned : forall wl st k b,
  J st ->
  J (set_wish_list st
       (map (fun r => if item_at wl k r then with_owned b r else r) (Wish_List st))).

Lemma createList_safe name n : safe J J n (createList name).
Proof.
  unfold createList.
  destruct (lower (strip name) =? "exit") eqn:Ex; [apply safe_print; auto|].
  apply safe_query_bind; [auto|]. intros rows.
  destruct rows as [|r rows]; [|apply safe_print; tauto].
  apply safe_execute_bind with (Q := J); [tauto| |].
  - unfold select_wishlist, insert_wishlist. intros st st' [Hj Hs] Hi.
    destruct (has_wishlist name st); [discriminate|].
    injection Hi as <-. injection Hs as Hs.
    apply J_create; [assumption | assumption | apply filter_nil_not_in; assumption].
  - apply safe_commit_bind. apply safe_print. auto.
Qed.

Lemma deleteList_safe name n : safe J J n (deleteList name).
Proof.
  unfold deleteList.
  destruct (lower (strip name) =? "exit"); [apply safe_print; auto|].
  apply safe_query_bind; [auto|]. intros wishlists.
  destruct (negb (mem name wishlists)) eqn:Em.
  - destruct (similar name wishlists); apply safe_print; tauto.
  - apply negb_false_iff in Em. apply existsb_eqb_In in Em.
    apply safe_execute_bind with (Q := J); [tauto| |].
    + unfold select_wishlist_names, delete_wishlist. intros st st' [Hj Hs] Hd.
      injection Hs as Hs. subst wishlists.
      destruct (has_wishlist name st && has_items name st) eqn:Ef; [discriminate|].
      injection Hd as <-.
      apply J_remove; [assumption | assumption |].
      apply has_items_none. apply andb_false_iff in Ef.
      destruct Ef as [Ef|Ef]; [|assumption].
      apply has_wishlist_In in Em. congruence.
    + apply safe_commit_bind. apply safe_print. auto.
Qed.

Lemma viewList_safe name n : safe J J n (viewList name).
Proof.
  unfold viewList.
  destruct (lower (strip name) =? "exit"); [apply safe_print; auto|].
  apply safe_query_any; [auto|]. intros wishlists.
  destruct (negb (mem name wishlists)); [apply safe_print; auto|].
  intros w Hw Hj.
  apply (viewList_loop_safe J name (J_insert name) (J_delete name)
                            (J_number name) (J_owned name)
                            (List.length (stdin w))); auto.
Qed.

Lemma show_wishlists_safe {B} l n (k : unit -> M B) :
  safe J J n (k tt) -> safe J J n (bind (show_wishlists l) k).
Proof.
  intros Hk. apply safe_bind with (Q := J); [|auto|intros []; exact Hk].
  unfold show_wishlists. apply safe_print_bind. apply safe_print_each. auto.
Qed.

Lemma main_menu_loop_safe n : safe J J n (main_menu_loop (S n)).
Proof.
  induction n as [|n IH]; cbn [main_menu_loop].
  - apply safe_print_each_bind. apply safe_input_bind; auto.
  - apply safe_print_each_bind. apply safe_input_bind; [auto|]. intros choice.
    assert (Hnext : forall k, (k <= n)%nat -> safe J J k (main_menu_loop (S n))).
    { intros k Hk. apply safe_le with (n := n); assumption. }
    destruct (choice =? "1").
    { unfold get_all_wishlists. apply safe_query_any; [auto|]. intros wishlists.
      apply safe_bind with (Q := J); [|auto|auto].
      destruct wishlists; [apply safe_print; auto|].
      unfold show_wishlists. apply safe_print_bind. apply safe_print_each. auto. }
    destruct (choice =? "2").
    { apply safe_input_bind; [auto|]. intros line.
      destruct n as [|n']; [exact I|].
      destruct (lower (strip line) =? "exit").
      - apply safe_print_bind. apply Hnext. lia.
      - apply safe_bind with (Q := J); [apply createList_safe|auto|].
        intros _. apply Hnext. lia. }
    destruct (choice =? "3").
    { unfold get_all_wishlists. apply safe_query_any; [auto|]. intros wishlists.
      destruct wishlists as [|x xs]; [apply safe_print_bind; apply IH|].
      apply show_wishlists_safe.
      apply safe_input_bind; [auto|]. intros line.
      destruct n as [|n']; [exact I|].
      destruct (lower (strip line) =? "exit").
      - apply safe_print_bind. apply Hnext. lia.
      - apply safe_bind with (Q := J); [apply deleteList_safe|auto|].
        intros _. apply Hnext. lia. }
    destruct (choice =? "4").
    { apply safe_input_bind; [auto|]. intros line.
      destruct n as [|n']; [exact I|].
      destruct (lower (strip line) =? "exit").
      - apply safe_print_bind. apply Hnext. lia.
      - apply safe_bind with (Q := J); [apply viewList_safe|auto|].
        intros _. apply Hnext. lia. }
    destruct ((choice =? "5") || (choice =? "exit")); [apply safe_print; auto|].
    apply safe_print_bind. apply IH.
Qed.

Lemma main_menu_safe (w : world) :
  J (db w) -> after (main_menu w) (fun w' => J (db w')).
Proof.
  intros Hj. unfold main_menu.
  eapply after_imp.
  - apply (main_menu_loop_safe (List.length (stdin w))); auto.
  - simpl. tauto.
Qed.

End Program.

End Runs.

(** ** The invariants of the [Wish_List] table *)

Module Invariants.

Import PyStr Pg App Spec Runs.

Lemma item_at_key wl k r : item_at wl k r = true <-> key r = (wl, k).
Proof.
  unfold item_at, key. rewrite andb_true_iff, String.eqb_eq, Z.eqb_eq.
  split; [intros [-> ->]; reflexivity | intros H; injection H; auto].
Qed.

Lemma no_item_not_in wl k l :
  filter (item_at wl k) l = [] -> ~ In (wl, k) (map key l).
Proof.
  induction l as [|r l IH]; simpl; [tauto|].
  destruct (item_at wl k r) eqn:E; [discriminate|].
  intros H [Hk|Hin]; [|exact (IH H Hin)].
  apply item_at_key in Hk. congruence.
Qed.

Lemma in_item_filter wl k l :
  In (wl, k) (map key l) -> filter (item_at wl k) l <> [].
Proof. intros Hin Hnil. exact (no_item_not_in _ _ _ Hnil Hin). Qed.

Lemma map_key_update (f : WishRow -> WishRow) (c : WishRow -> bool) l :
  (forall r, key (f r) = key r) ->
  map key (map (fun r => if c r then f r else r) l) = map key l.
Proof.
  intros Hf. induction l as [|r l IH]; simpl; [reflexivity|].
  rewrite IH. destruct (c r); [rewrite Hf|]; reflexivity.
Qed.

Lemma NoDup_map_filter {X Y} (g : X -> Y) (c : X -> bool) l :
  NoDup (map g l) -> NoDup (map g (filter c l)).
Proof.
  induction l as [|x l IH]; simpl; [auto|].
  intros H. inversion H as [|? ? Hnin Hnd]; subst.
  destruct (c x); simpl; [|auto].
  constructor; [|auto].
  intros Hin. apply Hnin. apply in_map_iff in Hin. destruct Hin as [y [Hy Hin]].
  apply filter_In in Hin. apply in_map_iff. exists y. tauto.
Qed.

Lemma unique_insert wl st k q :
  unique_items st -> filter (item_at wl k) (Wish_List st) = [] ->
  unique_items (set_wish_list st (Wish_List st ++ [new_row wl k q])).
Proof.
  unfold unique_items. simpl. intros Hnd Hnil.
  rewrite map_app. simpl.
  apply NoDup_app; [assumption | repeat constructor; simpl; tauto |].
  intros x Hx [Hk|[]]. subst x.
  exact (no_item_not_in _ _ _ Hnil Hx).
Qed.

(** Every run of the program keeps the rows of [Wish_List] distinct by
    (wishlist, product), and ends. *)
Lemma main_menu_unique_items w :
  unique_items (db w) -> after (main_menu w) (fun w' => unique_items (db w')).
Proof.
  apply main_menu_safe; unfold unique_items; simpl; auto.
  - intros wl st k q H Hnil _ _ _ _. apply (unique_insert wl st k q H Hnil).
  - intros wl st k H. apply NoDup_map_filter. exact H.
  - intros wl st k q H _. rewrite map_key_update; auto.
  - intros wl st k b H. rewrite map_key_update; auto.
Qed.

(** Every run of the program keeps the cancel keyword out of the
    registry: [createList] turns it down. *)
Lemma main_menu_no_reserved_names w :
  no_reserved_names (db w) -> after (main_menu w) (fun w' => no_reserved_names (db w')).
Proof.
  apply main_menu_safe; unfold no_reserved_names; simpl; auto.
  - intros st name H Hx _. apply Forall_app. split; [exact H|].
    repeat constructor. exact Hx.
  - intros st name H _ _. rewrite Forall_forall in *. intros x Hx.
    apply filter_In in Hx. apply H. tauto.
Qed.

(** Every run of the program ends: the lines of the input bound the turns
    of its loops. *)
Lemma main_menu_ends w : main_menu w <> Fuel.
Proof.
  pose proof (main_menu_safe (fun _ => True)) as H.
  specialize (H (fun _ _ _ _ _ => I) (fun _ _ _ _ _ => I)
                (fun _ _ _ _ _ _ _ _ _ _ => I)
                (fun _ _ _ _ => I) (fun _ _ _ _ _ _ => I) (fun _ _ _ _ _ => I) w I).
  intros E. rewrite E in H. exact H.
Qed.

Lemma Forall_update {X} (P : X -> Prop) (f : X -> X) (c : X -> bool) l :
  (forall x, P x -> P (f x)) -> Forall P l ->
  Forall P (map (fun x => if c x then f x else x) l).
Proof.
  intros Hf H. induction H as [|x l Hx Hl IH]; simpl; constructor; auto.
  destruct (c x); auto.
Qed.

Lemma Forall_filter {X} (P : X -> Prop) (c : X -> bool) l :
  Forall P l -> Forall P (filter c l).
Proof.
  intros H. induction H as [|x l Hx Hl IH]; simpl; [constructor|].
  destruct (c x); [constructor|]; auto.
Qed.


End Invariants.

(** ** The wishlist registry *)

Module Registry.

Import PyStr Pg App Spec StrFacts Steps Examples.

Lemma mem_In s l : mem s l = true <-> In s l.
Proof.
  unfold mem. rewrite existsb_exists. split.
  - intros [x [Hin Hx]]. apply String.eqb_eq in Hx. congruence.
  - intros Hin. exists s. split; [assumption | apply String.eqb_refl].
Qed.

Lemma select_present name l :
  In name l -> filter (fun n => String.eqb n name) l <> [].
Proof.
  intros Hin Hnil.
  assert (H : In name (filter (fun n => String.eqb n name) l)).
  { apply filter_In. split; [assumption | apply String.eqb_refl]. }
  rewrite Hnil in H. exact H.
Qed.

Lemma filter_absent name l :
  ~ In name l -> filter (fun n => negb (String.eqb n name)) l = l.
Proof.
  induction l as [|x l IH]; simpl; [reflexivity|].
  intros H. destruct (String.eqb x name) eqn:E; simpl.
  - apply String.eqb_eq in E. tauto.
  - rewrite IH; [reflexivity | tauto].
Qed.

(** Deleting by name from a registry without repeated names takes out
    one row and keeps the others in place. *)
Lemma delete_one name l :
  NoDup l -> In name l ->
  exists l1 l2, l = l1 ++ name :: l2 /\
                filter (fun n => negb (String.eqb n name)) l = l1 ++ l2.
Proof.
  intros Hnd Hin. apply in_split in Hin. destruct Hin as [l1 [l2 ->]].
  exists l1, l2. split; [reflexivity|].
  apply NoDup_remove_2 in Hnd.
  rewrite filter_app. simpl. rewrite String.eqb_refl. simpl.
  rewrite !filter_absent; [reflexivity | |]; intros H; apply Hnd, in_or_app; auto.
Qed.

Lemma similar_spec name l x :
  In x (similar name l) <-> In x l /\ ci_substring_of name x.
Proof.
  unfold similar, ci_substring_of. rewrite filter_In, str_in_iff. reflexivity.
Qed.

Lemma present_not_reserved st name :
  no_reserved_names st -> In name (List_Tracker st) ->
  (lower (strip name) =? "exit") = false.
Proof.
  unfold no_reserved_names. rewrite Forall_forall. intros H Hin. exact (H name Hin).
Qed.

(** C7. For every name already in the registry, [createList] returns with
    the whole store unchanged, having issued nothing but its look-up (no
    INSERT, no COMMIT), and the one thing it prints is that the wishlist
    already exists.  The message is proved for the registries in which no
    wishlist is named by the cancel keyword; no run of the program puts
    one there ([Invariants.main_menu_no_reserved_names]). *)
Theorem createList_existing (w : world) (name : string) :
  In name (List_Tracker (db w)) ->
  exists w',
    createList name w = Ok tt w' /\
    db w' = db w /\
    (forall q, In q (issued w') -> In q (issued w) \/ q = SELECT_wishlist name) /\
    (no_reserved_names (db w) ->
     issued w' = issued w ++ [SELECT_wishlist name] /\
     stdout w' = stdout w ++ [Out ("Wishlist '" ++ name ++ "' already exists.")]).
Proof.
  intros Hin. unfold createList.
  destruct (lower (strip name) =? "exit") eqn:Ex.
  - eexists. split; [reflexivity|]. simpl.
    split; [reflexivity|]. split; [auto|].
    intros Hr. rewrite (present_not_reserved _ _ Hr Hin) in Ex. discriminate Ex.
  - unfold bind, query, select_wishlist.
    pose proof (select_present name _ Hin) as Hne.
    destruct (filter (fun n => String.eqb n name) (List_Tracker (db w))) as [|r rs];
      [congruence|].
    eexists. split; [reflexivity|]. simpl. repeat split; auto.
    intros q Hq. apply in_app_or in Hq. destruct Hq as [Hq|[Hq|[]]]; auto.
Qed.

Lemma createList_existing_witness :
  exists w',
    createList "Road" (session shop []) = Ok tt w' /\
    db w' = shop /\
    issued w' = [SELECT_wishlist "Road"] /\
    stdout w' = [Out "Wishlist 'Road' already exists."].
Proof.
  destruct (createList_existing (session shop []) "Road") as [w' (H1 & H2 & _ & H4)].
  - simpl. auto.
  - exists w'. destruct H4 as [H5 H6]; [repeat constructor|]. auto.
Defined.

(** C8, as stated, fails for a wishlist that has items: the registry
    holds "Road" and [Wish_List] a row of it; [deleteList] issues its
    DELETE, the store turns it down for the reference of that row, and
    the error, which nothing catches, ends the call with every table as it
    was and nothing committed. *)
Lemma deleteList_refused :
  In "Road" (List_Tracker shop_with_item) /\
  exists w',
    deleteList "Road" (session shop_with_item []) = Raise IntegrityError w' /\
    db w' = shop_with_item /\
    issued w' = [SELECT_wishlist_names; DELETE_wishlist "Road"] /\
    stdout w' = [].
Proof.
  split; [simpl; auto|]. eexists. split; [cbv; reflexivity|]. auto.
Qed.

(** C8, amended. [deleteList] on a name the registry does not hold deletes
    nothing: it only reads the registry, and the one line it prints offers
    the existing names that contain the given one, letter case apart, when
    there are some, and plainly says that the wishlist does not exist when
    there are none.  On a name the registry holds, of a wishlist without
    items, it deletes from the registry the rows of that name (one row,
    the others staying in place, when names are not repeated) and touches
    no other table.  On a name the registry holds, of a wishlist that has
    items, the store turns the DELETE down: nothing is deleted, nothing is
    committed or printed, and the call ends by the error.  What is printed
    for an absent name is for a name other than the cancel keyword; the
    two cases of a present name are proved for the registries in which no
    wishlist is named by that keyword, the ones the program builds. *)
Theorem deleteList_cases (w : world) (name : string) :
  (forall x, In x (similar name (List_Tracker (db w))) <->
             In x (List_Tracker (db w)) /\ ci_substring_of name x) /\
  (~ In name (List_Tracker (db w)) ->
   exists w',
     deleteList name w = Ok tt w' /\
     db w' = db w /\
     (forall q, In q (issued w') -> In q (issued w) \/ q = SELECT_wishlist_names) /\
     ((lower (strip name) =? "exit") = false ->
      stdout w' = stdout w ++
        [Out (match similar name (List_Tracker (db w)) with
              | [] => "Wishlist '" ++ name ++ "' does not exist."
              | sim => "Wishlist '" ++ name ++ "' does not exist. Did you mean: "
                       ++ join ", " sim ++ "?"
              end)])) /\
  (In name (List_Tracker (db w)) ->
   no_reserved_names (db w) ->
   In name (map wl_name (Wish_List (db w))) ->
   exists w',
     deleteList name w = Raise IntegrityError w' /\
     db w' = db w /\
     issued w' = issued w ++ [SELECT_wishlist_names; DELETE_wishlist name] /\
     stdout w' = stdout w /\ stdin w' = stdin w) /\
  (In name (List_Tracker (db w)) ->
   no_reserved_names (db w) ->
   ~ In name (map wl_name (Wish_List (db w))) ->
   exists w',
     deleteList name w = Ok tt w' /\
     List_Tracker (db w') =
       filter (fun n => negb (String.eqb n name)) (List_Tracker (db w)) /\
     Categories (db w') = Categories (db w) /\
     Products (db w') = Products (db w) /\
     Wish_List (db w') = Wish_List (db w) /\
     issued w' = issued w ++ [SELECT_wishlist_names; DELETE_wishlist name; COMMIT] /\
     stdout w' = stdout w ++ [Out ("Wishlist '" ++ name ++ "' removed successfully.")] /\
     (NoDup (List_Tracker (db w)) ->
      exists l1 l2, List_Tracker (db w) = l1 ++ name :: l2 /\
                    List_Tracker (db w') = l1 ++ l2)).
Proof.
  split; [|split; [|split]].
  - intros x. apply similar_spec.
  - intros Hnin. unfold deleteList.
    destruct (lower (strip name) =? "exit") eqn:Hx.
    { eexists. split; [reflexivity|]. simpl. repeat split; auto; discriminate. }
    unfold bind, query, select_wishlist_names.
    destruct (mem name (List_Tracker (db w))) eqn:Em.
    { apply mem_In in Em. contradiction. }
    simpl negb. cbv iota. cbn [db].
    assert (Hq : forall (l : list sql) q,
               In q (l ++ [SELECT_wishlist_names]) ->
               In q l \/ q = SELECT_wishlist_names).
    { intros l q Hq. apply in_app_or in Hq. destruct Hq as [Hq|[Hq|[]]]; auto. }
    destruct (similar name (List_Tracker (db w))) eqn:Es;
      (eexists; split; [reflexivity|]; simpl; repeat split; auto).
  - intros Hin Hr Hitems. unfold deleteList.
    rewrite (present_not_reserved _ _ Hr Hin).
    erewrite bind_query by reflexivity.
    pose proof Hin as Hm. apply mem_In in Hm. rewrite Hm. cbn [negb].
    unfold bind, execute, delete_wishlist. cbn [db sent].
    apply has_wishlist_In in Hin. apply has_items_In in Hitems.
    rewrite Hin, Hitems. cbn [andb].
    eexists. split; [reflexivity|]. simpl.
    repeat split; try (rewrite <- !app_assoc; reflexivity).
  - intros Hin Hr Hnone. unfold deleteList.
    rewrite (present_not_reserved _ _ Hr Hin).
    erewrite bind_query by reflexivity.
    pose proof Hin as Hm. apply mem_In in Hm. rewrite Hm. cbn [negb].
    unfold bind, execute, delete_wishlist. cbn [db sent].
    apply has_items_none in Hnone. rewrite Hnone, andb_false_r.
    eexists. split; [reflexivity|]. simpl.
    repeat split; try (rewrite <- !app_assoc; reflexivity).
    intros Hnd. apply delete_one; assumption.
Qed.

Lemma deleteList_cases_witness :
  (exists w', deleteList "roa" (session shop []) = Ok tt w' /\ db w' = shop /\
              stdout w' = [Out "Wishlist 'roa' does not exist. Did you mean: Road?"]) /\
  (exists w', deleteList "Trail" (session shop []) = Ok tt w' /\ db w' = shop /\
              stdout w' = [Out "Wishlist 'Trail' does not exist."]) /\
  (exists w', deleteList "Road" (session shop_with_item []) = Raise IntegrityError w' /\
              db w' = shop_with_item) /\
  (exists w', deleteList "Road" (session shop []) = Ok tt w' /\
              List_Tracker (db w') = ["Gravel"] /\ Wish_List (db w') = []).
Proof.
  split; [|split; [|split]].
  - destruct (deleteList_cases (session shop []) "roa") as (_ & H & _).
    destruct H as [w' (H1 & H2 & _ & H4)].
    + simpl. intros [E|[E|[]]]; discriminate E.
    + exists w'. split; [exact H1|]. split; [exact H2|]. exact (H4 eq_refl).
  - destruct (deleteList_cases (session shop []) "Trail") as (_ & H & _).
    destruct H as [w' (H1 & H2 & _ & H4)].
    + simpl. intros [E|[E|[]]]; discriminate E.
    + exists w'. split; [exact H1|]. split; [exact H2|]. exact (H4 eq_refl).
  - destruct (deleteList_cases (session shop_with_item []) "Road") as (_ & _ & H & _).
    destruct H as [w' (H1 & H2 & _)];
      [simpl; auto | repeat constructor | simpl; auto |].
    exists w'. auto.
  - destruct (deleteList_cases (session shop []) "Road") as (_ & _ & _ & H).
    destruct H as [w' (H1 & H2 & _ & _ & H5 & _)];
      [simpl; auto | repeat constructor | simpl; tauto |].
    exists w'. auto.
Defined.

End Registry.

(** ** The ownership flag *)

Module Ownership.

Import PyStr Pg App Spec StrFacts Steps Invariants Examples.

(** What the UPDATE of choice 6 does to the rows. *)
Lemma modify_ownership_run w wl id_line answer rest k :
  stdin w = id_line :: answer :: rest ->
  (lower (strip id_line) =? "exit") = false ->
  (lower (strip answer) =? "exit") = false ->
  int4in (strip id_line) = Some k ->
  modify_ownership wl w =
  Ok tt
     {| db := set_wish_list (db w)
                (map (fun r => if item_at wl k r
                               then with_owned (lower (strip answer) =? "yes") r
                               else r)
                     (Wish_List (db w)));
        stdin := rest;
        stdout := stdout w ++
          [Prompt "Enter the product ID to modify ownership status (or type 'exit' to cancel): ";
           Prompt "Do you own this item? (yes/no or type 'exit' to cancel): ";
           Out "Ownership status updated successfully."];
        issued := issued w ++
          [UPDATE_owned (lower (strip answer) =? "yes") wl (PStr (strip id_line)); COMMIT] |}.
Proof.
  intros Hin Hx1 Hx2 Hk. unfold modify_ownership.
  rewrite (bind_input _ _ w id_line (answer :: rest) Hin). cbv zeta. rewrite Hx1.
  erewrite bind_input by reflexivity. cbv zeta. rewrite Hx2.
  erewrite bind_execute by (unfold update_owned; simpl; rewrite Hk; reflexivity).
  rewrite bind_commit. unfold print, emit, sent. simpl.
  rewrite <- !app_assoc. reflexivity.
Qed.

Lemma flag_written_rows wl k b l :
  Forall2 (flag_written wl k b) l
          (map (fun r => if item_at wl k r then with_owned b r else r) l).
Proof.
  induction l as [|r l IH]; simpl; constructor; [|exact IH].
  unfold flag_written, item_at.
  destruct (String.eqb (wl_name r) wl && Z.eqb (wl_product_id r) k);
    simpl; auto.
Qed.

(** C10. In Modify-Ownership the flag written is true exactly when the
    answer, stripped and lowercased, is "yes"; any other answer that is not
    the cancel keyword writes false.  After it the rows of the chosen
    product in the wishlist have that flag, whatever they had, and nothing
    else in the store has changed: the other columns of these rows, the
    other rows in their order, the other tables. *)
Theorem modify_ownership_answer w wl id_line answer rest k :
  stdin w = id_line :: answer :: rest ->
  int4in (strip id_line) = Some k ->
  (lower (strip answer) =? "exit") = false ->
  exists w' b,
    modify_ownership wl w = Ok tt w' /\
    (b = true <-> lower (strip answer) = "yes") /\
    Forall2 (flag_written wl k b) (Wish_List (db w)) (Wish_List (db w')) /\
    (forall r', In r' (Wish_List (db w')) ->
                wl_name r' = wl -> wl_product_id r' = k -> owned r' = b) /\
    List_Tracker (db w') = List_Tracker (db w) /\
    Products (db w') = Products (db w) /\
    Categories (db w') = Categories (db w) /\
    issued w' = issued w ++ [UPDATE_owned b wl (PStr (strip id_line)); COMMIT].
Proof.
  intros Hin Hk Hx2. pose proof (int_not_exit _ _ Hk) as Hx1.
  eexists. exists (lower (strip answer) =? "yes").
  split; [apply (modify_ownership_run w wl id_line answer rest k); assumption|].
  cbn [db set_wish_list Wish_List List_Tracker Products Categories issued].
  split; [apply String.eqb_eq|]. split; [apply flag_written_rows|].
  split; [|repeat split].
  intros r' Hr' Hn Hp. apply in_map_iff in Hr'. destruct Hr' as [r [Hr _]].
  destruct (item_at wl k r) eqn:E.
  - subst r'. reflexivity.
  - subst r'. unfold item_at in E.
    rewrite Hn, Hp, String.eqb_refl, Z.eqb_refl in E. discriminate.
Qed.

Lemma modify_ownership_answer_witness :
  (exists w', modify_ownership "Road" (session shop_with_item ["5"; " YES "]) = Ok tt w' /\
              Wish_List (db w') =
                [{| wl_name := "Road"; wl_product_id := 5; number := 2; owned := true |}]) /\
  (exists w', modify_ownership "Road" (session shop_with_item ["5"; "y"]) = Ok tt w' /\
              Wish_List (db w') =
                [{| wl_name := "Road"; wl_product_id := 5; number := 2; owned := false |}]).
Proof.
  split.
  - destruct (modify_ownership_answer (session shop_with_item ["5"; " YES "]) "Road"
                "5" " YES " [] 5 eq_refl eq_refl eq_refl)
      as [w' [b (H1 & H2 & H3 & _)]].
    exists w'. split; [exact H1|].
    destruct H2 as [_ H2]. rewrite (H2 eq_refl) in H3. cbn [db session shop_with_item
      set_wish_list Wish_List] in H3.
    inversion H3 as [|r r' l l' (Ha & Hb & Hc & Hd) Hl]; subst.
    inversion Hl; subst. destruct r'; simpl in *. subst. reflexivity.
  - destruct (modify_ownership_answer (session shop_with_item ["5"; "y"]) "Road"
                "5" "y" [] 5 eq_refl eq_refl eq_refl)
      as [w' [b (H1 & H2 & H3 & _)]].
    exists w'. split; [exact H1|].
    assert (Hb : b = false).
    { destruct b; [|reflexivity]. destruct H2 as [H2 _]. discriminate (H2 eq_refl). }
    rewrite Hb in H3. cbn [db session shop_with_item set_wish_list Wish_List] in H3.
    inversion H3 as [|r r' l l' (Ha & Hb' & Hc & Hd) Hl]; subst.
    inversion Hl; subst. destruct r'; simpl in *. subst. reflexivity.
Defined.

Lemma set_owned_twice wl k b b' l :
  map (fun r => if item_at wl k r then with_owned b' r else r)
      (map (fun r => if item_at wl k r then with_owned b r else r) l) =
  map (fun r => if item_at wl k r then with_owned b' r else r) l.
Proof.
  rewrite map_map. apply map_ext. intros r.
  destruct (item_at wl k r) eqn:E; [|rewrite E; reflexivity].
  change (item_at wl k (with_owned b r)) with (item_at wl k r). rewrite E. reflexivity.
Qed.

Lemma set_owned_same wl k b l :
  (forall r, In r l -> item_at wl k r = true -> owned r = b) ->
  map (fun r => if item_at wl k r then with_owned b r else r) l = l.
Proof.
  induction l as [|r l IH]; simpl; [reflexivity|]. intros H.
  rewrite IH by auto. destruct (item_at wl k r) eqn:E; [|reflexivity].
  rewrite <- (H r (or_introl eq_refl) E). destruct r; reflexivity.
Qed.

(** C9. On a wishlist whose rows for the chosen product are not owned,
    Modify-Ownership answered "yes" sets their flag, and Modify-Ownership
    answered "no" after it gives back the store it started from: the flag
    is false again, the quantities and every other row are as before. *)
Theorem ownership_round_trip w wl id1 yes id2 no rest k :
  stdin w = id1 :: yes :: id2 :: no :: rest ->
  int4in (strip id1) = Some k -> int4in (strip id2) = Some k ->
  lower (strip yes) = "yes" -> lower (strip no) = "no" ->
  (forall r, In r (Wish_List (db w)) -> item_at wl k r = true -> owned r = false) ->
  exists w1 w2,
    modify_ownership wl w = Ok tt w1 /\
    modify_ownership wl w1 = Ok tt w2 /\
    Wish_List (db w1) =
      map (fun r => if item_at wl k r then with_owned true r else r) (Wish_List (db w)) /\
    db w2 = db w /\ stdin w2 = rest.
Proof.
  intros Hin Hk1 Hk2 Hyes Hno Hfalse.
  pose proof (int_not_exit _ _ Hk1) as Hx1. pose proof (int_not_exit _ _ Hk2) as Hx2.
  assert (Ey : (lower (strip yes) =? "exit") = false) by (rewrite Hyes; reflexivity).
  assert (En : (lower (strip no) =? "exit") = false) by (rewrite Hno; reflexivity).
  eexists. eexists.
  split; [apply (modify_ownership_run w wl id1 yes (id2 :: no :: rest) k); assumption|].
  split; [apply (modify_ownership_run _ wl id2 no rest k); auto|].
  simpl. rewrite Hyes, Hno. simpl.
  split; [reflexivity|]. split; [|reflexivity].
  rewrite set_owned_twice, (set_owned_same wl k false) by assumption.
  destruct (db w); reflexivity.
Qed.

Lemma ownership_round_trip_witness :
  exists w1 w2,
    modify_ownership "Road" (session shop_with_item ["5"; "yes"; "5"; "no"]) = Ok tt w1 /\
    modify_ownership "Road" w1 = Ok tt w2 /\
    Wish_List (db w1) = [with_owned true (new_row "Road" 5 2)] /\
    db w2 = shop_with_item /\ stdin w2 = [].
Proof.
  apply (ownership_round_trip (session shop_with_item ["5"; "yes"; "5"; "no"])
           "Road" "5" "yes" "5" "no" [] 5); try reflexivity.
  simpl. intros r [<-|[]] _. reflexivity.
Defined.

End Ownership.

(** ** The item editor: which statements a handler issues *)

Module Editor.

Import PyStr Pg App Spec StrFacts Steps Invariants Examples Tactics.

Lemma add_checked_checked wl p w :
  after (add_checked wl p w)
        (fun w' => exists l, issued w' = issued w ++ l /\ checked l).
Proof.
  unfold add_checked, select_wish_item, insert_wish_item. split_run.
  all: trace_leaf.
Qed.

Lemma add_item_by_id_checked wl w :
  after (add_item_by_id wl w)
        (fun w' => exists l, issued w' = issued w ++ l /\ checked l).
Proof.
  unfold add_item_by_id, add_checked, select_wish_item, insert_wish_item. split_run.
  all: trace_leaf.
Qed.

Lemma add_item_by_name_checked wl w :
  after (add_item_by_name wl w)
        (fun w' => exists l, issued w' = issued w ++ l /\ checked l).
Proof.
  unfold add_item_by_name.
  destruct (stdin w) as [|line rest] eqn:Ein.
  { rewrite bind_input_eof by assumption. trace_leaf. }
  rewrite (bind_input _ _ w line rest Ein). cbv zeta.
  destruct (lower (strip line) =? "exit"); [trace_leaf|].
  erewrite bind_query by reflexivity.
  set (pat := ("%" ++ strip line ++ "%")%string).
  assert (Htail : forall p w1,
             issued w1 = issued w ++ [SELECT_products_ilike pat] ->
             after (add_checked wl p w1)
                   (fun w' => exists l, issued w' = issued w ++ l /\ checked l)).
  { intros p w1 Hw1. eapply Runs.after_imp; [apply add_checked_checked|].
    simpl. intros w' [l [Hl Hc]]. exists (SELECT_products_ilike pat :: l).
    split; [rewrite Hl, Hw1, <- app_assoc; reflexivity|].
    apply checked_other; [reflexivity | assumption]. }
  destruct (map _ (filter _ (Products _))) as [|m [|m' ms]].
  - unfold print. trace_leaf.
  - rewrite bind_print. apply Htail. reflexivity.
  - rewrite bind_print. unfold bind at 1. rewrite print_each_run.
    match goal with
    | |- context [bind (input ?p) ?k ?w1] =>
        destruct (stdin w1) as [|line2 rest2] eqn:Ein2;
        [rewrite (bind_input_eof p k w1 Ein2) |
         rewrite (bind_input p k w1 line2 rest2 Ein2)]
    end.
    + trace_leaf.
    + apply Htail. reflexivity.
Qed.

Lemma remove_item_checked wl w :
  after (remove_item wl w)
        (fun w' => exists l, issued w' = issued w ++ l /\ checked l).
Proof.
  unfold remove_item, select_wish_item, delete_wish_item. split_run.
  all: trace_leaf.
Qed.

Lemma modify_quantity_checked wl w :
  after (modify_quantity wl w)
        (fun w' => exists l, issued w' = issued w ++ l /\ checked l).
Proof.
  unfold modify_quantity, select_wish_item, update_number. split_run.
  all: trace_leaf.
Qed.

(** Choice 4 on a product the wishlist does not hold: the look-up, a
    message, no write. *)
Lemma remove_item_absent w wl id_line rest k :
  stdin w = id_line :: rest ->
  (lower (strip id_line) =? "exit") = false ->
  int4in (strip id_line) = Some k ->
  filter (item_at wl k) (Wish_List (db w)) = [] ->
  remove_item wl w =
  Ok tt {| db := db w; stdin := rest;
           stdout := stdout w ++
             [Prompt "Enter the product ID to remove (or type 'exit' to cancel): ";
              Out ("Product ID " ++ strip id_line ++ " does not exist in the wishlist '"
                   ++ wl ++ "'.")];
           issued := issued w ++ [SELECT_wish_item wl (PStr (strip id_line))] |}.
Proof.
  intros Hin Hx Hk Hnone. unfold remove_item.
  rewrite (bind_input _ _ w id_line rest Hin). cbv zeta. rewrite Hx.
  erewrite bind_query
    by (unfold select_wish_item; simpl; rewrite Hk, Hnone; reflexivity).
  unfold print, emit, sent. simpl. rewrite <- app_assoc. reflexivity.
Qed.

(** Choice 5 on a product the wishlist does not hold: the same. *)
Lemma modify_quantity_absent w wl id_line rest k :
  stdin w = id_line :: rest ->
  (lower (strip id_line) =? "exit") = false ->
  int4in (strip id_line) = Some k ->
  filter (item_at wl k) (Wish_List (db w)) = [] ->
  modify_quantity wl w =
  Ok tt {| db := db w; stdin := rest;
           stdout := stdout w ++
             [Prompt "Enter the product ID to modify (or type 'exit' to cancel): ";
              Out ("Product ID " ++ strip id_line ++ " does not exist in the wishlist '"
                   ++ wl ++ "'.")];
           issued := issued w ++ [SELECT_wish_item wl (PStr (strip id_line))] |}.
Proof.
  intros Hin Hx Hk Hnone. unfold modify_quantity.
  rewrite (bind_input _ _ w id_line rest Hin). cbv zeta. rewrite Hx.
  erewrite bind_query
    by (unfold select_wish_item; simpl; rewrite Hk, Hnone; reflexivity).
  unfold print, emit, sent. simpl. rewrite <- app_assoc. reflexivity.
Qed.

Lemma update_owned_unchecked b wl p : ~ checked [UPDATE_owned b wl p; COMMIT].
Proof. intros H. inversion H; subst. discriminate. Qed.

(** C6. Modify-Ownership issues its UPDATE as the first statement of the
    operation, with no look-up of the row before it; for a product ID with
    no row in the wishlist the UPDATE matches nothing, the store is left
    as it was and the operation still reports success.  Add (by ID and by
    name), Remove and Modify-Quantity never write [Wish_List] without the
    look-up of the same (wishlist, product) right before the write, and on
    that absent product Remove and Modify-Quantity stop after the look-up
    without writing. *)
Theorem modify_ownership_unchecked w wl id_line answer rest k :
  stdin w = id_line :: answer :: rest ->
  (lower (strip answer) =? "exit") = false ->
  int4in (strip id_line) = Some k ->
  filter (item_at wl k) (Wish_List (db w)) = [] ->
  (exists w' b,
     modify_ownership wl w = Ok tt w' /\
     issued w' = issued w ++ [UPDATE_owned b wl (PStr (strip id_line)); COMMIT] /\
     ~ checked [UPDATE_owned b wl (PStr (strip id_line)); COMMIT] /\
     db w' = db w /\
     stdout w' = stdout w ++
       [Prompt "Enter the product ID to modify ownership status (or type 'exit' to cancel): ";
        Prompt "Do you own this item? (yes/no or type 'exit' to cancel): ";
        Out "Ownership status updated successfully."]) /\
  (forall m, In m [add_item_by_id; add_item_by_name; remove_item; modify_quantity] ->
             forall w0 wl0,
               after (m wl0 w0)
                     (fun w' => exists l, issued w' = issued w0 ++ l /\ checked l)) /\
  (exists w', remove_item wl w = Ok tt w' /\ db w' = db w /\
              issued w' = issued w ++ [SELECT_wish_item wl (PStr (strip id_line))]) /\
  (exists w', modify_quantity wl w = Ok tt w' /\ db w' = db w /\
              issued w' = issued w ++ [SELECT_wish_item wl (PStr (strip id_line))]).
Proof.
  intros Hin Hx2 Hk Hnone. pose proof (int_not_exit _ _ Hk) as Hx1.
  split; [|split; [|split]].
  - eexists. exists (lower (strip answer) =? "yes").
    split; [apply (Ownership.modify_ownership_run w wl id_line answer rest k); assumption|].
    simpl. split; [reflexivity|]. split; [apply update_owned_unchecked|].
    split; [|reflexivity].
    rewrite map_update_none by assumption. apply set_wish_list_same.
  - intros m Hm w0 wl0. simpl in Hm.
    destruct Hm as [<-|[<-|[<-|[<-|[]]]]].
    + apply add_item_by_id_checked.
    + apply add_item_by_name_checked.
    + apply remove_item_checked.
    + apply modify_quantity_checked.
  - eexists. split; [apply (remove_item_absent w wl id_line (answer :: rest) k); assumption|].
    simpl. auto.
  - eexists. split; [apply (modify_quantity_absent w wl id_line (answer :: rest) k); assumption|].
    simpl. auto.
Qed.

Lemma modify_ownership_unchecked_witness :
  (exists w',
     modify_ownership "Road" (session shop_with_item ["6"; "yes"]) = Ok tt w' /\
     issued w' = [UPDATE_owned true "Road" (PStr "6"); COMMIT] /\
     db w' = shop_with_item) /\
  (exists w',
     remove_item "Road" (session shop_with_item ["6"; "yes"]) = Ok tt w' /\
     db w' = shop_with_item /\ issued w' = [SELECT_wish_item "Road" (PStr "6")]).
Proof.
  destruct (modify_ownership_unchecked (session shop_with_item ["6"; "yes"]) "Road"
              "6" "yes" [] 6 eq_refl eq_refl eq_refl eq_refl)
    as (H1 & _ & H3 & _).
  split.
  - destruct H1 as [w' [b (E & Hi & _ & Hd & _)]].
    exists w'. split; [exact E|]. split; [|exact Hd].
    rewrite Hi. simpl in E. injection E as <-. simpl in Hi. injection Hi as <-.
    reflexivity.
  - exact H3.
Defined.

(** ** No two rows for one (wishlist, product) *)

Lemma rows_selected wl k l :
  In (wl, k) (map key l) ->
  exists z zs, map wl_product_id (filter (item_at wl k) l) = z :: zs.
Proof.
  intros Hin. apply in_item_filter in Hin.
  destruct (filter (item_at wl k) l) as [|r rs]; [congruence|].
  simpl. eauto.
Qed.

(** The duplicate check finds the row: nothing is asked, nothing written. *)
Lemma add_checked_present w wl p k :
  as_int p = Some k ->
  In (wl, k) (map key (Wish_List (db w))) ->
  add_checked wl p w =
  Ok tt (emit (Out "You already have this product in your wishlist.")
              (sent (SELECT_wish_item wl p) w)).
Proof.
  intros Hk Hin. unfold add_checked.
  destruct (rows_selected wl k _ Hin) as [z [zs Hz]].
  erewrite bind_query by (unfold select_wish_item; rewrite Hk, Hz; reflexivity).
  reflexivity.
Qed.

(** C2. Every run of the program keeps at most one row per (wishlist,
    product) in [Wish_List].  When the wishlist already holds the product,
    Add-by-ID and Add-by-Name (on its single match, or on the ID entered
    among several matches) stop at the duplicate check: they print that
    the product is already in the wishlist, issue no INSERT and leave the
    store as it was. *)
Theorem no_duplicate_items (w : world) (wl : string) (k : Z) :
  In (wl, k) (map key (Wish_List (db w))) ->
  (forall w0, unique_items (db w0) ->
              after (main_menu w0) (fun w' => unique_items (db w'))) /\
  (forall id_line rest,
     stdin w = id_line :: rest ->
     int4in (strip id_line) = Some k ->
     exists w',
       add_item_by_id wl w = Ok tt w' /\ db w' = db w /\
       issued w' = issued w ++ [SELECT_wish_item wl (PStr (strip id_line))] /\
       stdout w' = stdout w ++
         [Prompt "Enter the product ID to add (or type 'exit' to cancel): ";
          Out "You already have this product in your wishlist."]) /\
  (forall name_line rest p,
     stdin w = name_line :: rest ->
     (lower (strip name_line) =? "exit") = false ->
     ilike_matches (strip name_line) (db w) = [p] ->
     product_id p = k ->
     exists w',
       add_item_by_name wl w = Ok tt w' /\ db w' = db w /\
       issued w' = issued w ++
         [SELECT_products_ilike ("%" ++ strip name_line ++ "%");
          SELECT_wish_item wl (PInt k)] /\
       stdout w' = stdout w ++
         [Prompt "Enter the product name to add (or type 'exit' to cancel): ";
          Out ("Matched Product: " ++ product_name p ++ " (ID: " ++ str_of_int k ++ ")");
          Out "You already have this product in your wishlist."]) /\
  (forall name_line id_line rest p p' ps,
     stdin w = name_line :: id_line :: rest ->
     (lower (strip name_line) =? "exit") = false ->
     ilike_matches (strip name_line) (db w) = p :: p' :: ps ->
     int4in (strip id_line) = Some k ->
     exists w',
       add_item_by_name wl w = Ok tt w' /\ db w' = db w /\
       issued w' = issued w ++
         [SELECT_products_ilike ("%" ++ strip name_line ++ "%");
          SELECT_wish_item wl (PStr (strip id_line))] /\
       stdout w' = stdout w ++
         [Prompt "Enter the product name to add (or type 'exit' to cancel): ";
          Out "Multiple matches found:"] ++
         map (fun q => Out ("- ID: " ++ str_of_int (product_id q) ++ ", Name: "
                            ++ product_name q)) (p :: p' :: ps) ++
         [Prompt "Enter the product ID of the desired match: ";
          Out "You already have this product in your wishlist."]).
Proof.
  intros Hin. split; [|split; [|split]].
  - apply main_menu_unique_items.
  - intros id_line rest Hs Hk. pose proof (int_not_exit _ _ Hk) as Hx.
    unfold add_item_by_id.
    rewrite (bind_input _ _ w id_line rest Hs). cbv zeta. rewrite Hx.
    rewrite (add_checked_present _ wl _ k) by assumption.
    eexists. split; [reflexivity|]. simpl.
    rewrite <- app_assoc. auto.
  - intros name_line rest p Hs Hx Hm Hp. unfold add_item_by_name.
    rewrite (bind_input _ _ w name_line rest Hs). cbv zeta. rewrite Hx.
    erewrite bind_query by reflexivity. cbn [db].
    unfold ilike_matches in Hm. rewrite Hm. cbn [map fst snd].
    rewrite bind_print, Hp.
    rewrite (add_checked_present _ wl _ k) by (cbn [as_int db]; auto).
    eexists. split; [reflexivity|]. simpl.
    rewrite <- !app_assoc. auto.
  - intros name_line id_line rest p p' ps Hs Hx Hm Hk. unfold add_item_by_name.
    rewrite (bind_input _ _ w name_line (id_line :: rest) Hs). cbv zeta. rewrite Hx.
    erewrite bind_query by reflexivity. cbn [db].
    unfold ilike_matches in Hm. rewrite Hm. cbn [map].
    rewrite bind_print. unfold bind at 1. rewrite print_each_run.
    erewrite bind_input by reflexivity.
    rewrite (add_checked_present _ wl _ k) by (cbn [as_int db]; auto).
    eexists. split; [reflexivity|]. simpl.
    split; [reflexivity|]. split; [rewrite <- !app_assoc; reflexivity|].
    rewrite !map_map. cbn [map fst snd]. rewrite <- !app_assoc. reflexivity.
Qed.

Lemma no_duplicate_items_witness :
  (exists w',
     add_item_by_id "Road" (session shop_with_item ["05"; "3"]) = Ok tt w' /\
     db w' = shop_with_item /\
     issued w' = [SELECT_wish_item "Road" (PStr "05")]) /\
  (exists w',
     add_item_by_name "Road" (session shop_with_item ["road"; "3"]) = Ok tt w' /\
     db w' = shop_with_item) /\
  (exists w',
     add_item_by_name "Road" (session shop_with_item ["bike"; "5"; "3"]) = Ok tt w' /\
     db w' = shop_with_item).
Proof.
  split; [|split].
  - destruct (no_duplicate_items (session shop_with_item ["05"; "3"]) "Road" 5)
      as (_ & H & _); [simpl; auto|].
    destruct (H "05" ["3"] eq_refl eq_refl) as [w' (H1 & H2 & H3 & _)].
    exists w'. auto.
  - destruct (no_duplicate_items (session shop_with_item ["road"; "3"]) "Road" 5)
      as (_ & _ & H & _); [simpl; auto|].
    destruct (H "road" ["3"] road_bike eq_refl eq_refl eq_refl eq_refl)
      as [w' (H1 & H2 & _)].
    exists w'. auto.
  - destruct (no_duplicate_items (session shop_with_item ["bike"; "5"; "3"]) "Road" 5)
      as (_ & _ & _ & H); [simpl; auto|].
    destruct (H "bike" "5" ["3"] road_bike mountain_bike [] eq_refl eq_refl eq_refl eq_refl)
      as [w' (H1 & H2 & _)].
    exists w'. auto.
Defined.

End Editor.

(** ** The stored quantity *)

Module Quantity.

Import PyStr Pg App Spec StrFacts Steps Invariants Examples Tactics Editor.

(** The product is not in the wishlist and the quantity line is a number
    of the column's range: the row is appended with that number, the
    wishlist being in the registry and the product in the catalog. *)
Lemma add_checked_insert w wl p k qty_line rest q :
  to_int4 p = Some k ->
  filter (item_at wl k) (Wish_List (db w)) = [] ->
  stdin w = qty_line :: rest ->
  (lower (strip qty_line) =? "exit") = false ->
  int (strip qty_line) = Some q ->
  int4 q = true ->
  In wl (List_Tracker (db w)) ->
  In k (map product_id (Products (db w))) ->
  add_checked wl p w =
  Ok tt {| db := set_wish_list (db w) (Wish_List (db w) ++ [new_row wl k q]);
           stdin := rest;
           stdout := stdout w ++
             [Prompt "Enter the quantity (or type 'exit' to cancel): ";
              Out "Item added successfully."];
           issued := issued w ++
             [SELECT_wish_item wl p; INSERT_wish_item wl p q; COMMIT] |}.
Proof.
  intros Hk Hnone Hs Hx Hq Hr Hw Hp. unfold add_checked.
  apply has_wishlist_In in Hw. apply has_product_In in Hp.
  erewrite bind_query
    by (unfold select_wish_item; rewrite (Runs.to_int4_as_int _ _ Hk), Hnone; reflexivity).
  cbn [map].
  erewrite bind_input by (simpl; exact Hs). cbv zeta. rewrite Hx, Hq.
  erewrite bind_execute
    by (unfold insert_wish_item; cbn [db sent]; rewrite Hk, Hr, Hw, Hp; reflexivity).
  rewrite bind_commit. unfold print, emit, sent. simpl.
  rewrite <- !app_assoc. reflexivity.
Qed.

(** The same with a product that the catalog does not hold: the INSERT is
    issued, the store turns it down, and the error ends the call with the
    tables as they were and nothing committed. *)
Lemma add_checked_refused w wl p k qty_line rest q :
  to_int4 p = Some k ->
  filter (item_at wl k) (Wish_List (db w)) = [] ->
  stdin w = qty_line :: rest ->
  (lower (strip qty_line) =? "exit") = false ->
  int (strip qty_line) = Some q ->
  int4 q = true ->
  ~ In k (map product_id (Products (db w))) ->
  add_checked wl p w =
  Raise IntegrityError
        {| db := db w; stdin := rest;
           stdout := stdout w ++ [Prompt "Enter the quantity (or type 'exit' to cancel): "];
           issued := issued w ++ [SELECT_wish_item wl p; INSERT_wish_item wl p q] |}.
Proof.
  intros Hk Hnone Hs Hx Hq Hr Hp. unfold add_checked.
  assert (Ep : has_product k (db w) = false).
  { destruct (has_product k (db w)) eqn:E; [|reflexivity].
    apply has_product_In in E. contradiction. }
  erewrite bind_query
    by (unfold select_wish_item; rewrite (Runs.to_int4_as_int _ _ Hk), Hnone; reflexivity).
  cbn [map].
  erewrite bind_input by (simpl; exact Hs). cbv zeta. rewrite Hx, Hq.
  unfold bind, execute, insert_wish_item. cbn [db sent].
  rewrite Hk, Hr, Ep, andb_false_r. unfold sent. simpl.
  rewrite <- !app_assoc. reflexivity.
Qed.


Lemma add_item_by_id_step w wl id_line rest :
  stdin w = id_line :: rest ->
  (lower (strip id_line) =? "exit") = false ->
  add_item_by_id wl w =
  add_checked wl (PStr (strip id_line))
    {| db := db w; stdin := rest;
       stdout := stdout w ++
         [Prompt "Enter the product ID to add (or type 'exit' to cancel): "];
       issued := issued w |}.
Proof.
  intros Hs Hx. unfold add_item_by_id.
  rewrite (bind_input _ _ w id_line rest Hs). cbv zeta. rewrite Hx. reflexivity.
Qed.

(** Choice 5 on a product of the wishlist, up to the quantity prompt. *)
Lemma modify_quantity_step w wl id_line qty_line rest k :
  stdin w = id_line :: qty_line :: rest ->
  (lower (strip id_line) =? "exit") = false ->
  int4in (strip id_line) = Some k ->
  In (wl, k) (map key (Wish_List (db w))) ->
  (lower (strip qty_line) =? "exit") = false ->
  modify_quantity wl w =
  let w1 := {| db := db w; stdin := rest;
               stdout := stdout w ++
                 [Prompt "Enter the product ID to modify (or type 'exit' to cancel): ";
                  Prompt "Enter the new quantity (or type 'exit' to cancel): "];
               issued := issued w ++ [SELECT_wish_item wl (PStr (strip id_line))] |} in
  match int (strip qty_line) with
  | None => print "Invalid quantity. Please enter a number." w1
  | Some q =>
      bind (execute (UPDATE_number q wl (PStr (strip id_line)))
                    (update_number q wl (PStr (strip id_line))))
           (fun _ => bind commit (fun _ => print "Quantity updated successfully.")) w1
  end.
Proof.
  intros Hs Hx Hk Hin Hxq. unfold modify_quantity.
  rewrite (bind_input _ _ w id_line (qty_line :: rest) Hs). cbv zeta. rewrite Hx.
  destruct (rows_selected wl k _ Hin) as [z [zs Hz]].
  erewrite bind_query
    by (unfold select_wish_item; simpl; rewrite Hk, Hz; reflexivity).
  cbv beta iota.
  erewrite bind_input by reflexivity. cbv zeta. rewrite Hxq.
  unfold sent. simpl. rewrite <- !app_assoc. simpl.
  destruct (int (strip qty_line)); reflexivity.
Qed.




End Quantity.

(** ** Adding by name *)

Module ByName.

Import PyStr Pg App Spec StrFacts Steps Invariants Examples Tactics Editor Quantity.

(** Without wildcard characters in the name, the products the statement
    selects are the products whose name contains it. *)
Lemma ilike_matches_contains name st :
  no_wildcard name = true -> ilike_matches name st = name_matches name st.
Proof.
  intros H. unfold ilike_matches, name_matches. apply filter_ext.
  intros p. apply ilike_contains. exact H.
Qed.

(** The duplicate check, the quantity prompt and the insert do the same
    for a product ID held as an [int] and for its decimal text. *)
Lemma add_checked_same_param wl k w1 w2 :
  int4 k = true -> db w1 = db w2 -> stdin w1 = stdin w2 ->
  leaves (add_checked wl (PInt k) w1) = leaves (add_checked wl (PStr (str_of_int k)) w2).
Proof.
  intros Hk Hdb Hin.
  destruct w1 as [d1 i1 o1 s1], w2 as [d2 i2 o2 s2]. simpl in Hdb, Hin. subst d2 i2.
  unfold add_checked, select_wish_item, insert_wish_item, as_int, to_int4.
  rewrite (int4in_str_of_int k Hk), Hk.
  unfold bind, input, query, execute, commit, print, ret, emit, sent.
  cbn [db stdin stdout issued].
  destruct (map wl_product_id (filter (item_at wl k) (Wish_List d1))); [|reflexivity].
  cbn [db stdin stdout issued].
  destruct i1 as [|line rest]; [reflexivity|].
  cbn [db stdin stdout issued].
  destruct (lower (strip line) =? "exit"); [reflexivity|].
  destruct (int (strip line)) as [q|]; [|reflexivity].
  cbn [db stdin stdout issued].
  destruct (int4 q); [|reflexivity].
  destruct (has_wishlist wl d1 && has_product k d1); reflexivity.
Qed.

(** C5, as stated, fails.  No product name of the catalog contains "r_a",
    yet Add-by-Name with that line adds the road bike: in the pattern the
    underscore stands for any character.  And the name "exit", which one
    product name contains, cancels Add-by-Name, whereas Add-by-ID with
    that product's ID adds it. *)
Lemma add_by_name_differs :
  (name_matches (strip "r_a") shop = [] /\ Wish_List shop = [] /\
   exists w', add_item_by_name "Road" (session shop ["r_a"; "2"]) = Ok tt w' /\
              Wish_List (db w') = [new_row "Road" 5 2]) /\
  (name_matches (strip "exit") sign_shop = [exit_sign] /\
   (exists w', add_item_by_name "Road" (session sign_shop ["exit"; "2"]) = Ok tt w' /\
               Wish_List (db w') = []) /\
   (exists w', add_item_by_id "Road" (session sign_shop ["7"; "2"]) = Ok tt w' /\
               Wish_List (db w') = [new_row "Road" 7 2])).
Proof.
  split; [split; [reflexivity|split; [reflexivity|]] | split; [reflexivity|split]];
    eexists; (split; [cbv; reflexivity | reflexivity]).
Qed.

(** C5, amended. For a product name that is not the cancel keyword and
    has none of the characters [%], [_] and backslash: when no product
    name contains it, letter case apart, Add-by-Name returns with the
    store unchanged; when exactly one does, Add-by-Name ends as Add-by-ID
    does on the decimal text of that product's ID followed by the same
    remaining input: same store, same input left, same way of ending. *)
Theorem add_by_name_plain w wl name_line rest :
  stdin w = name_line :: rest ->
  (lower (strip name_line) =? "exit") = false ->
  no_wildcard (strip name_line) = true ->
  catalog_ids_int (db w) ->
  (name_matches (strip name_line) (db w) = [] ->
   exists w', add_item_by_name wl w = Ok tt w' /\ db w' = db w /\ stdin w' = rest) /\
  (forall p,
     name_matches (strip name_line) (db w) = [p] ->
     leaves (add_item_by_name wl w) =
     leaves (add_item_by_id wl {| db := db w;
                                  stdin := str_of_int (product_id p) :: rest;
                                  stdout := stdout w; issued := issued w |})).
Proof.
  intros Hs Hx Hplain Hids. split.
  - intros Hnone. unfold add_item_by_name.
    rewrite (bind_input _ _ w name_line rest Hs). cbv zeta. rewrite Hx.
    erewrite bind_query by reflexivity. cbn [db].
    fold (ilike_matches (strip name_line) (db w)).
    rewrite (ilike_matches_contains _ _ Hplain), Hnone. cbn [map].
    eexists. split; [reflexivity|]. simpl. auto.
  - intros p Hone.
    assert (Hp : int4 (product_id p) = true).
    { assert (Hin : In p (name_matches (strip name_line) (db w)))
        by (rewrite Hone; simpl; auto).
      unfold name_matches in Hin. apply filter_In in Hin.
      unfold catalog_ids_int in Hids. rewrite Forall_forall in Hids.
      apply Hids. tauto. }
    unfold add_item_by_name.
    rewrite (bind_input _ _ w name_line rest Hs). cbv zeta. rewrite Hx.
    erewrite bind_query by reflexivity. cbn [db].
    fold (ilike_matches (strip name_line) (db w)).
    rewrite (ilike_matches_contains _ _ Hplain), Hone. cbn [map fst snd].
    rewrite bind_print.
    rewrite (add_item_by_id_step
               {| db := db w; stdin := str_of_int (product_id p) :: rest;
                  stdout := stdout w; issued := issued w |}
               wl (str_of_int (product_id p)) rest eq_refl)
      by (rewrite strip_str_of_int; apply str_of_int_not_exit).
    rewrite strip_str_of_int.
    apply add_checked_same_param; [assumption | reflexivity | reflexivity].
Qed.

Lemma add_by_name_plain_witness :
  (exists w', add_item_by_name "Road" (session shop ["tandem"; "2"]) = Ok tt w' /\
              db w' = shop /\ stdin w' = ["2"]) /\
  leaves (add_item_by_name "Road" (session shop [" ROAD "; "2"])) =
  leaves (add_item_by_id "Road" (session shop ["5"; "2"])).
Proof.
  split.
  - destruct (add_by_name_plain (session shop ["tandem"; "2"]) "Road" "tandem" ["2"]
                eq_refl eq_refl eq_refl) as [H _].
    + repeat constructor.
    + apply H. reflexivity.
  - destruct (add_by_name_plain (session shop [" ROAD "; "2"]) "Road" " ROAD " ["2"]
                eq_refl eq_refl eq_refl) as [_ H].
    + repeat constructor.
    + apply (H road_bike). reflexivity.
Defined.

End ByName.

(** ** Rows and what they refer to *)

Module References.

Import PyStr Pg App Spec StrFacts Steps Runs Invariants Examples Tactics Editor Quantity.

Lemma wishlists_exist_update (f : WishRow -> WishRow) (c : WishRow -> bool) st :
  (forall r, wl_name (f r) = wl_name r) ->
  wishlists_exist st ->
  wishlists_exist (set_wish_list st (map (fun r => if c r then f r else r) (Wish_List st))).
Proof.
  unfold wishlists_exist. simpl. intros Hf H.
  apply Forall_update; [|exact H]. intros r Hr. simpl. rewrite Hf. exact Hr.
Qed.

Lemma products_exist_update (f : WishRow -> WishRow) (c : WishRow -> bool) st :
  (forall r, wl_product_id (f r) = wl_product_id r) ->
  products_exist st ->
  products_exist (set_wish_list st (map (fun r => if c r then f r else r) (Wish_List st))).
Proof.
  unfold products_exist. simpl. intros Hf H.
  apply Forall_update; [|exact H]. intros r Hr. simpl. rewrite Hf. exact Hr.
Qed.

(** Every run of the program keeps every row of [Wish_List] on a wishlist
    of the registry and on a product of the catalog, and ends. *)
Lemma main_menu_references w :
  wishlists_exist (db w) -> products_exist (db w) ->
  after (main_menu w) (fun w' => wishlists_exist (db w') /\ products_exist (db w')).
Proof.
  intros Hw Hp.
  apply (main_menu_safe (fun st => wishlists_exist st /\ products_exist st));
    [| | | | | |auto].
  - intros st name [H1 H2] _ _. split; [|exact H2].
    unfold wishlists_exist in *. simpl.
    eapply Forall_impl; [|exact H1]. simpl. intros r Hr. apply in_or_app. auto.
  - intros st name [H1 H2] _ Hnone. split; [|exact H2].
    unfold wishlists_exist in *. simpl. rewrite Forall_forall in *.
    intros r Hr. apply filter_In. split; [auto|].
    apply negb_true_iff. apply String.eqb_neq. intros E. apply Hnone.
    rewrite <- E. apply in_map. exact Hr.
  - intros wl st k q [H1 H2] _ _ _ Hwl Hk. split.
    + unfold wishlists_exist in *. simpl. apply Forall_app. split; [exact H1|].
      repeat constructor. exact Hwl.
    + unfold products_exist in *. simpl. apply Forall_app. split; [exact H2|].
      repeat constructor. simpl. apply in_map_iff in Hk.
      destruct Hk as [p [Hp1 Hp2]]. exists p. auto.
  - intros wl st k [H1 H2]. split.
    + unfold wishlists_exist in *. simpl. apply Forall_filter. exact H1.
    + unfold products_exist in *. simpl. apply Forall_filter. exact H2.
  - intros wl st k q [H1 H2] _. split.
    + apply wishlists_exist_update; auto.
    + apply products_exist_update; auto.
  - intros wl st k b [H1 H2]. split.
    + apply wishlists_exist_update; auto.
    + apply products_exist_update; auto.
Qed.

(** C1, as stated, fails in what it says of the pre-insert checks.  The
    catalog has no product 99; Add-by-ID with that ID runs its duplicate
    check, asks for the quantity and issues the INSERT for the pair
    ("Road", 99).  It is the store that turns the row down, for the
    reference to the catalog, and the error, which nothing catches, ends
    the call. *)
Lemma insert_not_prechecked :
  ~ In 99%Z (map product_id (Products shop)) /\
  exists w',
    add_item_by_id "Road" (session shop ["99"; "1"]) = Raise IntegrityError w' /\
    db w' = shop /\
    issued w' = [SELECT_wish_item "Road" (PStr "99");
                 INSERT_wish_item "Road" (PStr "99") 1].
Proof.
  split.
  - simpl. intros [H|[H|[]]]; discriminate H.
  - eexists. split; [cbv; reflexivity|]. split; reflexivity.
Qed.

(** C1, amended.  From a store in which every row of [Wish_List] names a
    wishlist of the registry and a product of the catalog, every run of
    the program ends in such a store.  Of the two references the
    application checks one: [viewList] opens the editor only on a name it
    has found in the registry.  It checks no product before it inserts:
    Add-by-ID with an ID that the catalog does not hold issues the INSERT,
    which the store turns down, and the error ends the call with the
    tables as they were. *)
Theorem references_kept (w : world) :
  wishlists_exist (db w) ->
  products_exist (db w) ->
  after (main_menu w)
        (fun w' => wishlists_exist (db w') /\ products_exist (db w')) /\
  (forall name,
     ~ In name (List_Tracker (db w)) ->
     exists w', viewList name w = Ok tt w' /\ db w' = db w /\ stdin w' = stdin w) /\
  (forall wl id_line qty_line rest k q,
     stdin w = id_line :: qty_line :: rest ->
     int4in (strip id_line) = Some k ->
     (lower (strip qty_line) =? "exit") = false ->
     int (strip qty_line) = Some q -> int4 q = true ->
     filter (item_at wl k) (Wish_List (db w)) = [] ->
     ~ In k (map product_id (Products (db w))) ->
     exists w',
       add_item_by_id wl w = Raise IntegrityError w' /\
       db w' = db w /\
       issued w' = issued w ++ [SELECT_wish_item wl (PStr (strip id_line));
                                INSERT_wish_item wl (PStr (strip id_line)) q]).
Proof.
  intros Hw Hp. split; [|split].
  - apply main_menu_references; assumption.
  - intros name Hnin. unfold viewList.
    destruct (lower (strip name) =? "exit").
    + eexists. split; [reflexivity|]. simpl. auto.
    + erewrite bind_query by reflexivity.
      destruct (mem name (List_Tracker (db w))) eqn:Em.
      * apply Registry.mem_In in Em. contradiction.
      * simpl. eexists. split; [reflexivity|]. simpl. auto.
  - intros wl id_line qty_line rest k q Hs Hk Hxq Hq Hr Hnone Hcat.
    rewrite (add_item_by_id_step w wl id_line _ Hs (int_not_exit _ _ Hk)).
    erewrite (add_checked_refused _ wl _ k qty_line rest q); eauto.
Qed.

Lemma references_kept_witness :
  after (main_menu (session shop_with_item ["4"; "Road"; "2"; "6"; "1"; "7"; "5"]))
        (fun w' => wishlists_exist (db w') /\ products_exist (db w')) /\
  (exists w',
     add_item_by_id "Road" (session shop_with_item ["99"; "1"]) = Raise IntegrityError w' /\
     db w' = shop_with_item).
Proof.
  assert (Hw : wishlists_exist shop_with_item) by (repeat constructor; simpl; auto).
  assert (Hp : products_exist shop_with_item)
    by (repeat constructor; exists road_bike; simpl; auto).
  split.
  - destruct (references_kept
                (session shop_with_item ["4"; "Road"; "2"; "6"; "1"; "7"; "5"]) Hw Hp)
      as [H _].
    exact H.
  - destruct (references_kept (session shop_with_item ["99"; "1"]) Hw Hp)
      as (_ & _ & H).
    destruct (H "Road" "99" "1" [] 99%Z 1%Z eq_refl eq_refl eq_refl eq_refl eq_refl
                eq_refl) as [w' (H1 & H2 & _)].
    + simpl. intros [E|[E|[]]]; discriminate E.
    + exists w'. auto.
Defined.

End References.

(** ** The cancel keyword *)

Module Cancel.

Import PyStr Pg App Spec StrFacts Steps Runs Invariants Examples Tactics Editor Quantity.

(** At the first prompt of the five operations of the editor the cancel
    keyword ends the operation: nothing is issued, the store is as it
    was, and the editor goes on with the next line. *)
Lemma exit_at_first_prompt m wl w x rest :
  In m [add_item_by_id; add_item_by_name; remove_item; modify_quantity;
        modify_ownership] ->
  stdin w = x :: rest -> lower (strip x) = "exit" ->
  exists w', m wl w = Ok tt w' /\ db w' = db w /\ stdin w' = rest /\
             issued w' = issued w.
Proof.
  intros Hm Hs Hx. simpl in Hm.
  destruct Hm as [<-|[<-|[<-|[<-|[<-|[]]]]]];
    [unfold add_item_by_id | unfold add_item_by_name | unfold remove_item
     | unfold modify_quantity | unfold modify_ownership];
    rewrite (bind_input _ _ w x rest Hs); cbv zeta; rewrite Hx;
    (eexists; split; [reflexivity | simpl; auto]).
Qed.

(** The same at the quantity prompts and at the yes/no prompt. *)
Lemma exit_at_second_prompt wl w id_line x rest k :
  stdin w = id_line :: x :: rest ->
  int4in (strip id_line) = Some k ->
  lower (strip x) = "exit" ->
  (filter (item_at wl k) (Wish_List (db w)) = [] ->
   exists w', add_item_by_id wl w = Ok tt w' /\ db w' = db w /\ stdin w' = rest) /\
  (In (wl, k) (map key (Wish_List (db w))) ->
   exists w', modify_quantity wl w = Ok tt w' /\ db w' = db w /\ stdin w' = rest) /\
  (exists w', modify_ownership wl w = Ok tt w' /\ db w' = db w /\ stdin w' = rest).
Proof.
  intros Hs Hk Hx. pose proof (int_not_exit _ _ Hk) as Hx1.
  split; [|split].
  - intros Hnone. unfold add_item_by_id, add_checked.
    rewrite (bind_input _ _ w id_line (x :: rest) Hs). cbv zeta. rewrite Hx1.
    erewrite bind_query
      by (unfold select_wish_item; simpl; rewrite Hk, Hnone; reflexivity).
    cbn [map]. erewrite bind_input by reflexivity. cbv zeta. rewrite Hx.
    eexists. split; [reflexivity | simpl; auto].
  - intros Hin. unfold modify_quantity.
    rewrite (bind_input _ _ w id_line (x :: rest) Hs). cbv zeta. rewrite Hx1.
    destruct (rows_selected wl k _ Hin) as [z [zs Hz]].
    erewrite bind_query
      by (unfold select_wish_item; simpl; rewrite Hk, Hz; reflexivity).
    cbv beta iota. erewrite bind_input by reflexivity. cbv zeta. rewrite Hx.
    eexists. split; [reflexivity | simpl; auto].
  - unfold modify_ownership.
    rewrite (bind_input _ _ w id_line (x :: rest) Hs). cbv zeta. rewrite Hx1.
    erewrite bind_input by reflexivity. cbv zeta. rewrite Hx.
    eexists. split; [reflexivity | simpl; auto].
Qed.

(** C3. At the prompt that asks for one of several matching products,
    Add-by-Name does not test for the cancel keyword: "exit" is sent to the
    store as the product ID of the duplicate check, the store rejects it,
    and the operation ends by an exception instead of going back to the
    menu.  The store is unchanged. *)
Theorem exit_at_disambiguation w wl name_line x rest p p' ps :
  stdin w = name_line :: x :: rest ->
  (lower (strip name_line) =? "exit") = false ->
  ilike_matches (strip name_line) (db w) = p :: p' :: ps ->
  lower (strip x) = "exit" ->
  exists w',
    add_item_by_name wl w = Raise DataError w' /\
    db w' = db w /\ stdin w' = rest /\
    issued w' = issued w ++
      [SELECT_products_ilike ("%" ++ strip name_line ++ "%");
       SELECT_wish_item wl (PStr (strip x))].
Proof.
  intros Hs Hx1 Hm Hx. unfold add_item_by_name.
  rewrite (bind_input _ _ w name_line (x :: rest) Hs). cbv zeta. rewrite Hx1.
  erewrite bind_query by reflexivity. cbn [db].
  fold (ilike_matches (strip name_line) (db w)). rewrite Hm. cbn [map].
  rewrite bind_print. unfold bind at 1. rewrite print_each_run.
  erewrite bind_input by reflexivity.
  unfold add_checked.
  erewrite bind_query_error
    by (unfold select_wish_item; simpl; rewrite (exit_not_int _ Hx); reflexivity).
  eexists. split; [reflexivity|]. simpl.
  rewrite <- !app_assoc. auto.
Qed.

Lemma exit_at_disambiguation_witness :
  exists w',
    add_item_by_name "Road" (session shop ["bike"; "exit"; "7"; "5"]) =
      Raise DataError w' /\
    db w' = shop /\ stdin w' = ["7"; "5"] /\
    issued w' = [SELECT_products_ilike "%bike%"; SELECT_wish_item "Road" (PStr "exit")].
Proof.
  apply (exit_at_disambiguation (session shop ["bike"; "exit"; "7"; "5"]) "Road"
           "bike" "exit" ["7"; "5"] road_bike mountain_bike []); reflexivity.
Defined.

(** The whole program on that input: the exception leaves [main_menu],
    with the lines "7" and "5" never read. *)
Lemma main_menu_ended_by_exit :
  exists w',
    main_menu (session shop ["4"; "Road"; "3"; "bike"; "exit"; "7"; "5"]) =
      Raise DataError w' /\
    db w' = shop /\ stdin w' = ["7"; "5"].
Proof. eexists. split; [cbv; reflexivity|]. split; reflexivity. Qed.

End Cancel.

(** ** What a run does to the console and to the connection *)

Module Effects.

Import PyStr Pg App Spec Steps.
Local Open Scope prog_scope.

Section Rules.

Variables R E : world -> world -> Prop.

Hypothesis R_refl : forall w, R w w.
Hypothesis R_trans : forall w1 w2 w3, R w1 w2 -> R w2 w3 -> R w1 w3.
Hypothesis R_E : forall w1 w2, R w1 w2 -> E w1 w2.
Hypothesis RE_trans : forall w1 w2 w3, R w1 w2 -> E w2 w3 -> E w1 w3.
Hypothesis R_emit : forall w e, R w (emit e w).
Hypothesis R_read : forall w p rest,
  R w {| db := db w; stdin := rest; stdout := stdout w ++ [Prompt p];
         issued := issued w |}.

Lemma runs_le {A} (m : M A) n n' : (n' <= n)%nat -> runs R E n m -> runs R E n' m.
Proof. intros Hn Hm w Hw. apply Hm. lia. Qed.

Lemma runs_ret {A} (a : A) n : runs R E n (ret a).
Proof. intros w _. simpl. auto. Qed.

Lemma runs_print s n : runs R E n (print s).
Proof. intros w _. simpl. auto. Qed.

Lemma runs_bind {A B} (m : M A) (k : A -> M B) n :
  runs R E n m -> (forall a, runs R E n (k a)) -> runs R E n (bind m k).
Proof.
  intros Hm Hk w Hw. unfold bind. specialize (Hm w Hw).
  destruct (m w) as [a w1|e w1|]; [|assumption|assumption].
  destruct Hm as [Hr Hl].
  assert (Hw1 : (List.length (stdin w1) <= n)%nat) by lia.
  specialize (Hk a w1 Hw1).
  destruct (k a w1) as [b w2|e w2|]; [|eauto|assumption].
  destruct Hk as [Hr2 Hl2]. split; [eauto | lia].
Qed.

Lemma runs_print_each l n : runs R E n (print_each l).
Proof.
  induction l as [|s l IH]; simpl; [apply runs_ret|].
  apply runs_bind; [apply runs_print | intros _; exact IH].
Qed.

Lemma runs_input_bind {B} p (k : string -> M B) n :
  (forall l, match n with O => True | S n' => runs R E n' (k l) end) ->
  runs R E n (bind (input p) k).
Proof.
  intros Hk w Hw. unfold bind, input.
  destruct (stdin w) as [|l rest] eqn:Es.
  { apply R_E. apply (R_emit w (Prompt p)). }
  simpl in Hw. destruct n as [|n']; [lia|].
  specialize (Hk l). simpl in Hk.
  match goal with
  | |- match k l ?w1 with _ => _ end =>
      assert (Hw1 : (List.length (stdin w1) <= n')%nat) by (simpl; lia);
      specialize (Hk w1 Hw1);
      assert (Hr1 : R w w1) by (apply (R_read w p rest));
      destruct (k l w1) as [b w2|e w2|]; [|eauto|assumption]
  end.
  destruct Hk as [Hr2 Hl2]. simpl in Hl2. split; [eauto | simpl; lia].
Qed.

Lemma runs_input_any {B} p (k : string -> M B) n :
  (forall l, runs R E n (k l)) -> runs R E n (bind (input p) k).
Proof.
  intros Hk. apply runs_input_bind. intros l. destruct n as [|n'] eqn:En; [exact I|].
  apply runs_le with (n := S n'); [lia | apply Hk].
Qed.

Lemma runs_query {A} q (f : Store -> option A) n :
  (forall w, R w (sent q w)) -> runs R E n (query q f).
Proof.
  intros Hq w _. unfold query. destruct (f (db w)); simpl; auto.
Qed.

(** A write and its commit. *)
Lemma runs_write {B} q (f : Store -> write) (k : unit -> M B) n :
  (forall w st,
     R w (sent COMMIT {| db := st; stdin := stdin w; stdout := stdout w;
                         issued := issued w ++ [q] |})) ->
  (forall w, E w (sent q w)) ->
  runs R E n (k tt) ->
  runs R E n (bind (execute q f) (fun _ => bind commit k)).
Proof.
  intros Hc He Hk w Hw. unfold bind, execute, commit.
  destruct (f (db w)) as [st| |]; [|apply He|apply He].
  match goal with
  | |- match k tt ?w1 with _ => _ end =>
      assert (Hw1 : (List.length (stdin w1) <= n)%nat) by (simpl; lia);
      specialize (Hk w1 Hw1);
      assert (Hr1 : R w w1) by (apply (Hc w st));
      destruct (k tt w1) as [b w2|e w2|]; [|eauto|assumption]
  end.
  destruct Hk as [Hr2 Hl2]. simpl in Hl2. split; [eauto | lia].
Qed.

(** The browser, the editor and the menus, for relations that hold of
    every SELECT and every committed write. *)

Hypothesis R_select : forall w q,
  is_write q = false -> q <> COMMIT -> R w (sent q w).
Hypothesis R_write : forall w q st,
  is_write q = true ->
  R w (sent COMMIT {| db := st; stdin := stdin w; stdout := stdout w;
                      issued := issued w ++ [q] |}).
Hypothesis E_write : forall w q, is_write q = true -> E w (sent q w).

Ltac select_ok := intros; apply R_select; [reflexivity | discriminate].
Ltac write_ok :=
  apply runs_write;
  [intros; apply R_write; reflexivity | intros; apply E_write; reflexivity | apply runs_print].

Lemma runs_fetch_products {B} c n (k : _ -> M B) :
  (forall a, runs R E n (k a)) -> runs R E n (bind (fetch_products_by_category c) k).
Proof.
  intros Hk. apply runs_bind; [|exact Hk]. unfold fetch_products_by_category.
  destruct c as [z|]; [destruct (Z.eqb z 0)|]; apply runs_query; select_ok.
Qed.

Lemma runs_get_product_details_loop n :
  forall categories current,
    runs R E n (get_product_details_loop (S n) categories current).
Proof.
  induction n as [|n IH]; intros categories current; cbn [get_product_details_loop];
    apply runs_fetch_products; intros products;
    (apply runs_bind; [apply runs_print|intros _]);
    (apply runs_bind;
     [destruct products; [apply runs_print | apply runs_print_each]|intros _]);
    do 3 (apply runs_bind; [apply runs_print|intros _]);
    apply runs_input_bind; intros line; [exact I|].
  destruct (strip line =? "1").
  - apply runs_bind; [apply runs_print|intros _].
    apply runs_bind; [apply runs_print_each|intros _].
    apply runs_bind; [apply runs_print|intros _].
    apply runs_input_bind. intros line2.
    assert (Hrec : forall c, match n with
                             | O => True
                             | S n' => runs R E n' (get_product_details_loop (S n) categories c)
                             end).
    { intros c. destruct n as [|n']; [exact I|].
      apply runs_le with (n := S n'); [lia | apply IH]. }
    destruct (lower (strip line2) =? "all"); [apply Hrec|].
    destruct (int (lower (strip line2))) as [z|].
    + destruct (negb (existsb _ categories)); [|apply Hrec].
      specialize (Hrec None). destruct n as [|n']; [exact I|].
      apply runs_bind; [apply runs_print|intros _; exact Hrec].
    + specialize (Hrec None). destruct n as [|n']; [exact I|].
      apply runs_bind; [apply runs_print|intros _; exact Hrec].
  - destruct (strip line =? "2"); [apply runs_ret|].
    apply runs_bind; [apply runs_print|intros _; apply IH].
Qed.

Lemma runs_get_product_details n : runs R E n get_product_details.
Proof.
  unfold get_product_details, list_categories.
  apply runs_bind; [apply runs_query; select_ok|]. intros categories w Hw.
  apply (runs_get_product_details_loop (List.length (stdin w))). lia.
Qed.

Lemma runs_add_checked wl p n : runs R E n (add_checked wl p).
Proof.
  unfold add_checked. apply runs_bind; [apply runs_query; select_ok|]. intros rows.
  destruct rows as [|r rows]; [|apply runs_print].
  apply runs_input_any. intros line.
  destruct (lower (strip line) =? "exit"); [apply runs_print|].
  destruct (int (strip line)) as [q|]; [|apply runs_print].
  write_ok.
Qed.

Lemma runs_add_item_by_id wl n : runs R E n (add_item_by_id wl).
Proof.
  unfold add_item_by_id. apply runs_input_any. intros line.
  destruct (lower (strip line) =? "exit"); [apply runs_print|apply runs_add_checked].
Qed.

Lemma runs_add_item_by_name wl n : runs R E n (add_item_by_name wl).
Proof.
  unfold add_item_by_name. apply runs_input_any. intros line.
  destruct (lower (strip line) =? "exit"); [apply runs_print|].
  apply runs_bind; [apply runs_query; select_ok|]. intros matches.
  destruct matches as [|m [|m' ms]].
  - apply runs_print.
  - apply runs_bind; [apply runs_print|intros _; apply runs_add_checked].
  - apply runs_bind; [apply runs_print|intros _].
    apply runs_bind; [apply runs_print_each|intros _].
    apply runs_input_any. intros line2. apply runs_add_checked.
Qed.

Lemma runs_remove_item wl n : runs R E n (remove_item wl).
Proof.
  unfold remove_item. apply runs_input_any. intros line.
  destruct (lower (strip line) =? "exit"); [apply runs_print|].
  apply runs_bind; [apply runs_query; select_ok|]. intros rows.
  destruct rows as [|r rows]; [apply runs_print|]. write_ok.
Qed.

Lemma runs_modify_quantity wl n : runs R E n (modify_quantity wl).
Proof.
  unfold modify_quantity. apply runs_input_any. intros line.
  destruct (lower (strip line) =? "exit"); [apply runs_print|].
  apply runs_bind; [apply runs_query; select_ok|]. intros rows.
  destruct rows as [|r rows]; [apply runs_print|].
  apply runs_input_any. intros line2.
  destruct (lower (strip line2) =? "exit"); [apply runs_print|].
  destruct (int (strip line2)) as [q|]; [|apply runs_print]. write_ok.
Qed.

Lemma runs_modify_ownership wl n : runs R E n (modify_ownership wl).
Proof.
  unfold modify_ownership. apply runs_input_any. intros line.
  destruct (lower (strip line) =? "exit"); [apply runs_print|].
  apply runs_input_any. intros line2.
  destruct (lower (strip line2) =? "exit"); [apply runs_print|]. write_ok.
Qed.

Lemma runs_viewList_loop wl n : runs R E n (viewList_loop (S n) wl).
Proof.
  induction n as [|n IH]; cbn [viewList_loop]; unfold fetch_items;
    (apply runs_bind; [apply runs_query; select_ok|intros items]);
    (apply runs_bind;
     [destruct items;
      [apply runs_print
      |apply runs_bind; [apply runs_print|intros _; apply runs_print_each]]
     |intros _]);
    (apply runs_bind; [apply runs_print_each|intros _]);
    apply runs_input_bind; intros choice; [exact I|].
  destruct (choice =? "1").
  { apply runs_bind; [apply runs_get_product_details|intros _; exact IH]. }
  destruct (choice =? "2").
  { apply runs_bind; [apply runs_add_item_by_id|intros _; exact IH]. }
  destruct (choice =? "3").
  { apply runs_bind; [apply runs_add_item_by_name|intros _; exact IH]. }
  destruct (choice =? "4").
  { apply runs_bind; [apply runs_remove_item|intros _; exact IH]. }
  destruct (choice =? "5").
  { apply runs_bind; [apply runs_modify_quantity|intros _; exact IH]. }
  destruct (choice =? "6").
  { apply runs_bind; [apply runs_modify_ownership|intros _; exact IH]. }
  destruct (choice =? "7"); [apply runs_ret|].
  apply runs_bind; [apply runs_print|intros _; exact IH].
Qed.

Lemma runs_viewList name n : runs R E n (viewList name).
Proof.
  unfold viewList.
  destruct (lower (strip name) =? "exit"); [apply runs_print|].
  apply runs_bind; [apply runs_query; select_ok|]. intros wishlists.
  destruct (negb (mem name wishlists)); [apply runs_print|].
  intros w Hw. apply (runs_viewList_loop name (List.length (stdin w))). lia.
Qed.

Lemma runs_createList name n : runs R E n (createList name).
Proof.
  unfold createList.
  destruct (lower (strip name) =? "exit"); [apply runs_print|].
  apply runs_bind; [apply runs_query; select_ok|]. intros rows.
  destruct rows as [|r rows]; [|apply runs_print]. write_ok.
Qed.

Lemma runs_deleteList name n : runs R E n (deleteList name).
Proof.
  unfold deleteList.
  destruct (lower (strip name) =? "exit"); [apply runs_print|].
  apply runs_bind; [apply runs_query; select_ok|]. intros wishlists.
  destruct (negb (mem name wishlists)).
  - destruct (similar name wishlists); apply runs_print.
  - write_ok.
Qed.

Lemma runs_main_menu_loop n : runs R E n (main_menu_loop (S n)).
Proof.
  induction n as [|n IH]; cbn [main_menu_loop];
    (apply runs_bind; [apply runs_print_each|intros _]);
    apply runs_input_bind; intros choice; [exact I|].
  assert (Hnext : forall k, (k <= n)%nat -> runs R E k (main_menu_loop (S n))).
  { intros k Hk. apply runs_le with (n := n); assumption. }
  assert (Hshow : forall l k, runs R E k (show_wishlists l)).
  { intros l k. unfold show_wishlists.
    apply runs_bind; [apply runs_print|intros _; apply runs_print_each]. }
  destruct (choice =? "1").
  { unfold get_all_wishlists.
    apply runs_bind; [apply runs_query; select_ok|intros wishlists].
    apply runs_bind; [|intros _; exact IH].
    destruct wishlists; [apply runs_print|apply Hshow]. }
  destruct (choice =? "2").
  { apply runs_input_bind. intros line. destruct n as [|n']; [exact I|].
    destruct (lower (strip line) =? "exit").
    - apply runs_bind; [apply runs_print|intros _; apply Hnext; lia].
    - apply runs_bind; [apply runs_createList|intros _; apply Hnext; lia]. }
  destruct (choice =? "3").
  { unfold get_all_wishlists.
    apply runs_bind; [apply runs_query; select_ok|intros wishlists].
    destruct wishlists as [|x xs].
    { apply runs_bind; [apply runs_print|intros _; exact IH]. }
    apply runs_bind; [apply Hshow|intros _].
    apply runs_input_bind. intros line. destruct n as [|n']; [exact I|].
    destruct (lower (strip line) =? "exit").
    - apply runs_bind; [apply runs_print|intros _; apply Hnext; lia].
    - apply runs_bind; [apply runs_deleteList|intros _; apply Hnext; lia]. }
  destruct (choice =? "4").
  { apply runs_input_bind. intros line. destruct n as [|n']; [exact I|].
    destruct (lower (strip line) =? "exit").
    - apply runs_bind; [apply runs_print|intros _; apply Hnext; lia].
    - apply runs_bind; [apply runs_viewList|intros _; apply Hnext; lia]. }
  destruct ((choice =? "5") || (choice =? "exit")); [apply runs_print|].
  apply runs_bind; [apply runs_print|intros _; exact IH].
Qed.

Lemma runs_main_menu n : runs R E n main_menu.
Proof.
  intros w Hw. apply (runs_main_menu_loop (List.length (stdin w))). lia.
Qed.

End Rules.

End Effects.

(** ** Every write is committed *)

Module Durability.

Import PyStr Pg App Spec Steps Effects.

Lemma tidy_app l1 l2 : tidy l1 -> tidy l2 -> tidy (l1 ++ l2).
Proof.
  intros H1 H2. induction H1; simpl; [assumption | |].
  - apply tidy_read; assumption.
  - apply tidy_write; assumption.
Qed.

Lemma tidy_but_last_app l1 l2 : tidy l1 -> tidy_but_last l2 -> tidy_but_last (l1 ++ l2).
Proof.
  intros H1 [H2|[l0 [q (-> & Hq & H0)]]].
  - left. apply tidy_app; assumption.
  - right. exists (l1 ++ l0), q. rewrite app_assoc.
    split; [reflexivity|]. split; [assumption|]. apply tidy_app; assumption.
Qed.

Lemma between_refl (T : list sql -> Prop) w w' :
  issued w' = issued w -> T [] -> issued_between T w w'.
Proof. intros E H. exists []. rewrite app_nil_r. auto. Qed.

Lemma between_trans (T1 T2 T3 : list sql -> Prop) w1 w2 w3 :
  (forall l1 l2, T1 l1 -> T2 l2 -> T3 (l1 ++ l2)) ->
  issued_between T1 w1 w2 -> issued_between T2 w2 w3 -> issued_between T3 w1 w3.
Proof.
  intros H [l1 [E1 H1]] [l2 [E2 H2]]. exists (l1 ++ l2).
  rewrite E2, E1, app_assoc. auto.
Qed.

(** X1. In every run of the program each INSERT, UPDATE and DELETE is
    followed at once by [conn.commit()], and nothing is committed but
    these: when [main_menu] returns, every write it issued is committed;
    when it ends by an exception, every write is committed but, at most,
    the last statement, which the store has rejected. *)
Theorem writes_are_committed (w : world) :
  match main_menu w with
  | Ok _ w' => issued_between tidy w w'
  | Raise _ w' => issued_between tidy_but_last w w'
  | Fuel => False
  end.
Proof.
  pose proof (runs_main_menu (issued_between tidy) (issued_between tidy_but_last))
    as H.
  assert (Hrun : runs (issued_between tidy) (issued_between tidy_but_last)
                      (List.length (stdin w)) main_menu).
  { apply H.
    - intros w0. apply between_refl; [reflexivity | constructor].
    - intros w1 w2 w3. apply between_trans. apply tidy_app.
    - intros w1 w2 [l [El Hl]]. exists l. split; [assumption | left; assumption].
    - intros w1 w2 w3. apply between_trans. apply tidy_but_last_app.
    - intros w0 e. apply between_refl; [reflexivity | constructor].
    - intros w0 p rest. apply between_refl; [reflexivity | constructor].
    - intros w0 q Hq Hc. exists [q]. split; [reflexivity|].
      apply tidy_read; [assumption | assumption | constructor].
    - intros w0 q st Hq. exists [q; COMMIT]. simpl.
      split; [rewrite <- app_assoc; reflexivity|].
      apply tidy_write; [assumption | constructor].
    - intros w0 q Hq. exists [q]. split; [reflexivity|].
      right. exists [], q. repeat split; [assumption | constructor]. }
  specialize (Hrun w (le_n _)).
  destruct (main_menu w); tauto.
Qed.

End Durability.

(** ** What no run of the program changes *)

Module Program.

Import PyStr Pg App Spec Steps Runs Invariants Examples.
Local Open Scope prog_scope.

(** X2. No run of the program changes the catalog: the tables of the
    products and of the categories are, at the end, what they were at the
    start, whatever is typed. *)
Theorem catalog_is_read_only (w : world) :
  after (main_menu w)
        (fun w' => Products (db w') = Products (db w) /\
                   Categories (db w') = Categories (db w)).
Proof.
  apply (main_menu_safe
           (fun st => Products st = Products (db w) /\
                      Categories st = Categories (db w)));
    simpl; auto.
Qed.

(** X3. The registry stays well formed: from a registry in which no name
    is repeated and none is the cancel keyword, every run of the program
    ends with such a registry. *)
Theorem registry_stays_well_formed (w : world) :
  NoDup (List_Tracker (db w)) -> no_reserved_names (db w) ->
  after (main_menu w)
        (fun w' => NoDup (List_Tracker (db w')) /\ no_reserved_names (db w')).
Proof.
  intros Hnd Hres.
  apply (main_menu_safe (fun st => NoDup (List_Tracker st) /\ no_reserved_names st));
    unfold no_reserved_names; simpl; auto.
  - intros st name [H1 H2] Hx Hnin. split.
    + apply NoDup_app; [assumption | repeat constructor; simpl; tauto |].
      intros x Hx1 [<-|[]]. contradiction.
    + apply Forall_app. split; [assumption | repeat constructor; assumption].
  - intros st name [H1 H2]. split.
    + apply NoDup_filter. assumption.
    + apply Forall_filter. assumption.
Qed.

Lemma registry_stays_well_formed_witness :
  after (main_menu (session shop ["2"; "Road"; "2"; "Trail"; "3"; "Gravel"; "5"]))
        (fun w' => NoDup (List_Tracker (db w')) /\ no_reserved_names (db w')).
Proof.
  apply (registry_stays_well_formed
           (session shop ["2"; "Road"; "2"; "Trail"; "3"; "Gravel"; "5"])).
  - simpl. repeat constructor; simpl; intuition discriminate.
  - repeat constructor.
Defined.





End Program.

(** ** The browser of the catalog *)

Module Browser.

Import PyStr Pg App Spec Steps Effects Durability Examples.
Local Open Scope prog_scope.

Section Catalog.

Variable st0 : Store.

Let R := only_browses st0.

Lemma browses_refl w w' :
  db w' = db w -> issued w' = issued w -> R w w'.
Proof.
  intros Hd Hi. split; [assumption|]. apply between_refl; [assumption | constructor].
Qed.

Lemma browses_trans w1 w2 w3 : R w1 w2 -> R w2 w3 -> R w1 w3.
Proof.
  intros [D1 H1] [D2 H2]. split; [congruence|].
  eapply between_trans; [|exact H1|exact H2].
  intros l1 l2 F1 F2. apply Forall_app. auto.
Qed.

Lemma browses_query q w : browse_query st0 q -> R w (sent q w).
Proof.
  intros Hq. split; [reflexivity|]. exists [q]. split; [reflexivity|].
  constructor; [exact Hq | constructor].
Qed.

Ltac rel :=
  first [ intros; apply browses_refl; reflexivity
        | exact browses_trans
        | intros ? ? H; exact H ].

Ltac seq := apply (runs_bind R R); [rel | rel | | intros ?].
Ltac say := apply (runs_print R R); rel.
Ltac say_each := apply (runs_print_each R R); rel.
Ltac ask := apply (runs_input_bind R R); [rel | rel | rel | rel | rel | intros ?].

Lemma browse_fetch {B} categories c n (k : _ -> M B) :
  known_category categories c ->
  map fst categories = map category_id (Categories st0) ->
  (forall a, runs R R n (k a)) ->
  runs R R n (bind (fetch_products_by_category c) k).
Proof.
  intros Hc Hcat Hk. apply (runs_bind R R); [rel | rel | | exact Hk].
  unfold fetch_products_by_category.
  destruct c as [z|]; [destruct (Z.eqb z 0) eqn:Ez|];
    apply (runs_query R R); try rel; intros w; apply browses_query.
  - right. left. reflexivity.
  - right. right. exists z. split; [reflexivity|]. split.
    + apply Z.eqb_neq. exact Ez.
    + simpl in Hc. rewrite <- Hcat. exact Hc.
  - right. left. reflexivity.
Qed.

Lemma browse_loop n :
  forall categories current,
    known_category categories current ->
    map fst categories = map category_id (Categories st0) ->
    runs R R n (get_product_details_loop (S n) categories current).
Proof.
  induction n as [|n IH]; intros categories current Hc Hcat;
    cbn [get_product_details_loop];
    (apply (browse_fetch categories); [assumption | assumption | intros products]);
    (seq; [say|]);
    (seq; [destruct products; [say | say_each]|]);
    do 3 (seq; [say|]);
    ask; [exact I|].
  destruct (strip l =? "1").
  - seq; [say|]. seq; [say_each|]. seq; [say|]. ask.
    assert (Hrec : forall c, known_category categories c ->
                             match n with
                             | O => True
                             | S n' => runs R R n'
                                            (get_product_details_loop (S n) categories c)
                             end).
    { intros c Hkc. destruct n as [|n']; [exact I|].
      apply (runs_le R R) with (n := S n'); [lia | apply IH; assumption]. }
    destruct (lower (strip l0) =? "all"); [apply Hrec; exact I|].
    destruct (int (lower (strip l0))) as [z|].
    + destruct (existsb (fun cat => Z.eqb (fst cat) z) categories) eqn:Ex; simpl negb;
        cbv iota.
      * apply Hrec. simpl. apply existsb_exists in Ex.
        destruct Ex as [cat [Hin Hz]]. apply Z.eqb_eq in Hz. subst z.
        apply in_map. exact Hin.
      * specialize (Hrec None I). destruct n as [|n']; [exact I|].
        seq; [say | exact Hrec].
    + specialize (Hrec None I). destruct n as [|n']; [exact I|].
      seq; [say | exact Hrec].
  - destruct (strip l =? "2"); [apply (runs_ret R R); rel|].
    seq; [say | apply IH; assumption].
Qed.

End Catalog.

(** X5. The browser of the catalog only reads, and only what it knows:
    whatever is typed, [get_product_details] ends with the store it
    started with, having issued nothing but the SELECT of the categories
    and SELECTs of products, unfiltered or filtered by a category ID that
    is not 0 and is the ID of a category of the store. *)
Theorem browser_only_reads (w : world) :
  after (get_product_details w) (only_browses (db w) w).
Proof.
  unfold get_product_details, list_categories.
  erewrite bind_query by reflexivity.
  pose proof (browse_loop (db w) (List.length (stdin w))
                (map (fun c => (category_id c, category_name c)) (Categories (db w)))
                None I) as H.
  specialize (H (map_map _ _ _) (sent SELECT_categories w) (le_n _)).
  assert (H0 : only_browses (db w) w (sent SELECT_categories w)).
  { apply browses_query. left. reflexivity. }
  cbn [stdin sent] in *.
  destruct (get_product_details_loop _ _ _ _) as [a w'|e w'|]; simpl.
  - destruct H as [H _]. eapply browses_trans; eassumption.
  - eapply browses_trans; eassumption.
  - exact H.
Qed.

End Browser.

(** ** How the operations of the editor compose *)

Module Compose.

Import PyStr Pg App Spec StrFacts Steps Runs Invariants Examples Tactics.
Import Ownership Editor Quantity.
Local Open Scope prog_scope.

(** Choice 4 on a product the wishlist holds. *)
Lemma remove_item_present w wl id_line rest k :
  stdin w = id_line :: rest ->
  int4in (strip id_line) = Some k ->
  In (wl, k) (map key (Wish_List (db w))) ->
  remove_item wl w =
  Ok tt {| db := set_wish_list (db w)
                   (filter (fun r => negb (item_at wl k r)) (Wish_List (db w)));
           stdin := rest;
           stdout := stdout w ++
             [Prompt "Enter the product ID to remove (or type 'exit' to cancel): ";
              Out "Item removed successfully."];
           issued := issued w ++
             [SELECT_wish_item wl (PStr (strip id_line));
              DELETE_wish_item wl (PStr (strip id_line)); COMMIT] |}.
Proof.
  intros Hs Hk Hin. pose proof (int_not_exit _ _ Hk) as Hx. unfold remove_item.
  rewrite (bind_input _ _ w id_line rest Hs). cbv zeta. rewrite Hx.
  destruct (rows_selected wl k _ Hin) as [z [zs Hz]].
  erewrite bind_query
    by (unfold select_wish_item; simpl; rewrite Hk, Hz; reflexivity).
  cbv beta iota.
  erewrite bind_execute
    by (unfold delete_wish_item; simpl; rewrite Hk; reflexivity).
  rewrite bind_commit. unfold print, emit, sent. simpl.
  rewrite <- !app_assoc. reflexivity.
Qed.

Lemma filter_item_gone wl k l :
  filter (item_at wl k) (filter (fun r => negb (item_at wl k r)) l) = [].
Proof.
  induction l as [|r l IH]; simpl; [reflexivity|].
  destruct (item_at wl k r) eqn:E; simpl; [exact IH|]. rewrite E. exact IH.
Qed.

(** X6. Remove takes out of the wishlist the rows of the product, and no
    other row of any wishlist; asked again for the same product, it finds
    nothing, says so and leaves the store alone. *)
Theorem remove_then_absent w wl id1 id2 rest k :
  stdin w = id1 :: id2 :: rest ->
  int4in (strip id1) = Some k -> int4in (strip id2) = Some k ->
  In (wl, k) (map key (Wish_List (db w))) ->
  exists w1 w2,
    remove_item wl w = Ok tt w1 /\
    (forall r, In r (Wish_List (db w1)) <->
               In r (Wish_List (db w)) /\ key r <> (wl, k)) /\
    List_Tracker (db w1) = List_Tracker (db w) /\
    Products (db w1) = Products (db w) /\
    Categories (db w1) = Categories (db w) /\
    remove_item wl w1 = Ok tt w2 /\
    db w2 = db w1 /\
    issued w2 = issued w1 ++ [SELECT_wish_item wl (PStr (strip id2))] /\
    stdin w2 = rest /\
    stdout w2 = stdout w1 ++
      [Prompt "Enter the product ID to remove (or type 'exit' to cancel): ";
       Out ("Product ID " ++ strip id2 ++ " does not exist in the wishlist '"
            ++ wl ++ "'.")].
Proof.
  intros Hs Hk1 Hk2 Hin.
  eexists. eexists.
  split; [apply (remove_item_present w wl id1 (id2 :: rest) k); assumption|].
  cbn [db stdin set_wish_list Wish_List List_Tracker Products Categories].
  split.
  { intros r. rewrite filter_In, negb_true_iff. split.
    - intros [Hr Hn]. split; [assumption|]. intros Hkey.
      apply item_at_key in Hkey. congruence.
    - intros [Hr Hn]. split; [assumption|].
      destruct (item_at wl k r) eqn:E; [|reflexivity].
      apply item_at_key in E. contradiction. }
  do 3 (split; [reflexivity|]).
  split.
  { apply (remove_item_absent _ wl id2 rest k);
      [reflexivity | apply (int_not_exit _ _ Hk2) | assumption |].
    cbn [db set_wish_list Wish_List]. apply filter_item_gone. }
  cbn [db stdin stdout issued]. auto.
Qed.

Lemma remove_then_absent_witness :
  exists w1 w2,
    remove_item "Road" (session shop_with_item ["5"; " 05 "]) = Ok tt w1 /\
    Wish_List (db w1) = [] /\
    remove_item "Road" w1 = Ok tt w2 /\ db w2 = db w1.
Proof.
  destruct (remove_then_absent (session shop_with_item ["5"; " 05 "]) "Road"
              "5" " 05 " [] 5 eq_refl eq_refl eq_refl)
    as [w1 [w2 (H1 & H2 & _ & _ & _ & H6 & H7 & _)]].
  - simpl. auto.
  - exists w1, w2. split; [exact H1|]. split; [|auto].
    destruct (Wish_List (db w1)) as [|r l] eqn:E; [reflexivity|].
    exfalso. destruct (H2 r) as [H _].
    destruct (H (or_introl eq_refl)) as [Hin Hkey].
    simpl in Hin. destruct Hin as [<-|[]]. apply Hkey. reflexivity.
Defined.

Lemma filter_new_row wl k q l :
  filter (item_at wl k) l = [] ->
  filter (fun r => negb (item_at wl k r)) (l ++ [new_row wl k q]) = l.
Proof.
  intros H. rewrite filter_app. simpl.
  assert (E : item_at wl k (new_row wl k q) = true).
  { apply item_at_key. reflexivity. }
  rewrite E. simpl. rewrite app_nil_r.
  induction l as [|r l IH]; simpl in *; [reflexivity|].
  destruct (item_at wl k r); [discriminate|]. simpl. rewrite IH by assumption.
  reflexivity.
Qed.

(** X7. Adding to a wishlist of the registry a product of the catalog that
    the wishlist does not hold, and then removing it, gives back the store
    as it was before. *)
Theorem add_then_remove w wl id1 qty_line id2 rest k q :
  stdin w = id1 :: qty_line :: id2 :: rest ->
  int4in (strip id1) = Some k -> int4in (strip id2) = Some k ->
  (lower (strip qty_line) =? "exit") = false ->
  int (strip qty_line) = Some q -> int4 q = true ->
  filter (item_at wl k) (Wish_List (db w)) = [] ->
  In wl (List_Tracker (db w)) ->
  In k (map product_id (Products (db w))) ->
  exists w1 w2,
    add_item_by_id wl w = Ok tt w1 /\
    Wish_List (db w1) = Wish_List (db w) ++ [new_row wl k q] /\
    remove_item wl w1 = Ok tt w2 /\
    db w2 = db w /\ stdin w2 = rest.
Proof.
  intros Hs Hk1 Hk2 Hxq Hq Hr Hnone Hwl Hcat.
  eexists. eexists.
  split.
  { rewrite (add_item_by_id_step w wl id1 _ Hs (int_not_exit _ _ Hk1)).
    apply (add_checked_insert _ wl _ k qty_line (id2 :: rest) q); auto. }
  cbn [db set_wish_list Wish_List]. split; [reflexivity|].
  split.
  { apply (remove_item_present _ wl id2 rest k); [reflexivity | assumption |].
    cbn [db set_wish_list Wish_List]. rewrite map_app. apply in_or_app. right.
    simpl. auto. }
  cbn [db stdin set_wish_list Wish_List List_Tracker Products Categories].
  split; [|reflexivity].
  rewrite filter_new_row by assumption. destruct (db w); reflexivity.
Qed.

Lemma add_then_remove_witness :
  exists w1 w2,
    add_item_by_id "Road" (session shop_with_item ["6"; "3"; "+6"]) = Ok tt w1 /\
    Wish_List (db w1) = [new_row "Road" 5 2; new_row "Road" 6 3] /\
    remove_item "Road" w1 = Ok tt w2 /\
    db w2 = shop_with_item /\ stdin w2 = [].
Proof.
  apply (add_then_remove (session shop_with_item ["6"; "3"; "+6"]) "Road"
           "6" "3" "+6" [] 6 3); try reflexivity; simpl; auto.
Defined.

Lemma update_swap wl k1 k2 b q (l : list WishRow) :
  map (fun r => if item_at wl k2 r then with_owned b r else r)
      (map (fun r => if item_at wl k1 r then with_number q r else r) l) =
  map (fun r => if item_at wl k1 r then with_number q r else r)
      (map (fun r => if item_at wl k2 r then with_owned b r else r) l).
Proof.
  rewrite !map_map. apply map_ext. intros r.
  destruct (item_at wl k1 r) eqn:E1, (item_at wl k2 r) eqn:E2;
    unfold item_at in *; cbn [with_number with_owned wl_name wl_product_id];
    rewrite ?E1, ?E2; reflexivity.
Qed.

(** X8. Modify-Quantity and Modify-Ownership commute: run in either order,
    on the same or on different products of the wishlist, they end in the
    same store. *)
Theorem quantity_and_ownership_commute
  wa wb wl idq qty_line ido answer rest kq ko q :
  db wa = db wb ->
  stdin wa = idq :: qty_line :: ido :: answer :: rest ->
  stdin wb = ido :: answer :: idq :: qty_line :: rest ->
  int4in (strip idq) = Some kq -> int4in (strip ido) = Some ko ->
  In (wl, kq) (map key (Wish_List (db wa))) ->
  (lower (strip qty_line) =? "exit") = false ->
  int (strip qty_line) = Some q -> int4 q = true ->
  (lower (strip answer) =? "exit") = false ->
  exists wa1 wa2 wb1 wb2,
    modify_quantity wl wa = Ok tt wa1 /\ modify_ownership wl wa1 = Ok tt wa2 /\
    modify_ownership wl wb = Ok tt wb1 /\ modify_quantity wl wb1 = Ok tt wb2 /\
    db wa2 = db wb2 /\ stdin wa2 = rest /\ stdin wb2 = rest.
Proof.
  intros Hdb Hsa Hsb Hkq Hko Hin Hxq Hq Hr Hxa.
  pose proof (int_not_exit _ _ Hkq) as Hxkq.
  pose proof (int_not_exit _ _ Hko) as Hxko.
  eexists. eexists. eexists. eexists.
  split.
  { rewrite (modify_quantity_step wa wl idq qty_line _ kq Hsa Hxkq Hkq Hin Hxq).
    cbv zeta. rewrite Hq.
    erewrite bind_execute
      by (unfold update_number; simpl; rewrite Hkq, Hr; reflexivity).
    rewrite bind_commit. reflexivity. }
  split.
  { apply (modify_ownership_run _ wl ido answer rest ko);
      [reflexivity | assumption | assumption | assumption]. }
  split.
  { apply (modify_ownership_run wb wl ido answer _ ko Hsb Hxko Hxa Hko). }
  split.
  { erewrite (modify_quantity_step _ wl idq qty_line rest kq);
      [ | reflexivity | assumption | assumption | | assumption ].
    - cbv zeta. rewrite Hq.
      erewrite bind_execute
        by (unfold update_number; simpl; rewrite Hkq, Hr; reflexivity).
      rewrite bind_commit. reflexivity.
    - cbn [db set_wish_list Wish_List]. rewrite map_key_update by reflexivity. rewrite <- Hdb. exact Hin. }
  unfold print, emit, sent.
  cbn [db stdin set_wish_list Wish_List List_Tracker Products Categories].
  split; [|split; reflexivity].
  rewrite update_swap, Hdb. reflexivity.
Qed.

Lemma quantity_and_ownership_commute_witness :
  exists wa1 wa2 wb1 wb2,
    modify_quantity "Road" (session shop_with_item ["5"; "7"; "5"; "yes"]) = Ok tt wa1 /\
    modify_ownership "Road" wa1 = Ok tt wa2 /\
    modify_ownership "Road" (session shop_with_item ["5"; "yes"; "5"; "7"]) = Ok tt wb1 /\
    modify_quantity "Road" wb1 = Ok tt wb2 /\
    db wa2 = db wb2 /\ stdin wa2 = [] /\ stdin wb2 = [].
Proof.
  apply (quantity_and_ownership_commute
           (session shop_with_item ["5"; "7"; "5"; "yes"])
           (session shop_with_item ["5"; "yes"; "5"; "7"])
           "Road" "5" "7" "5" "yes" [] 5 5 7); try reflexivity.
  simpl. auto.
Defined.





End Compose.

(** ** The life of a wishlist in the registry *)

Module Lifecycle.

Import PyStr Pg App Spec StrFacts Steps Runs Invariants Examples Registry Compose.
Local Open Scope prog_scope.

Lemma select_absent name l :
  ~ In name l -> filter (fun n => String.eqb n name) l = [].
Proof.
  induction l as [|x l IH]; simpl; [reflexivity|].
  intros H. destruct (String.eqb x name) eqn:E.
  - apply String.eqb_eq in E. tauto.
  - apply IH. tauto.
Qed.

(** [createList] on a name the registry does not hold. *)
Lemma createList_new w name :
  (lower (strip name) =? "exit") = false ->
  ~ In name (List_Tracker (db w)) ->
  createList name w =
  Ok tt {| db := set_list_tracker (db w) (List_Tracker (db w) ++ [name]);
           stdin := stdin w;
           stdout := stdout w ++ [Out ("Wishlist '" ++ name ++ "' added successfully.")];
           issued := issued w ++ [SELECT_wishlist name; INSERT_wishlist name; COMMIT] |}.
Proof.
  intros Hx Hn. unfold createList. rewrite Hx.
  assert (Ew : has_wishlist name (db w) = false).
  { destruct (has_wishlist name (db w)) eqn:E; [|reflexivity].
    apply has_wishlist_In in E. contradiction. }
  erewrite bind_query
    by (unfold select_wishlist; rewrite (select_absent _ _ Hn); reflexivity).
  cbv beta iota.
  erewrite bind_execute
    by (unfold insert_wishlist; cbn [db sent]; rewrite Ew; reflexivity).
  rewrite bind_commit. unfold print, emit, sent. simpl.
  rewrite <- !app_assoc. reflexivity.
Qed.

(** [deleteList] on a name the registry holds, of a wishlist without
    items. *)
Lemma deleteList_present w name :
  (lower (strip name) =? "exit") = false ->
  In name (List_Tracker (db w)) ->
  ~ In name (map wl_name (Wish_List (db w))) ->
  deleteList name w =
  Ok tt {| db := set_list_tracker (db w)
                   (filter (fun n => negb (String.eqb n name)) (List_Tracker (db w)));
           stdin := stdin w;
           stdout := stdout w ++ [Out ("Wishlist '" ++ name ++ "' removed successfully.")];
           issued := issued w ++ [SELECT_wishlist_names; DELETE_wishlist name; COMMIT] |}.
Proof.
  intros Hx Hin Hnone. unfold deleteList. rewrite Hx.
  erewrite bind_query by reflexivity.
  apply mem_In in Hin. rewrite Hin. cbn [negb].
  apply has_items_none in Hnone.
  erewrite bind_execute
    by (unfold delete_wishlist; cbn [db sent]; rewrite Hnone, andb_false_r;
        reflexivity).
  rewrite bind_commit. unfold print, emit, sent. simpl.
  rewrite <- !app_assoc. reflexivity.
Qed.

(** [deleteList] on a name the registry holds, of a wishlist that has
    items: the store turns the DELETE down. *)
Lemma deleteList_with_items w name :
  (lower (strip name) =? "exit") = false ->
  In name (List_Tracker (db w)) ->
  In name (map wl_name (Wish_List (db w))) ->
  deleteList name w =
  Raise IntegrityError
        {| db := db w; stdin := stdin w; stdout := stdout w;
           issued := issued w ++ [SELECT_wishlist_names; DELETE_wishlist name] |}.
Proof.
  intros Hx Hin Hitems. unfold deleteList. rewrite Hx.
  erewrite bind_query by reflexivity.
  pose proof Hin as Hm. apply mem_In in Hm. rewrite Hm. cbn [negb].
  apply has_wishlist_In in Hin. apply has_items_In in Hitems.
  unfold bind, execute, delete_wishlist. cbn [db sent].
  rewrite Hin, Hitems. cbn [andb]. unfold sent. simpl.
  rewrite <- !app_assoc. reflexivity.
Qed.

Lemma no_items_of_absent st name :
  wishlists_exist st -> ~ In name (List_Tracker st) ->
  ~ In name (map wl_name (Wish_List st)).
Proof.
  unfold wishlists_exist. rewrite Forall_forall. intros H Hn Hin.
  apply in_map_iff in Hin. destruct Hin as [r [<- Hr]]. exact (Hn (H r Hr)).
Qed.

Lemma filter_appended name (l : list string) :
  ~ In name l -> filter (fun n => negb (String.eqb n name)) (l ++ [name]) = l.
Proof.
  intros H. rewrite filter_app. simpl. rewrite String.eqb_refl. simpl.
  rewrite app_nil_r. apply filter_absent. assumption.
Qed.

Lemma not_in_filtered name (l : list string) :
  ~ In name (filter (fun n => negb (String.eqb n name)) l).
Proof.
  intros H. apply filter_In in H. destruct H as [_ H].
  rewrite String.eqb_refl in H. discriminate.
Qed.

(** X10. Creating a wishlist under a new name and deleting it again gives
    back the store as it was: the name is appended to the registry by the
    one and taken out by the other, and nothing else is touched.  The
    store is one whose rows of [Wish_List] name wishlists of the registry,
    as its schema has it, so that the new wishlist has no items. *)
Theorem create_then_delete w name :
  (lower (strip name) =? "exit") = false ->
  ~ In name (List_Tracker (db w)) ->
  wishlists_exist (db w) ->
  exists w1 w2,
    createList name w = Ok tt w1 /\
    List_Tracker (db w1) = List_Tracker (db w) ++ [name] /\
    deleteList name w1 = Ok tt w2 /\
    db w2 = db w /\ stdin w2 = stdin w.
Proof.
  intros Hx Hn Hw. eexists. eexists.
  split; [apply createList_new; assumption|].
  cbn [db set_list_tracker List_Tracker]. split; [reflexivity|].
  split.
  { apply deleteList_present; [assumption| |].
    - cbn [db set_list_tracker List_Tracker]. apply in_or_app. right. left. reflexivity.
    - cbn [db set_list_tracker Wish_List]. apply no_items_of_absent; assumption. }
  cbn [db stdin set_list_tracker List_Tracker Categories Products Wish_List].
  split; [|reflexivity].
  rewrite filter_appended by assumption. destruct (db w); reflexivity.
Qed.

Lemma create_then_delete_witness :
  exists w1 w2,
    createList "Touring" (session shop_with_item []) = Ok tt w1 /\
    List_Tracker (db w1) = ["Road"; "Gravel"; "Touring"] /\
    deleteList "Touring" w1 = Ok tt w2 /\
    db w2 = shop_with_item /\ stdin w2 = [].
Proof.
  apply (create_then_delete (session shop_with_item []) "Touring");
    [reflexivity| |].
  - simpl. intros [H|[H|[]]]; discriminate.
  - repeat constructor; simpl; auto.
Defined.

(** The editor changes rows of its own wishlist only. *)
Lemma other_rows_update name k (f : WishRow -> WishRow) l :
  (forall r, wl_name (f r) = wl_name r) ->
  filter (fun r => negb (String.eqb (wl_name r) name))
         (map (fun r => if item_at name k r then f r else r) l) =
  filter (fun r => negb (String.eqb (wl_name r) name)) l.
Proof.
  intros Hf. induction l as [|r l IH]; simpl; [reflexivity|].
  rewrite IH. unfold item_at.
  destruct (String.eqb (wl_name r) name) eqn:E; simpl.
  - destruct (Z.eqb (wl_product_id r) k); [rewrite Hf|]; rewrite E; reflexivity.
  - rewrite E. reflexivity.
Qed.

Lemma other_rows_delete name k l :
  filter (fun r => negb (String.eqb (wl_name r) name))
         (filter (fun r => negb (item_at name k r)) l) =
  filter (fun r => negb (String.eqb (wl_name r) name)) l.
Proof.
  induction l as [|r l IH]; simpl; [reflexivity|].
  unfold item_at at 1.
  destruct (String.eqb (wl_name r) name) eqn:E; simpl.
  - destruct (Z.eqb (wl_product_id r) k); simpl; rewrite ?E; exact IH.
  - rewrite E. simpl. rewrite IH. reflexivity.
Qed.

Lemma no_items_left name k l :
  (forall r, In r l -> wl_name r = name -> wl_product_id r = k) ->
  ~ In name (map wl_name (filter (fun r => negb (item_at name k r)) l)).
Proof.
  intros H Hin. apply in_map_iff in Hin. destruct Hin as [r [Hn Hr]].
  apply filter_In in Hr. destruct Hr as [Hr Hneg].
  apply negb_true_iff in Hneg. unfold item_at in Hneg.
  rewrite Hn, String.eqb_refl, (H r Hr Hn), Z.eqb_refl in Hneg. discriminate.
Qed.

(** X11. A wishlist that has items cannot be deleted: the store turns the
    DELETE of [deleteList] down and the call ends by the error with every
    table as it was.  Once its items are removed in the editor,
    [deleteList] takes its name out of the registry. *)
Theorem items_removed_then_deleted w name id_line rest k :
  stdin w = id_line :: rest ->
  int4in (strip id_line) = Some k ->
  (lower (strip name) =? "exit") = false ->
  In name (List_Tracker (db w)) ->
  In (name, k) (map key (Wish_List (db w))) ->
  (forall r, In r (Wish_List (db w)) -> wl_name r = name -> wl_product_id r = k) ->
  (exists w0,
     deleteList name w = Raise IntegrityError w0 /\ db w0 = db w /\
     issued w0 = issued w ++ [SELECT_wishlist_names; DELETE_wishlist name]) /\
  (exists w1 w2,
     remove_item name w = Ok tt w1 /\
     deleteList name w1 = Ok tt w2 /\
     List_Tracker (db w2) =
       filter (fun n => negb (String.eqb n name)) (List_Tracker (db w)) /\
     ~ In name (map wl_name (Wish_List (db w2))) /\
     other_rows name (db w2) = other_rows name (db w)).
Proof.
  intros Hs Hk Hx Hin Hrow Honly. split.
  - assert (Hitems : In name (map wl_name (Wish_List (db w)))).
    { apply in_map_iff in Hrow. destruct Hrow as [r [Hr Hr']].
      apply in_map_iff. exists r. split; [|assumption].
      unfold key in Hr. congruence. }
    eexists. split; [apply deleteList_with_items; assumption|].
    split; reflexivity.
  - eexists. eexists.
    split; [apply (remove_item_present w name id_line rest k); assumption|].
    split.
    { apply deleteList_present; [assumption | exact Hin |].
      cbn [db set_wish_list Wish_List]. apply no_items_left. exact Honly. }
    cbn [db set_wish_list set_list_tracker List_Tracker Wish_List].
    split; [reflexivity|]. split; [apply no_items_left; exact Honly|].
    unfold other_rows. cbn [set_list_tracker set_wish_list Wish_List].
    apply other_rows_delete.
Qed.

Lemma items_removed_then_deleted_witness :
  (exists w0, deleteList "Road" (session shop_with_item ["5"]) = Raise IntegrityError w0 /\
              db w0 = shop_with_item) /\
  (exists w1 w2,
     remove_item "Road" (session shop_with_item ["5"]) = Ok tt w1 /\
     deleteList "Road" w1 = Ok tt w2 /\
     List_Tracker (db w2) = ["Gravel"]).
Proof.
  destruct (items_removed_then_deleted (session shop_with_item ["5"]) "Road" "5" [] 5
              eq_refl eq_refl eq_refl) as [[w0 (H1 & H2 & _)] [w1 [w2 (H3 & H4 & H5 & _)]]].
  - simpl. auto.
  - simpl. auto.
  - simpl. intros r [<-|[]] _. reflexivity.
  - split; [exists w0; auto|]. exists w1, w2. auto.
Defined.

(** X12. A session of the editor of one wishlist, whatever is typed in it,
    ends and leaves the rows of every other wishlist, the registry and the
    catalog as they were. *)
Theorem viewList_edits_one_wishlist w name :
  after (viewList name w)
        (fun w' => other_rows name (db w') = other_rows name (db w) /\
                   List_Tracker (db w') = List_Tracker (db w) /\
                   Products (db w') = Products (db w) /\
                   Categories (db w') = Categories (db w)).
Proof.
  pose (J := fun st => other_rows name st = other_rows name (db w) /\
                       List_Tracker st = List_Tracker (db w) /\
                       Products st = Products (db w) /\
                       Categories st = Categories (db w)).
  assert (H : safe J J (List.length (stdin w)) (viewList name)).
  { apply viewList_keeps; unfold J, other_rows;
      cbn [set_wish_list Wish_List List_Tracker Products Categories].
    - intros st k q (H1 & H2 & H3 & H4) _ _ _ _.
      rewrite filter_app. cbn [filter new_row wl_name].
      rewrite String.eqb_refl. cbn [negb]. rewrite app_nil_r. auto.
    - intros st k (H1 & H2 & H3 & H4). rewrite other_rows_delete. auto.
    - intros st k q (H1 & H2 & H3 & H4) _.
      rewrite other_rows_update by reflexivity. auto.
    - intros st k b (H1 & H2 & H3 & H4).
      rewrite other_rows_update by reflexivity. auto. }
  eapply after_imp; [apply H; [apply le_n | unfold J; auto]|].
  intros w' [Hj _]. exact Hj.
Qed.

End Lifecycle.

(** ** Edge cases of the menus *)

Module Edges.

Import PyStr Pg App Spec StrFacts Steps Runs Invariants Examples Registry Lifecycle.
Local Open Scope prog_scope.

Lemma find_category k l c :
  find (fun c => Z.eqb (category_id c) k) l = Some c ->
  find (fun cat : Z * string => Z.eqb (fst cat) k)
       (map (fun c => (category_id c, category_name c)) l) =
  Some (category_id c, category_name c) /\
  existsb (fun cat : Z * string => Z.eqb (fst cat) k)
          (map (fun c => (category_id c, category_name c)) l) = true.
Proof.
  induction l as [|x l IH]; simpl; [discriminate|].
  destruct (Z.eqb (category_id x) k) eqn:E.
  - intros H. injection H as ->. auto.
  - intros H. rewrite orb_false_l. auto.
Qed.

Lemma zero_not_all s : int s = Some 0%Z -> (s =? "all") = false.
Proof.
  intros H. destruct (s =? "all") eqn:E; [|reflexivity].
  apply String.eqb_eq in E. subst s. vm_compute in H. discriminate.
Qed.

Lemma show_products_run (products : list (Z * string * string)) u :
  exists out,
    (match products with
     | [] => print "No products found."
     | _ :: _ =>
         print_each
           (map (fun p => ("ID: " ++ str_of_int (fst (fst p)) ++ ", Name: "
                               ++ snd (fst p) ++ ", Type: " ++ snd p)%string)
                products)
     end) u =
    Ok tt {| db := db u; stdin := stdin u; stdout := stdout u ++ out;
             issued := issued u |}.
Proof.
  destruct products as [|p ps].
  - exists [Out "No products found."]. reflexivity.
  - eexists. apply print_each_run.
Qed.

(** X13. In the browser a category is "chosen" when its ID is non-zero:
    after the answer 0 at the category prompt, in a store that has a
    category 0, the heading names that category and the list under it is
    the whole catalog, fetched without a filter. *)
Theorem category_zero_lists_all w line c0 :
  stdin w = ["1"; line] ->
  int (lower (strip line)) = Some 0%Z ->
  find (fun c => Z.eqb (category_id c) 0) (Categories (db w)) = Some c0 ->
  exists w',
    get_product_details w = Raise EOFError w' /\
    db w' = db w /\
    issued w' = issued w ++
      [SELECT_categories; SELECT_products None; SELECT_products None] /\
    In (Out (nl ++ "Available Products (Category: " ++ category_name c0 ++ "):"))
       (stdout w').
Proof.
  intros Hs Hint Hfind.
  destruct (find_category 0 _ c0 Hfind) as [Hf He].
  pose proof (zero_not_all _ Hint) as Hall.
  assert (Hid : category_id c0 = 0%Z).
  { apply find_some in Hfind. destruct Hfind as [_ H]. apply Z.eqb_eq in H. exact H. }
  unfold get_product_details, list_categories.
  erewrite bind_query by reflexivity.
  cbn [sent stdin List.length]. rewrite Hs. cbn [List.length].
  set (cats := map (fun c => (category_id c, category_name c)) (Categories (db w))) in *.
  cbn [get_product_details_loop fetch_products_by_category].
  erewrite bind_query by reflexivity.
  rewrite bind_print.
  unfold bind at 1.
  match goal with
  | |- context [match (match ?l with [] => _ | _ :: _ => _ end) ?u
                with Ok _ _ => _ | Raise _ _ => _ | Fuel => _ end] =>
      destruct (show_products_run l u) as [out1 ->]
  end.
  rewrite !bind_print.
  erewrite bind_input by (cbn; exact Hs).
  cbv zeta. change (strip "1") with "1". cbn [String.eqb Ascii.eqb Bool.eqb andb].
  rewrite bind_print.
  unfold bind at 1. rewrite print_each_run.
  rewrite bind_print.
  erewrite bind_input by reflexivity.
  cbv zeta. rewrite Hall, Hint, He. cbn [negb].
  cbn [get_product_details_loop fetch_products_by_category Z.eqb].
  erewrite bind_query by reflexivity.
  rewrite bind_print.
  unfold bind at 1.
  match goal with
  | |- context [match (match ?l with [] => _ | _ :: _ => _ end) ?u
                with Ok _ _ => _ | Raise _ _ => _ | Fuel => _ end] =>
      destruct (show_products_run l u) as [out2 ->]
  end.
  rewrite !bind_print.
  rewrite bind_input_eof by reflexivity.
  eexists. split; [reflexivity|].
  split; [reflexivity|].
  split; [cbn [emit sent issued]; rewrite <- !app_assoc; reflexivity|].
  cbn [emit sent stdout].
  unfold category_label. rewrite Hf. cbn [snd].
  rewrite !in_app_iff. cbn [In]. tauto.
Qed.

Lemma category_zero_lists_all_witness :
  exists w',
    get_product_details (session shop_with_misc ["1"; " 0 "]) = Raise EOFError w' /\
    issued w' = [SELECT_categories; SELECT_products None; SELECT_products None] /\
    In (Out (nl ++ "Available Products (Category: Misc):")) (stdout w').
Proof.
  destruct (category_zero_lists_all (session shop_with_misc ["1"; " 0 "]) " 0 " misc
              eq_refl eq_refl eq_refl) as [w' (H1 & _ & H3 & H4)].
  exists w'. auto.
Defined.









End Edges.

(** ** The start of the program *)

Module Startup.

Import PyStr Pg App Boot Spec StartSpec Examples.
Local Open Scope boot_scope.

Lemma asks_app l1 l2 : asks (l1 ++ l2) = (asks l1 + asks l2)%nat.
Proof. unfold asks. rewrite filter_app, length_app. reflexivity. Qed.

Lemma connects_app l1 l2 : connects (l1 ++ l2) = connects l1 ++ connects l2.
Proof. unfold connects. apply flat_map_app. Qed.

Lemma added_trans c1 c2 c3 l1 l2 :
  added c1 c2 l1 -> added c2 c3 l2 -> added c1 c3 (l1 ++ l2).
Proof. unfold added. intros H1 H2. rewrite H2, H1, app_assoc. reflexivity. Qed.

(** The password dialogue with [a] attempts left. *)
Lemma get_password_loop_run a c :
  match get_password_loop a c with
  | Done p c' =>
      p <> "" /\
      exists j new, (j < a)%nat /\ lines c = repeat "" j ++ p :: lines c' /\
                    added c c' new /\ asks new = S j /\ connects new = []
  | Halt SystemExit c' =>
      lines c = repeat "" a ++ lines c' /\
      exists new, added c c' new /\ asks new = a /\ connects new = []
  | Halt NoInput c' =>
      lines c' = [] /\
      exists j new, (j < a)%nat /\ lines c = repeat "" j /\
                    added c c' new /\ asks new = S j /\ connects new = []
  | Halt (ConnectError _) _ => False
  end.
Proof.
  revert c. induction a as [|a IH]; intros c.
  - cbn. split; [reflexivity|].
    exists [Say "Maximum attempts exceeded. Press any key to exit program..."; Key].
    split; [unfold added; cbn; rewrite <- app_assoc; reflexivity|]. split; reflexivity.
  - cbn [get_password_loop]. unfold then_ at 1, getpass.
    destruct (lines c) as [|l rest] eqn:El.
    + split; [cbn [lines log]; exact El|].
      exists 0%nat, [Ask "Enter your database password: "].
      split; [lia|]. split; [reflexivity|]. split; [reflexivity|]. split; reflexivity.
    + destruct (l =? "") eqn:E.
      * apply String.eqb_eq in E. subst l.
        unfold then_ at 1, say.
        set (note := Say ("Invalid input. You have " ++ str_of_int (Z.of_nat a)
                          ++ " attempts remaining.")).
        set (c1 := log note _).
        assert (Hc1 : added c c1 [Ask "Enter your database password: "; note]).
        { unfold added, c1. cbn [shown log]. rewrite <- app_assoc. reflexivity. }
        assert (Hl1 : lines c1 = rest) by reflexivity.
        specialize (IH c1). destruct (get_password_loop a c1) as [p c'|e c'].
        -- destruct IH as [Hp [j [new (Hj & Hl & Ha & Hk & Hc)]]].
           split; [assumption|].
           exists (S j), ([Ask "Enter your database password: "; note] ++ new).
           split; [lia|]. split; [cbn [repeat List.app]; rewrite <- Hl, Hl1; reflexivity|].
           split; [exact (added_trans _ _ _ _ _ Hc1 Ha)|].
           rewrite asks_app, connects_app, Hk, Hc. split; reflexivity.
        -- destruct e as [| |d]; [| |exact IH].
           ++ destruct IH as [Hl [new (Ha & Hk & Hc)]].
              split; [cbn [repeat List.app]; rewrite <- Hl, Hl1; reflexivity|].
              exists ([Ask "Enter your database password: "; note] ++ new).
              split; [exact (added_trans _ _ _ _ _ Hc1 Ha)|].
              rewrite asks_app, connects_app, Hk, Hc. split; reflexivity.
           ++ destruct IH as [Hn [j [new (Hj & Hl & Ha & Hk & Hc)]]].
              split; [assumption|].
              exists (S j), ([Ask "Enter your database password: "; note] ++ new).
              split; [lia|]. split; [cbn [repeat]; rewrite <- Hl, Hl1; reflexivity|].
              split; [exact (added_trans _ _ _ _ _ Hc1 Ha)|].
              rewrite asks_app, connects_app, Hk, Hc. split; reflexivity.
      * unfold unit_. split.
        -- intros ->. discriminate.
        -- exists 0%nat, [Ask "Enter your database password: "].
           split; [lia|]. split; [reflexivity|]. split; [reflexivity|].
           split; reflexivity.
Qed.

(** X15. [get_password] returns the first entry that is not empty when
    there is one among the first three, having asked once for it and once
    for each empty entry before it; after three empty entries it asks no
    fourth time and exits; it never returns the empty password. *)
Theorem get_password_cases c :
  match get_password c with
  | Done p c' =>
      p <> "" /\
      exists j new, (j < 3)%nat /\ lines c = repeat "" j ++ p :: lines c' /\
                    added c c' new /\ asks new = S j
  | Halt SystemExit c' =>
      lines c = "" :: "" :: "" :: lines c' /\
      exists new, added c c' new /\ asks new = 3%nat
  | Halt NoInput c' =>
      lines c' = [] /\ exists j, (j < 3)%nat /\ lines c = repeat "" j
  | Halt (ConnectError _) _ => False
  end.
Proof.
  unfold get_password. pose proof (get_password_loop_run 3 c) as H.
  destruct (get_password_loop 3 c) as [p c'|[| |d] c'].
  - destruct H as [Hp [j [new (Hj & Hl & Ha & Hk & _)]]]. eauto 10.
  - destruct H as [Hl [new (Ha & Hk & _)]]. eauto.
  - destruct H as [Hn [j [new (Hj & Hl & _)]]]. eauto.
  - exact H.
Qed.

Lemma connect_loop_run srv a c :
  match connect_loop srv a c with
  | Done conn c' =>
      bounded a c c' /\
      (exists used, lines c = used ++ lines c') /\
      match conn with
      | Some st =>
          exists a' p before,
            p <> "" /\ srv a' (conninfo p) = Connection st /\
            shown c' = before ++ [Connect (conninfo p)]
      | None => True
      end
  | Halt e c' => bounded a c c'
  end.
Proof.
  revert c. induction a as [|a IH]; intros c.
  - cbn. split; [|split; [exists []; reflexivity | exact I]].
    exists []. unfold added. rewrite app_nil_r. cbn. auto.
  - cbn [connect_loop]. unfold then_ at 1. unfold get_password.
    pose proof (get_password_loop_run 3 c) as Hp.
    destruct (get_password_loop 3 c) as [p c1|e c1].
    + destruct Hp as [Hne [j [new1 (Hj & Hl & Ha & Hk & Hc)]]].
      unfold then_ at 1, get_connection.
      destruct (srv (S a) (conninfo p)) as [st|d|d] eqn:Es.
      * unfold unit_. split; [|split].
        -- exists (new1 ++ [Connect (conninfo p)]). split; [|split; [|split]].
           ++ unfold added in *. cbn [shown log]. rewrite Ha, app_assoc. reflexivity.
           ++ rewrite asks_app, Hk. cbn. lia.
           ++ rewrite connects_app, Hc. cbn. lia.
           ++ rewrite connects_app, Hc. cbn. repeat constructor.
              exists p. auto.
        -- exists (repeat "" j ++ [p]). cbn [lines log].
           rewrite Hl, <- app_assoc. reflexivity.
        -- exists (S a), p, (shown c1). auto.
      * unfold then_ at 1, then_ at 1, say, unit_, then_ at 1.
        match goal with |- match connect_loop srv a ?c2 with _ => _ end =>
          specialize (IH c2);
          assert (Hpre : added c c2
                    (new1 ++ [Connect (conninfo p);
                              Say "Error: Unable to connect to the database.";
                              Say ("Details: " ++ d);
                              Say ("Connection failed. You have "
                                   ++ str_of_int (Z.of_nat a)
                                   ++ " attempts remaining.")]));
          [unfold added in *; cbn [shown log]; rewrite Ha, <- !app_assoc; reflexivity|];
          assert (Hlines : lines c = (repeat "" j ++ [p]) ++ lines c2);
          [cbn [lines log]; rewrite Hl, <- app_assoc; reflexivity|];
          destruct (connect_loop srv a c2) as [conn c'|e c']
        end.
        -- destruct IH as [[new2 (Ha2 & Hk2 & Hc2 & Hf2)] [[used Hu] Hconn]].
           split; [|split].
           ++ eexists. split; [exact (added_trans _ _ _ _ _ Hpre Ha2)|].
              rewrite !asks_app, !connects_app, Hk, Hc, length_app.
              cbn. split; [lia|]. split; [lia|].
              constructor; [exists p; auto | assumption].
           ++ eexists. rewrite Hlines, Hu, app_assoc. reflexivity.
           ++ exact Hconn.
        -- destruct IH as [new2 (Ha2 & Hk2 & Hc2 & Hf2)].
           eexists. split; [exact (added_trans _ _ _ _ _ Hpre Ha2)|].
           rewrite !asks_app, !connects_app, Hk, Hc, length_app.
           cbn. split; [lia|]. split; [lia|].
           constructor; [exists p; auto | assumption].
      * exists (new1 ++ [Connect (conninfo p)]). split; [|split; [|split]].
        -- unfold added in *. cbn [shown log]. rewrite Ha, app_assoc. reflexivity.
        -- rewrite asks_app, Hk. cbn. lia.
        -- rewrite connects_app, Hc. cbn. lia.
        -- rewrite connects_app, Hc. cbn. repeat constructor. exists p. auto.
    + assert (H : exists new, added c c1 new /\ (asks new <= 3)%nat /\ connects new = []).
      { destruct e as [| |d].
        - destruct Hp as [_ [new (Ha & Hk & Hc)]]. exists new. split; [auto|]. split; [lia|auto].
        - destruct Hp as [_ [j [new (Hj & _ & Ha & Hk & Hc)]]].
          exists new. split; [auto|]. split; [lia|auto].
        - contradiction. }
      destruct H as [new (Ha & Hk & Hc)]. exists new.
      split; [assumption|]. split; [lia|]. rewrite Hc. cbn. split; [lia | constructor].
Qed.

Lemma startup_run srv c :
  match startup srv c with
  | Done st c' =>
      bounded 3 c c' /\ (exists used, lines c = used ++ lines c') /\
      exists a p before,
        p <> "" /\ srv a (conninfo p) = Connection st /\
        shown c' = before ++ [Connect (conninfo p)]
  | Halt e c' => bounded 3 c c'
  end.
Proof.
  unfold startup, then_ at 1.
  pose proof (connect_loop_run srv 3 c) as H.
  destruct (connect_loop srv 3 c) as [[st|] c1|e c1].
  - exact H.
  - destruct H as [[new (Ha & Hk & Hc & Hf)] _]. cbn.
    exists (new ++ [Say "Maximum attempts exceeded. Press any key to exit program..."; Key]).
    split; [unfold added in *; cbn; rewrite Ha, <- !app_assoc; reflexivity|].
    rewrite asks_app, connects_app. cbn. rewrite app_nil_r, Nat.add_0_r. auto.
  - exact H.
Qed.

(** X16. Whatever is typed and whatever the server answers, the start of
    the program asks for a password at most nine times and calls
    [psycopg.connect] at most three times, each time with a conninfo made
    from a password that is not empty. *)
Theorem start_is_bounded srv c :
  exists new,
    added c (console_of (main srv c)) new /\
    (asks new <= 9)%nat /\
    (List.length (connects new) <= 3)%nat /\
    Forall from_password (connects new).
Proof.
  unfold main. pose proof (startup_run srv c) as H.
  destruct (startup srv c) as [st c'|e c']; cbn [console_of].
  - destruct H as [[new (Ha & Hk & Hc & Hf)] _]. exists new. cbn in Hk. auto.
  - destruct H as [new (Ha & Hk & Hc & Hf)]. exists new. cbn in Hk. auto.
Qed.

(** X17. The menu runs only on a connection the server has granted to a
    password that is not empty, the call of [psycopg.connect] being the
    last step of the start; it reads the lines the start has not used. *)
Theorem session_needs_connection srv c c' st r :
  main srv c = Session c' st r ->
  (exists a p before,
     p <> "" /\ srv a (conninfo p) = Connection st /\
     shown c' = before ++ [Connect (conninfo p)]) /\
  (exists used, lines c = used ++ lines c') /\
  r = main_menu {| db := st; stdin := lines c'; stdout := []; issued := [] |}.
Proof.
  unfold main. pose proof (startup_run srv c) as H.
  destruct (startup srv c) as [st1 c1|e c1]; [|discriminate].
  intros E. injection E as -> -> <-.
  destruct H as [_ [Hu Hc]]. auto.
Qed.

Lemma session_needs_connection_witness :
  exists c' r,
    main (one_password "pw" shop) (typed [""; "pw"; "5"]) = Session c' shop r /\
    lines c' = ["5"] /\
    (exists a p before,
       p <> "" /\ one_password "pw" shop a (conninfo p) = Connection shop /\
       shown c' = before ++ [Connect (conninfo p)]) /\
    r = main_menu (session shop ["5"]).
Proof.
  eexists. eexists. split; [vm_compute; reflexivity|]. split; [reflexivity|].
  destruct (session_needs_connection (one_password "pw" shop) (typed [""; "pw"; "5"])
              _ shop _ eq_refl) as [H1 [_ H3]].
  split; [exact H1 | exact H3].
Defined.

End Startup.
